(** * bootcamp_data: a shallow embedding of the ETL pipeline

    The development follows the Python package [bootcamp_data]:

    - [joins.py]  : [safe_left_join], a guarded wrapper around the left
      merge of two tables;
    - [etl.py]    : [transform], [load_outputs], [write_run_meta] and
      [run_etl], the extract / transform / load orchestration;
    - [config.py] : [make_paths];
    - [scripts/run_pipeline.py] : [main], the conversion of the raw files.

    Tables are pandas data frames.  They are modelled row-major: a list of
    column labels and a list of rows, each row a list of cells.  Python
    exceptions are modelled by the type [exn] and the [result] monad; the
    code that touches objects in place or the file system runs in the
    state-and-exception monad [M] over a [world]. *)

From Stdlib Require Import QArith Qcanon Qround Ascii.
From stdpp Require Import numbers strings list gmap sorting.

Close Scope Qc_scope.
Close Scope Q_scope.
Close Scope Z_scope.
Local Open Scope nat_scope.
Local Open Scope list_scope.

(** ** Cells, series and data frames *)

(** A cell of a table.  [VNull] stands for every missing value of pandas
    ([None], [NaN], [NaT]); floats are kept as exact rationals. *)
Inductive value : Type :=
  | VNull
  | VBool (b : bool)
  | VInt (z : Z)
  | VFloat (q : Qc)
  | VStr (s : string)
  | VTime (t : Z).

#[global] Instance value_eq_dec : EqDecision value.
Proof. solve_decision. Defined.

#[global] Instance value_inhabited : Inhabited value := populate VNull.

(** A column taken out of a frame ([df[c]]), with the default range index. *)
Abbreviation Series := (list value) (only parsing).

Abbreviation row := (list value) (only parsing).

Record DataFrame : Type := mkDataFrame {
  columns : list string;
  rows : list row;
}.

#[global] Instance DataFrame_eq_dec : EqDecision DataFrame.
Proof. solve_decision. Defined.

(** [len(df)] *)
Definition len (df : DataFrame) : nat := length (rows df).

(** [cols.get_loc(c)]: the position of the first column labelled [c]. *)
Fixpoint get_loc (c : string) (cols : list string) : option nat :=
  match cols with
  | [] => None
  | c' :: cs => if decide (c = c') then Some 0 else S <$> get_loc c cs
  end.

(** The cell of a row at a position; a row that is too short reads as
    missing there. *)
Definition cell (r : row) (i : nat) : value := default VNull (r !! i).

(** The cells of a row at the given positions, in that order. *)
Definition take_cells (idx : list nat) (r : row) : list value :=
  map (cell r) idx.

(** [v is NA] *)
Definition isna (v : value) : bool :=
  match v with VNull => true | _ => false end.

(** ** Exceptions *)

(** Which side of a merge has a key that repeats. *)
Inductive merge_side := LeftSide | RightSide | BothSides.

(** The two reasons for which a merge raises [MergeError]: the keys do not
    have the declared cardinality, or the suffixes produce a label twice. *)
Inductive merge_error :=
  | KeysNotUnique (side : merge_side)
  | SuffixDuplicates (labels : list string).

(** The exceptions the pipeline can raise.  [MergeError] is
    [pandas.errors.MergeError]; [AssertionError] is the failed [assert] of
    [safe_left_join] with the two row counts of its message; [SchemaError],
    [EmptyInputError] and [KeyViolationError] are the quality gate's;
    [InputError] is the raw readers' and [OSError] a refused write;
    [HelperError] is any other exception, such as one a cleaning helper
    raises. *)
Inductive exn : Type :=
  | KeyError (label : string)
  | ValueError (msg : string)
  | MergeError (why : merge_error)
  | AssertionError (before after : nat)
  | SchemaError (missing : list string)
  | EmptyInputError (label : string)
  | KeyViolationError (key : string)
  | InputError (path : list string)
  | OSError (path : list string)
  | HelperError (msg : string).

(** The names the specification gives to the two failures of the join. *)
Definition CardinalityViolation (side : merge_side) : exn :=
  MergeError (KeysNotUnique side).

Definition JoinExplosionError (before after : nat) : exn :=
  AssertionError before after.

Inductive result (A : Type) : Type :=
  | Ok (a : A)
  | Raise (e : exn).
Arguments Ok {A} a.
Arguments Raise {A} e.

#[global] Instance result_ret : MRet result := λ A a, Ok a.
#[global] Instance result_bind : MBind result := λ A B f m,
  match m with Ok a => f a | Raise e => Raise e end.

(** ** pandas: [DataFrame.merge(how="left")]

    pandas is not part of the package.  The model follows the steps of the
    merge operation of pandas 2 when it is called with [how="left"],
    [on=...], [validate=...] and [suffixes=...] on frames with the default
    index: the key columns are looked up in both frames, the declared
    cardinality is checked on the key columns, the rows are matched, and
    the labels of the result are computed.  A single label given for [on]
    is the list of that one label.
    Cells are dynamically typed here, where pandas types its columns: the
    model compares key cells as they are (missing matches missing, as in
    pandas), takes the first column of a label, and copies the cells of
    the right frame as they are.  pandas does the same on the frames
    described by [merge_scope] and [keeps_right_cells] below, which have
    rows and are joined on one key label or more; outside of them it
    refuses a key label that a frame has twice, refuses key columns of
    different types or casts them to a common type before it compares
    them, and turns a column of integers of the right frame into floats
    when a row of the result has no match.  The statements on what a join
    returns, or on which exception it raises, are made within that
    scope. *)

Inductive validate_kwd := one_to_one | one_to_many | many_to_one | many_to_many.

#[global] Instance validate_kwd_eq_dec : EqDecision validate_kwd.
Proof. solve_decision. Defined.

(** The positions of the key columns: for each label of [on] the right
    frame is asked first, then the left one; a label that is absent is a
    [KeyError]. *)
Fixpoint get_merge_keys (on lcols rcols : list string) : result (list nat * list nat) :=
  match on with
  | [] => Ok ([], [])
  | k :: on' =>
      match get_loc k rcols with
      | None => Raise (KeyError k)
      | Some j =>
          match get_loc k lcols with
          | None => Raise (KeyError k)
          | Some i =>
              '(li, ri) ← get_merge_keys on' lcols rcols;
              Ok (i :: li, j :: ri)
          end
      end
  end.

(** [MultiIndex.from_arrays(keys).is_unique] *)
Definition is_unique (keys : list (list value)) : bool := bool_decide (NoDup keys).

(** The check of the [validate] keyword, on the key values of both sides.
    With no key column at all the index of keys cannot be built. *)
Definition validate_validate_kwd (validate : validate_kwd) (on : list string)
    (lkeys rkeys : list (list value)) : result unit :=
  if decide (on = []) then Raise (ValueError "Must pass non-zero number of levels/codes")
  else
    let left_unique := is_unique lkeys in
    let right_unique := is_unique rkeys in
    match validate with
    | one_to_one =>
        if negb left_unique && negb right_unique then Raise (MergeError (KeysNotUnique BothSides))
        else if negb left_unique then Raise (MergeError (KeysNotUnique LeftSide))
        else if negb right_unique then Raise (MergeError (KeysNotUnique RightSide))
        else Ok ()
    | one_to_many =>
        if negb left_unique then Raise (MergeError (KeysNotUnique LeftSide)) else Ok ()
    | many_to_one =>
        if negb right_unique then Raise (MergeError (KeysNotUnique RightSide)) else Ok ()
    | many_to_many => Ok ()
    end.

(** The rows of the right frame whose key is [k], in the right frame's order. *)
Definition matching_rows (ridx : list nat) (k : list value) (right_rows : list row) : list row :=
  filter (λ r, take_cells ridx r = k) right_rows.

(** The output rows that one left row gives: one per matching right row,
    or one padded with missing cells when nothing matches. *)
Definition join_row (lidx ridx keep : list nat) (right_rows : list row) (l : row) : list row :=
  match matching_rows ridx (take_cells lidx l) right_rows with
  | [] => [l ++ replicate (length keep) VNull]
  | ms => map (λ r, l ++ take_cells keep r) ms
  end.

Definition left_join_rows (lidx ridx keep : list nat) (left_rows right_rows : list row) : list row :=
  concat (map (join_row lidx ridx keep right_rows) left_rows).

(** The positions of the columns of the right frame that are not key
    columns: the key columns of the right frame are dropped before the
    labels are compared, the result takes them from the left frame. *)
Fixpoint positions_not_in (on : list string) (i : nat) (cols : list string) : list nat :=
  match cols with
  | [] => []
  | c :: cs =>
      if decide (c ∈ on) then positions_not_in on (S i) cs
      else i :: positions_not_in on (S i) cs
  end.

(** The labels of the right frame once its key columns are dropped. *)
Definition drop_labels (on : list string) (cols : list string) : list string :=
  filter (λ c, c ∉ on) cols.

(** [Index.duplicated()]: true at every occurrence of a label but the first. *)
Fixpoint duplicated (seen : list string) (l : list string) : list bool :=
  match l with
  | [] => []
  | x :: l' => bool_decide (x ∈ seen) :: duplicated (x :: seen) l'
  end.

(** The labels that the suffixes turned into duplicates: duplicated after
    the renaming, at a place that was not a duplicate before it. *)
Definition suffix_dups (new old : list string) : list string :=
  (zip new (zip (duplicated [] new) (duplicated [] old))) ≫=
    (λ '(x, (dn, dold)), if dn && negb dold then [x] else []).

Definition renamer (to_rename : list string) (suffix : string) (x : string) : string :=
  if decide (x ∈ to_rename) then x +:+ suffix else x.

(** The labels of the merged frame.  Labels that occur on both sides get
    the side's suffix; two empty suffixes cannot tell them apart, and
    suffixes that create a duplicate label are refused. *)
Definition items_overlap_with_suffix (left right : list string) (suffixes : string * string)
    : result (list string * list string) :=
  let to_rename := filter (λ x, x ∈ right) left in
  if decide (to_rename = []) then Ok (left, right)
  else
    let '(lsuffix, rsuffix) := suffixes in
    if decide (lsuffix = "" ∧ rsuffix = "") then
      Raise (ValueError "columns overlap but no suffix specified")
    else
      let llabels := map (renamer to_rename lsuffix) left in
      let rlabels := map (renamer to_rename rsuffix) right in
      match suffix_dups llabels left ++ suffix_dups rlabels right with
      | [] => Ok (llabels, rlabels)
      | dups => Raise (MergeError (SuffixDuplicates dups))
      end.

(** [left.merge(right, how="left", on=on, validate=validate, suffixes=suffixes)] *)
Definition merge (left right : DataFrame) (on : list string) (validate : validate_kwd)
    (suffixes : string * string) : result DataFrame :=
  '(lidx, ridx) ← get_merge_keys on (columns left) (columns right);
  _ ← validate_validate_kwd validate on
        (map (take_cells lidx) (rows left)) (map (take_cells ridx) (rows right));
  let keep := positions_not_in on 0 (columns right) in
  let joined := left_join_rows lidx ridx keep (rows left) (rows right) in
  '(llabels, rlabels) ← items_overlap_with_suffix
        (columns left) (drop_labels on (columns right)) suffixes;
  Ok {| columns := llabels ++ rlabels; rows := joined |}.

(** ** joins.py *)

(** The default of the [suffixes] argument; the default of [validate] is
    [many_to_one] and that of [check_row_count] is [true]. *)
Definition default_suffixes : string * string := ("", "_r").

(** [safe_left_join(left, right, on=..., validate=..., suffixes=...,
    check_row_count=...)].  The [assert] statement is taken as executed. *)
Definition safe_left_join (left right : DataFrame) (on : list string)
    (validate : validate_kwd) (suffixes : string * string) (check_row_count : bool)
    : result DataFrame :=
  let before := len left in
  out ← merge left right on validate suffixes;
  if check_row_count then
    let after := len out in
    if decide (before = after) then Ok out
    else Raise (AssertionError before after)
  else Ok out.

(** ** pandas: columns of a frame *)

(** [df[c]] *)
Definition getitem (df : DataFrame) (c : string) : result Series :=
  match get_loc c (columns df) with
  | Some i => Ok (map (λ r, cell r i) (rows df))
  | None => Raise (KeyError c)
  end.

(** The frame [df] after [df[c] = s]: the column labelled [c] is replaced
    where it stands, or added as the last column.  The series is aligned on
    the range index: row [k] takes the [k]-th cell of [s], or missing when
    [s] is shorter. *)
Definition set_column (df : DataFrame) (c : string) (s : Series) : DataFrame :=
  match get_loc c (columns df) with
  | Some i =>
      {| columns := columns df;
         rows := imap (λ k r, <[i := cell s k]> r) (rows df) |}
  | None =>
      {| columns := columns df ++ [c];
         rows := imap (λ k r, r ++ [cell s k]) (rows df) |}
  end.

(** [df.drop(columns=cs, errors="ignore")] *)
Definition drop_columns (df : DataFrame) (cs : list string) : DataFrame :=
  {| columns := drop_labels cs (columns df);
     rows := map (take_cells (positions_not_in cs 0 (columns df))) (rows df) |}.

(** [s.isna().sum()] *)
Definition isna_sum (s : Series) : nat := length (filter (λ v, isna v = true) s).

(** A Python float: not-a-number, or a number kept as an exact rational.
    The program rounds to binary64 at each operation, the model does not:
    what is stated of a float of the program is what the rounding keeps,
    or is stated up to the rounding ([close_to] below). *)
Inductive pyfloat := NaN | Float (q : Qc).

(** [s.isna().mean()]: the mean of an empty series is not a number. *)
Definition isna_mean (s : Series) : pyfloat :=
  match length s with
  | 0 => NaN
  | S n => Float (Q2Qc (Z.of_nat (isna_sum s) # Pos.of_succ_nat n))
  end.

(** [1.0 - x] *)
Definition one_minus (x : pyfloat) : pyfloat :=
  match x with
  | NaN => NaN
  | Float q => Float (1 - q)%Qc
  end.

(** ** Python objects of the run statistics and of the metadata document *)

#[warnings="-register-all"] Inductive pyobj : Type :=
  | PNone
  | PInt (z : Z)
  | PFloat (x : pyfloat)
  | PStr (s : string)
  | PDict (items : list (string * pyobj)).

(** A dictionary with string keys, in insertion order. *)
Abbreviation pydict := (list (string * pyobj)) (only parsing).

(** [d[k]], as [d.get(k)] *)
Fixpoint dict_get (k : string) (d : pydict) : option pyobj :=
  match d with
  | [] => None
  | (k', v) :: d' => if decide (k = k') then Some v else dict_get k d'
  end.

(** [d[k] = v]: a key that is present keeps its place. *)
Fixpoint dict_set (k : string) (v : pyobj) (d : pydict) : pydict :=
  match d with
  | [] => [(k, v)]
  | (k', v') :: d' => if decide (k = k') then (k, v) :: d' else (k', v') :: dict_set k v d'
  end.

(** The display [{**d, k1: v1, ..., kn: vn}]. *)
Definition dict_display (d : pydict) (items : list (string * pyobj)) : pydict :=
  foldl (λ acc kv, dict_set kv.1 kv.2 acc) d items.

(** ** quality.py *)

(** Modelled from the spec: [bootcamp_data.quality.require_columns] is not
    among the sources.  It fails with [SchemaError] if any expected column
    is absent, and reads the table only. *)
Definition require_columns (df : DataFrame) (cols : list string) : result unit :=
  match filter (λ c, c ∉ columns df) cols with
  | [] => Ok ()
  | missing => Raise (SchemaError missing)
  end.

(** Modelled from the spec: [bootcamp_data.quality.assert_non_empty] is not
    among the sources.  It fails with [EmptyInputError] if the table has
    zero rows; the error carries the label. *)
Definition assert_non_empty (df : DataFrame) (label : string) : result unit :=
  if decide (len df = 0) then Raise (EmptyInputError label) else Ok ().

(** Modelled from the spec: [bootcamp_data.quality.assert_unique_key] is
    not among the sources.  It fails with [KeyViolationError] if any value
    of the key column repeats, a missing value that occurs twice
    included. *)
Definition assert_unique_key (df : DataFrame) (key : string) : result unit :=
  s ← getitem df key;
  if bool_decide (NoDup s) then Ok () else Raise (KeyViolationError key).

(** ** transforms.py *)

(** Modelled from the spec: [bootcamp_data.transforms] is not among the
    sources.  Its helpers are taken as parameters: functions from table
    values (or columns) to new table values (or columns), which may raise;
    they keep no state and touch neither their argument nor the file
    system. *)
Class Transforms : Type := {
  enforce_schema : DataFrame → result DataFrame;
  normalize_text : Series → result Series;
  apply_mapping : Series → list (string * string) → result Series;
  add_missing_flags : DataFrame → list string → result DataFrame;
  parse_datetime : DataFrame → string → bool → result DataFrame;
  add_time_parts : DataFrame → string → result DataFrame;
  winsorize : Series → result Series;
  add_outlier_flag : DataFrame → string → result DataFrame;
}.

(** ** Objects and files *)

Abbreviation Path := (list string) (only parsing).

(** [p.parent] *)
Definition parent (p : Path) : Path := take (length p - 1) p.

(** [p / name] *)
Definition joinpath (p : Path) (name : string) : Path := p ++ [name].

(** [str(p)], for a relative path; the path without a component is the
    current directory. *)
Definition path_str (p : Path) : string :=
  match p with
  | [] => "."
  | _ => String.concat "/" p
  end.

(** What a file holds: a table in CSV or in Parquet form, or the text of a
    JSON document ([json.dumps] of the object). *)
Inductive file : Type :=
  | CsvFile (df : DataFrame)
  | ParquetFile (df : DataFrame)
  | JsonFile (doc : pyobj).

(** The calls to the file system that went through, in the order they
    were made. *)
Inductive event : Type :=
  | EvRead (p : Path)
  | EvMkdir (p : Path)
  | EvWriteTable (p : Path)
  | EvWriteText (p : Path).

#[global] Instance event_eq_dec : EqDecision event.
Proof. solve_decision. Defined.

(** A reference to a data frame object. *)
Abbreviation loc := nat (only parsing).

(** The state a run works on: the data frame objects that exist, the
    files, the paths that refuse a write, and the file-system calls made
    so far. *)
Record world : Type := mkWorld {
  heap : list DataFrame;
  files : gmap Path file;
  locked : gset Path;
  trace : list event;
}.

Definition set_heap (h : list DataFrame) (w : world) : world :=
  {| heap := h; files := files w; locked := locked w; trace := trace w |}.

Definition set_files (fs : gmap Path file) (w : world) : world :=
  {| heap := heap w; files := fs; locked := locked w; trace := trace w |}.

Definition emit (ev : event) (w : world) : world :=
  {| heap := heap w; files := files w; locked := locked w; trace := trace w ++ [ev] |}.

(** Computations that read and change the world and may raise. *)
Definition M (A : Type) : Type := world → result A * world.

#[global] Instance M_ret : MRet M := λ A a w, (Ok a, w).
#[global] Instance M_bind : MBind M := λ A B f m w,
  match m w with
  | (Ok a, w') => f a w'
  | (Raise e, w') => (Raise e, w')
  end.

(** A call that only computes. *)
Definition pure {A} (r : result A) : M A := λ w, (r, w).

(** The object a reference points to.  A Python reference always points
    to an object; the other case is there to make the function total and
    is not met by references that [alloc] returned. *)
Definition deref (l : loc) : M DataFrame := λ w,
  match heap w !! l with
  | Some df => (Ok df, w)
  | None => (Raise (HelperError "no such object"), w)
  end.

(** A new object. *)
Definition alloc (df : DataFrame) : M loc := λ w,
  (Ok (length (heap w)), set_heap (heap w ++ [df]) w).

(** [df.copy()] *)
Definition copy (l : loc) : M loc := df ← deref l; alloc df.

(** [f(df, ...)] and [df.pipe(f, ...)] for a function that reads its
    argument and returns a new frame. *)
Definition pipe (l : loc) (f : DataFrame → result DataFrame) : M loc :=
  df ← deref l; df' ← pure (f df); alloc df'.

(** [check(df, ...)] for a function that reads its argument. *)
Definition check (l : loc) (f : DataFrame → result unit) : M unit :=
  df ← deref l; pure (f df).

(** [df.assign(c=f)]: a new frame, [df] with the column [c] set to [f(df)]. *)
Definition assign (l : loc) (c : string) (f : DataFrame → result Series) : M loc :=
  df ← deref l; s ← pure (f df); alloc (set_column df c s).

(** [df[c] = s], in place. *)
Definition setitem (l : loc) (c : string) (s : Series) : M unit := λ w,
  match heap w !! l with
  | Some df => (Ok (), set_heap (<[l := set_column df c s]> (heap w)) w)
  | None => (Raise (HelperError "no such object"), w)
  end.

(** ** io.py *)

(** Modelled from the spec: [bootcamp_data.io.read_orders_csv] is not among
    the sources.  Given a file path it returns the table of the file, and
    signals an error if the file is missing or malformed. *)
Definition read_orders_csv (p : Path) : M loc := λ w,
  match files w !! p with
  | Some (CsvFile df) => alloc df (emit (EvRead p) w)
  | _ => (Raise (InputError p), w)
  end.

(** Modelled from the spec: [bootcamp_data.io.read_users_csv] is not among
    the sources; it reads as [read_orders_csv] does. *)
Definition read_users_csv (p : Path) : M loc := λ w,
  match files w !! p with
  | Some (CsvFile df) => alloc df (emit (EvRead p) w)
  | _ => (Raise (InputError p), w)
  end.

(** Modelled from the spec: [bootcamp_data.io.write_parquet] is not among
    the sources.  Given a table and a destination path it persists the
    table, so that a reader gets an equal table back, and overwrites any
    file at that path.  A path that refuses the write raises and leaves
    the files as they are. *)
Definition write_parquet (l : loc) (p : Path) : M unit :=
  df ← deref l;
  (λ w, if decide (p ∈ locked w) then (Raise (OSError p), w)
        else (Ok (), emit (EvWriteTable p) (set_files (<[p := ParquetFile df]> (files w)) w))) : M unit.

(** [p.mkdir(parents=True, exist_ok=True)] *)
Definition mkdir (p : Path) : M unit := λ w, (Ok (), emit (EvMkdir p) w).

(** [p.write_text(json.dumps(doc, ...), encoding="utf-8")] *)
Definition write_text (p : Path) (doc : pyobj) : M unit := λ w,
  if decide (p ∈ locked w) then (Raise (OSError p), w)
  else (Ok (), emit (EvWriteText p) (set_files (<[p := JsonFile doc]> (files w)) w)).

(** ** config.py *)

Record Paths : Type := mkPaths {
  paths_root : Path;
  paths_data : Path;
  paths_raw : Path;
  paths_cache : Path;
  paths_processed : Path;
  paths_external : Path;
}.

Definition make_paths (root : Path) : Paths :=
  let data := joinpath root "data" in
  {| paths_root := root;
     paths_data := data;
     paths_raw := joinpath data "raw";
     paths_cache := joinpath data "cache";
     paths_processed := joinpath data "processed";
     paths_external := joinpath data "external" |}.

(** ** etl.py *)

Record ETLConfig : Type := mkETLConfig {
  root : Path;
  raw_orders : Path;
  raw_users : Path;
  out_orders_clean : Path;
  out_users : Path;
  out_analytics : Path;
  run_meta : Path;
}.

(** Extract: read raw inputs. *)
Definition load_inputs (cfg : ETLConfig) : M (loc * loc) :=
  orders ← read_orders_csv (raw_orders cfg);
  users ← read_users_csv (raw_users cfg);
  mret (orders, users).

Definition status_map : list (string * string) :=
  [("paid", "paid"); ("refund", "refund"); ("refunded", "refund"); ("returned", "refund")].

(** The statistics of [transform], computed on the joined table. *)
Definition run_stats (orders_raw users_raw analytics : DataFrame) : result pydict :=
  missing_created_at ←
    (if decide ("created_at" ∈ columns analytics) then
       s ← getitem analytics "created_at"; Ok (PInt (Z.of_nat (isna_sum s)))
     else Ok PNone);
  country_match_rate ←
    (if decide ("country" ∈ columns analytics) then
       s ← getitem analytics "country"; Ok (PFloat (one_minus (isna_mean s)))
     else Ok PNone);
  Ok [ ("rows_in_orders_raw", PInt (Z.of_nat (len orders_raw)));
       ("rows_in_users_raw", PInt (Z.of_nat (len users_raw)));
       ("rows_out_analytics", PInt (Z.of_nat (len analytics)));
       ("missing_created_at_after_parse", missing_created_at);
       ("country_match_rate", country_match_rate) ].

Section etl.
Context `{T : Transforms}.

(** Transform: compose the helpers into the final analytics table.
    Returns [(orders_clean, users_clean, analytics_table, stats_dict)]. *)
Definition transform (orders_raw users_raw : loc) : M (loc * loc * loc * pydict) :=
  (* ---- Fail-fast checks (inputs) ---- *)
  _ ← check orders_raw (λ df, require_columns df
        ["order_id"; "user_id"; "amount"; "quantity"; "created_at"; "status"]);
  _ ← check users_raw (λ df, require_columns df ["user_id"; "country"; "signup_date"]);
  _ ← check orders_raw (λ df, assert_non_empty df "orders_raw");
  _ ← check users_raw (λ df, assert_non_empty df "users_raw");
  (* users must be unique for many_to_one join *)
  _ ← check users_raw (λ df, assert_unique_key df "user_id");
  (* ---- Clean users ---- *)
  users ← copy users_raw;
  u ← deref users;
  _ ← (if decide ("country" ∈ columns u) then
         s ← pure (getitem u "country");
         s' ← pure (normalize_text s);
         setitem users "country" s'
       else mret ());
  (* ---- Clean + enrich orders ---- *)
  o ← copy orders_raw;
  o ← pipe o enforce_schema;
  o ← assign o "status_clean" (λ d,
        s ← getitem d "status"; s' ← normalize_text s; apply_mapping s' status_map);
  o ← pipe o (λ d, add_missing_flags d ["amount"; "quantity"; "created_at"; "status"]);
  o ← pipe o (λ d, parse_datetime d "created_at" true);
  orders ← pipe o (λ d, add_time_parts d "created_at");
  (* outliers + winsor *)
  d ← deref orders;
  orders ← (if decide ("amount" ∈ columns d) then
              o ← assign orders "amount_winsor" (λ d, s ← getitem d "amount"; winsorize s);
              pipe o (λ d, add_outlier_flag d "amount")
            else mret orders);
  (* ---- Join orders -> users (safe) ---- *)
  left ← deref orders;
  right ← deref users;
  out ← pure (safe_left_join left right ["user_id"] many_to_one default_suffixes true);
  analytics ← alloc out;
  (* orders_clean = orders-only view *)
  u ← deref users;
  let user_side_cols := filter (λ c, c ≠ "user_id") (columns u) in
  a ← deref analytics;
  orders_clean ← alloc (drop_columns a (filter (λ c, c ∈ columns a) user_side_cols));
  (* ---- stats for _run_meta.json ---- *)
  a ← deref analytics;
  o_raw ← deref orders_raw;
  u_raw ← deref users_raw;
  stats ← pure (run_stats o_raw u_raw a);
  mret (orders_clean, users, analytics, stats).

(** Load: write processed artifacts (idempotent overwrite). *)
Definition load_outputs (orders_clean users analytics : loc) (cfg : ETLConfig) : M unit :=
  _ ← mkdir (parent (out_orders_clean cfg));
  _ ← write_parquet orders_clean (out_orders_clean cfg);
  _ ← write_parquet users (out_users cfg);
  write_parquet analytics (out_analytics cfg).

Definition run_meta_doc (cfg : ETLConfig) (stats : pydict) : pydict :=
  dict_display stats
    [ ("inputs", PDict [ ("orders_raw", PStr (path_str (raw_orders cfg)));
                         ("users_raw", PStr (path_str (raw_users cfg))) ]);
      ("outputs", PDict [ ("orders_clean", PStr (path_str (out_orders_clean cfg)));
                          ("users", PStr (path_str (out_users cfg)));
                          ("analytics_table", PStr (path_str (out_analytics cfg)));
                          ("run_meta", PStr (path_str (run_meta cfg))) ]);
      ("config", PDict [ ("root", PStr (path_str (root cfg))) ]) ].

Definition write_run_meta (cfg : ETLConfig) (stats : pydict) : M unit :=
  _ ← mkdir (parent (run_meta cfg));
  let meta := run_meta_doc cfg stats in
  write_text (run_meta cfg) (PDict meta).

(** The logging calls of [run_etl] write to no file and are left out. *)
Definition run_etl (cfg : ETLConfig) : M unit :=
  '(orders_raw, users_raw) ← load_inputs cfg;
  '(orders_clean, users, analytics, stats) ← transform orders_raw users_raw;
  _ ← load_outputs orders_clean users analytics cfg;
  write_run_meta cfg stats.

End etl.

(** ** scripts/run_pipeline.py *)

(** [main()], with the project root [ROOT] of the script as its argument.
    The two [print] calls that end it write to the standard output and
    are left out. *)
Definition main (ROOT : Path) : M unit :=
  let paths := make_paths ROOT in
  (* Read raw data *)
  orders ← read_orders_csv (joinpath (paths_raw paths) "orders.csv");
  users ← read_users_csv (joinpath (paths_raw paths) "users.csv");
  (* Write processed data *)
  _ ← write_parquet orders (joinpath (paths_processed paths) "orders.parquet");
  write_parquet users (joinpath (paths_processed paths) "users.parquet").

(** ** What [transform] computes, as a function of the two tables

    [transform] works on objects; the functions below give the tables it
    returns as values.  They follow [transform] step by step and are proved
    to agree with it in [transform_run]. *)

(** The five input checks of [transform], in its order. *)
Definition quality_gate (O U : DataFrame) : result unit :=
  _ ← require_columns O ["order_id"; "user_id"; "amount"; "quantity"; "created_at"; "status"];
  _ ← require_columns U ["user_id"; "country"; "signup_date"];
  _ ← assert_non_empty O "orders_raw";
  _ ← assert_non_empty U "users_raw";
  assert_unique_key U "user_id".

Section tables.
Context `{T : Transforms}.

Definition clean_users (U : DataFrame) : result DataFrame :=
  if decide ("country" ∈ columns U) then
    s ← getitem U "country";
    s' ← normalize_text s;
    Ok (set_column U "country" s')
  else Ok U.

Definition clean_orders (O : DataFrame) : result DataFrame :=
  o ← enforce_schema O;
  s ← (s ← getitem o "status"; s' ← normalize_text s; apply_mapping s' status_map);
  o ← add_missing_flags (set_column o "status_clean" s)
        ["amount"; "quantity"; "created_at"; "status"];
  o ← parse_datetime o "created_at" true;
  o ← add_time_parts o "created_at";
  if decide ("amount" ∈ columns o) then
    s ← (s ← getitem o "amount"; winsorize s);
    add_outlier_flag (set_column o "amount_winsor" s) "amount"
  else Ok o.

Definition transform_tables (O U : DataFrame)
    : result (DataFrame * DataFrame * DataFrame * pydict) :=
  _ ← quality_gate O U;
  users ← clean_users U;
  orders ← clean_orders O;
  analytics ← safe_left_join orders users ["user_id"] many_to_one default_suffixes true;
  let user_side_cols := filter (λ c, c ≠ "user_id") (columns users) in
  let orders_clean :=
    drop_columns analytics (filter (λ c, c ∈ columns analytics) user_side_cols) in
  stats ← run_stats O U analytics;
  Ok (orders_clean, users, analytics, stats).

End tables.

(** The world [w] with the objects [news] created after its own. *)
Definition ext (w : world) (news : list DataFrame) : world :=
  set_heap (heap w ++ news) w.

(** The tables and statistics a call of [transform] returned, or the
    exception it raised. *)
Definition outcome (x : result (loc * loc * loc * pydict) * world)
    : result (DataFrame * DataFrame * DataFrame * pydict) :=
  match x with
  | (Ok (oc, us, an, st), w) =>
      match heap w !! oc, heap w !! us, heap w !! an with
      | Some a, Some b, Some c => Ok (a, b, c, st)
      | _, _, _ => Raise (HelperError "no such object")
      end
  | (Raise e, _) => Raise e
  end.

(** What a call of [transform] on the tables [O] and [U] did in the world
    [w]: it created the objects [news] and changed nothing else, and it
    returned references to the tables that [transform_tables] gives, or
    raised its exception. *)
Definition transform_post `{T : Transforms} (O U : DataFrame) (w : world)
    (x : result (loc * loc * loc * pydict) * world) : Prop :=
  ∃ news, x.2 = ext w news ∧
    match x.1 with
    | Ok (oc, us, an, st) =>
        ∃ OC US AN, heap x.2 !! oc = Some OC ∧ heap x.2 !! us = Some US ∧
                    heap x.2 !! an = Some AN ∧
                    transform_tables O U = Ok (OC, US, AN, st)
    | Raise e => transform_tables O U = Raise e
    end.

(** ** Vocabulary of the specification *)

(** *** The join *)

(** The positions of the key columns in a frame. *)
Definition key_locs (on cols : list string) : list nat :=
  omap (λ k, get_loc k cols) on.

(** The key of a row of [df]. *)
Definition row_key (on : list string) (df : DataFrame) : row → list value :=
  take_cells (key_locs on (columns df)).

(** The keys of the rows of [df], in row order. *)
Definition key_values (on : list string) (df : DataFrame) : list (list value) :=
  map (row_key on df) (rows df).

(** Every key column is a column of [df]. *)
Definition has_keys (on : list string) (df : DataFrame) : Prop :=
  Forall (λ k, k ∈ columns df) on.

(** The cells of a row of [df] outside the key columns. *)
Definition other_cells (on : list string) (df : DataFrame) : row → list value :=
  take_cells (positions_not_in on 0 (columns df)).

(** The rows of [right] whose key is the key of the row [l] of [left]. *)
Definition matches (on : list string) (left right : DataFrame) (l : row) : list row :=
  filter (λ r, row_key on right r = row_key on left l) (rows right).

(** As many missing cells as [df] has columns outside the key. *)
Definition null_cells (on : list string) (df : DataFrame) : list value :=
  replicate (length (drop_labels on (columns df))) VNull.

(** What one left row [l] gives in a left outer join: the block [b] of
    output rows has one row per match, and one row when nothing matches;
    every row of the block starts with [l]; its other cells are those of
    the matching rows of [right], in order, or missing. *)
Definition left_outer_join_block (on : list string) (left right : DataFrame)
    (l : row) (b : list row) : Prop :=
  length b = Nat.max 1 (length (matches on left right l)) ∧
  Forall (λ o, take (length l) o = l) b ∧
  (matches on left right l = [] →
     Forall (λ o, drop (length l) o = null_cells on right) b) ∧
  (matches on left right l ≠ [] →
     map (drop (length l)) b = map (other_cells on right) (matches on left right l)).

(** An output row [o] is the left row [l] with the other cells of its one
    matching right row, or with missing cells when no right row matches. *)
Definition augmented (on : list string) (left right : DataFrame) (l o : row) : Prop :=
  (∃ r, matches on left right l = [r] ∧ o = l ++ other_cells on right r) ∨
  (matches on left right l = [] ∧ o = l ++ null_cells on right).

(** *** The scope of the model of the merge *)

(** The kinds of cells that are not missing; a pandas column whose cells
    all have one kind has the dtype of that kind. *)
Inductive kind := KBool | KInt | KFloat | KStr | KTime.

#[global] Instance kind_eq_dec : EqDecision kind.
Proof. solve_decision. Defined.

(** The cell can be a key cell of the kind [k]: it is a boolean, an
    integer that floats represent exactly, a float or a string; it is not
    missing and not a timestamp. *)
Definition key_cell (k : kind) (v : value) : bool :=
  match k, v with
  | KBool, VBool _ => true
  | KInt, VInt z => bool_decide (Z.abs z ≤ 2 ^ 53)%Z
  | KFloat, VFloat _ => true
  | KStr, VStr _ => true
  | _, _ => false
  end.

(** The table has a row, and in every row the cells of the key columns
    are key cells of the kinds [ks], one kind per key column. *)
Definition keys_of_kinds (on : list string) (ks : list kind) (df : DataFrame) : Prop :=
  rows df ≠ [] ∧
  Forall (λ key, Forall2 (λ k v, key_cell k v = true) ks key) (key_values on df).

(** The key columns of the two tables have the same kinds. *)
Definition same_key_kinds (on : list string) (left right : DataFrame) : Prop :=
  ∃ ks, keys_of_kinds on ks left ∧ keys_of_kinds on ks right.

(** The two tables of a join are in the scope of the model of the merge:
    there is a key label, the key labels are all different, and so are
    the labels of each table; both tables have rows, and their key
    columns have the same kinds.  There pandas compares the key cells as
    they are. *)
Definition merge_scope (on : list string) (left right : DataFrame) : Prop :=
  on ≠ [] ∧ NoDup on ∧ NoDup (columns left) ∧ NoDup (columns right) ∧
  same_key_kinds on left right.

(** No cell of the table outside the key columns is an integer: a column
    of such cells keeps its cells when a row without a match adds a
    missing cell to it. *)
Definition nullable_cells (on : list string) (df : DataFrame) : Prop :=
  Forall (λ r, Forall (λ v, ∀ z, v ≠ VInt z) (other_cells on df r)) (rows df).

(** The join leaves the cells of the right table as they are: no column
    of integers gets a missing cell, because the right table has no
    integer outside the key or because every left row has a match. *)
Definition keeps_right_cells (on : list string) (left right : DataFrame) : Prop :=
  nullable_cells on right ∨ Forall (λ l, matches on left right l ≠ []) (rows left).

(** *** The run *)

(** The world after the two raw files were read. *)
Definition loaded (cfg : ETLConfig) (O U : DataFrame) (w : world) : world :=
  {| heap := heap w ++ [O; U];
     files := files w;
     locked := locked w;
     trace := trace w ++ [EvRead (raw_orders cfg); EvRead (raw_users cfg)] |}.

(** The world after a table was written. *)
Definition table_written (p : Path) (d : DataFrame) (W : world) : world :=
  emit (EvWriteTable p) (set_files (<[p := ParquetFile d]> (files W)) W).

(** The file-system calls of a complete run, in order. *)
Definition complete_run (cfg : ETLConfig) : list event :=
  [ EvRead (raw_orders cfg); EvRead (raw_users cfg);
    EvMkdir (parent (out_orders_clean cfg));
    EvWriteTable (out_orders_clean cfg);
    EvWriteTable (out_users cfg);
    EvWriteTable (out_analytics cfg);
    EvMkdir (parent (run_meta cfg));
    EvWriteText (run_meta cfg) ].

(** The event writes no text file. *)
Definition not_text_write (ev : event) : Prop :=
  match ev with EvWriteText _ => False | _ => True end.

(** [s.notna().sum()] *)
Definition notna_sum (s : Series) : nat := length (filter (λ v, isna v = false) s).

(** The fraction [k / n] of a non-empty whole. *)
Definition fraction (k n : nat) : Qc := Q2Qc (Z.of_nat k # Pos.of_nat n).

(** [sys.float_info.epsilon], the distance from 1.0 to the next float. *)
Definition float_epsilon : Qc := Q2Qc (1 # 2 ^ 52).

(** The float [q] is the number [x] up to the rounding of the operations
    that computed it: two operations on numbers between 0 and 1 are off
    by [float_epsilon] at most. *)
Definition close_to (x q : Qc) : Prop :=
  (x - float_epsilon ≤ q)%Qc ∧ (q ≤ x + float_epsilon)%Qc.

(** The columns [transform] requires of the raw orders table. *)
Definition orders_columns : list string :=
  ["order_id"; "user_id"; "amount"; "quantity"; "created_at"; "status"].

(** What the specification says of the table helpers, as far as the run
    statistics rely on it: each returns one row per row it was given and
    keeps the columns it was given; [enforce_schema] keeps those of the
    orders schema. *)
Class TransformsContract (T : Transforms) : Prop := {
  enforce_schema_shape d d' :
    enforce_schema d = Ok d' →
    len d' = len d ∧ ∀ c, c ∈ orders_columns → c ∈ columns d → c ∈ columns d';
  add_missing_flags_shape d cols d' :
    add_missing_flags d cols = Ok d' → len d' = len d ∧ columns d ⊆ columns d';
  parse_datetime_shape d c utc d' :
    parse_datetime d c utc = Ok d' → len d' = len d ∧ columns d ⊆ columns d';
  add_time_parts_shape d c d' :
    add_time_parts d c = Ok d' → len d' = len d ∧ columns d ⊆ columns d';
  add_outlier_flag_shape d c d' :
    add_outlier_flag d c = Ok d' → len d' = len d ∧ columns d ⊆ columns d';
}.

(** The metadata document [doc] describes a run that read the tables [O]
    and [U] and produced the analytics table [AN], which has rows: the
    three row counts, the number of missing timestamps, the share of rows
    with a country, and the paths.  The share is a float: it is the
    fraction up to rounding, for a table of fewer than 2^53 rows, whose
    counts floats hold exactly. *)
Definition describes_run (cfg : ETLConfig) (O U AN : DataFrame) (doc : pydict) : Prop :=
  ∃ ts cs,
    getitem AN "created_at" = Ok ts ∧
    getitem AN "country" = Ok cs ∧
    len AN ≠ 0 ∧
    dict_get "rows_in_orders_raw" doc = Some (PInt (Z.of_nat (len O))) ∧
    dict_get "rows_in_users_raw" doc = Some (PInt (Z.of_nat (len U))) ∧
    dict_get "rows_out_analytics" doc = Some (PInt (Z.of_nat (len AN))) ∧
    dict_get "missing_created_at_after_parse" doc = Some (PInt (Z.of_nat (isna_sum ts))) ∧
    (∃ q, dict_get "country_match_rate" doc = Some (PFloat (Float q)) ∧
          ((Z.of_nat (len AN) < 2 ^ 53)%Z →
           close_to (fraction (notna_sum cs) (len AN)) q)) ∧
    dict_get "inputs" doc
      = Some (PDict [ ("orders_raw", PStr (path_str (raw_orders cfg)));
                      ("users_raw", PStr (path_str (raw_users cfg))) ]) ∧
    dict_get "outputs" doc
      = Some (PDict [ ("orders_clean", PStr (path_str (out_orders_clean cfg)));
                      ("users", PStr (path_str (out_users cfg)));
                      ("analytics_table", PStr (path_str (out_analytics cfg)));
                      ("run_meta", PStr (path_str (run_meta cfg))) ]).

(** *** Tables and files *)

(** Every row of the frame has one cell per column. *)
Definition well_formed (df : DataFrame) : Prop :=
  Forall (λ r, length r = length (columns df)) (rows df).

(** The four paths a run writes to, in the order it writes them. *)
Definition outputs (cfg : ETLConfig) : list Path :=
  [out_orders_clean cfg; out_users cfg; out_analytics cfg; run_meta cfg].

(** The four files of a complete run: the three tables and the metadata
    document made from the statistics. *)
Definition artifacts (cfg : ETLConfig) (OC US AN : DataFrame) (st : pydict)
    : list (Path * file) :=
  [ (out_orders_clean cfg, ParquetFile OC);
    (out_users cfg, ParquetFile US);
    (out_analytics cfg, ParquetFile AN);
    (run_meta cfg, JsonFile (PDict (run_meta_doc cfg st))) ].

(** The files after the given files were written one after the other. *)
Definition write_all (fs : list (Path * file)) (m : gmap Path file) : gmap Path file :=
  foldl (λ m kv, <[kv.1 := kv.2]> m) m fs.

(** The file that the writes [fs] leave at the path [p], if one of them
    is a write to [p]: that of the last such write. *)
Fixpoint last_write (p : Path) (fs : list (Path * file)) : option file :=
  match fs with
  | [] => None
  | kv :: fs' =>
      match last_write p fs' with
      | Some v => Some v
      | None => if decide (kv.1 = p) then Some kv.2 else None
      end
  end.

(** The three sections that [write_run_meta] adds to the statistics. *)
Definition meta_sections : list string := ["inputs"; "outputs"; "config"].

(** ** A model of transforms.py

    Modelled from the spec: [bootcamp_data.transforms] is not among the
    sources.  The theorems below hold for every implementation of its
    helpers; this module gives one, written from sections 4.2 to 4.5 of the
    specification, on which the pipeline can be run.  Where the
    specification leaves a choice open the module fixes one: text is
    ASCII, numbers are decimal numerals, a timestamp is a date
    [YYYY-MM-DD] with an optional time of day, and the winsorization
    bounds are the 1st and 99th percentiles. *)

Module SpecTransforms.

(** *** Text *)

Definition is_space (a : ascii) : bool :=
  let n := nat_of_ascii a in
  (n =? 32) || ((9 <=? n) && (n <=? 13)).

Definition lower_ascii (a : ascii) : ascii :=
  let n := nat_of_ascii a in
  if (65 <=? n) && (n <=? 90) then ascii_of_nat (n + 32) else a.

Fixpoint lstrip (s : string) : string :=
  match s with
  | String a s' => if is_space a then lstrip s' else s
  | EmptyString => EmptyString
  end.

Fixpoint string_map (f : ascii → ascii) (s : string) : string :=
  match s with
  | String a s' => String (f a) (string_map f s')
  | EmptyString => EmptyString
  end.

Definition strip (s : string) : string :=
  String.rev (lstrip (String.rev (lstrip s))).

Definition normalize_cell (v : value) : value :=
  match v with
  | VStr s => VStr (string_map lower_ascii (strip s))
  | _ => v
  end.

(** Modelled from the spec: [normalize_text] lowercases and trims
    whitespace; missing values pass through unchanged. *)
Definition normalize_text (s : Series) : result Series := Ok (map normalize_cell s).

Fixpoint lookup_mapping (k : string) (m : list (string * string)) : option string :=
  match m with
  | [] => None
  | (k', v) :: m' => if decide (k = k') then Some v else lookup_mapping k m'
  end.

(** Modelled from the spec: [apply_mapping] looks up each value that is
    not missing in the mapping; a value with no entry passes through
    unchanged. *)
Definition apply_mapping (s : Series) (m : list (string * string)) : result Series :=
  Ok (map (λ v, match v with
                | VStr k => match lookup_mapping k m with Some c => VStr c | None => v end
                | _ => v
                end) s).

(** *** Numbers *)

Definition digit (a : ascii) : option Z :=
  let n := nat_of_ascii a in
  if (48 <=? n) && (n <=? 57) then Some (Z.of_nat (n - 48)) else None.

Fixpoint read_digits (s : string) (acc : Z) : option Z :=
  match s with
  | EmptyString => Some acc
  | String a s' => d ← digit a; read_digits s' (10 * acc + d)%Z
  end.

(** A string of one or more decimal digits. *)
Definition parse_digits (s : string) : option Z :=
  match s with
  | EmptyString => None
  | _ => read_digits s 0
  end.

Fixpoint split_dot (s : string) : string * option string :=
  match s with
  | EmptyString => (EmptyString, None)
  | String a s' =>
      if decide (a = "."%char) then (EmptyString, Some s')
      else let '(ip, fp) := split_dot s' in (String a ip, fp)
  end.

(** A decimal numeral, with an optional sign and an optional fraction. *)
Definition parse_number (s : string) : value :=
  let '(neg, body) :=
    match strip s with
    | String "-"%char r => (true, r)
    | r => (false, r)
    end in
  let sign (z : Z) := if neg : bool then (- z)%Z else z in
  match split_dot body with
  | (ip, None) =>
      match parse_digits ip with
      | Some n => VInt (sign n)
      | None => VNull
      end
  | (ip, Some fp) =>
      match parse_digits ip, parse_digits fp with
      | Some a, Some b =>
          let den := (10 ^ Z.of_nat (String.length fp))%Z in
          VFloat (Q2Qc (Qmake (sign (a * den + b)%Z) (Z.to_pos den)))
      | _, _ => VNull
      end
  end.

(** Coercion of a cell to a number: what is no number becomes missing. *)
Definition to_numeric (v : value) : value :=
  match v with
  | VInt _ | VFloat _ => v
  | VStr s => parse_number s
  | _ => VNull
  end.

(** *** Tables *)

(** The frame with the column [c] mapped cell by cell. *)
Definition map_column (f : value → value) (c : string) (df : DataFrame) : result DataFrame :=
  s ← getitem df c; Ok (set_column df c (map f s)).

(** The columns [cols] of [df], in that order. *)
Definition select (cols : list string) (df : DataFrame) : result DataFrame :=
  idx ← mapM (λ c, match get_loc c (columns df) with
                   | Some i => Ok i
                   | None => Raise (KeyError c)
                   end) cols;
  Ok {| columns := cols; rows := map (take_cells idx) (rows df) |}.

(** Modelled from the spec: [enforce_schema] produces a new table with a
    fixed, explicit column order, and coerces the numeric columns to
    numbers; invalid values become missing rather than raising. *)
Definition enforce_schema (df : DataFrame) : result DataFrame :=
  df ← select orders_columns df;
  df ← map_column to_numeric "amount" df;
  map_column to_numeric "quantity" df.

(** Modelled from the spec: [add_missing_flags] adds for each named
    column a boolean column [{column}_missing], true where the value is
    missing, and keeps the original values. *)
Fixpoint add_missing_flags (df : DataFrame) (cols : list string) : result DataFrame :=
  match cols with
  | [] => Ok df
  | c :: cols' =>
      s ← getitem df c;
      add_missing_flags (set_column df (c +:+ "_missing") (map (λ v, VBool (isna v)) s)) cols'
  end.

(** *** Timestamps

    A timestamp is a number of seconds since 1970-01-01T00:00:00 UTC. *)

(** The day number of a civil date of the proleptic Gregorian calendar. *)
Definition days_from_civil (y m d : Z) : Z :=
  (let y' := if m <=? 2 then y - 1 else y in
   let era := y' / 400 in
   let yoe := y' - era * 400 in
   let mp := (m + 9) mod 12 in
   let doy := (153 * mp + 2) / 5 + d - 1 in
   let doe := yoe * 365 + yoe / 4 - yoe / 100 + doy in
   era * 146097 + doe - 719468)%Z.

(** The civil date (year, month, day) of a day number. *)
Definition civil_from_days (z : Z) : Z * Z * Z :=
  (let z := z + 719468 in
   let era := z / 146097 in
   let doe := z - era * 146097 in
   let yoe := (doe - doe / 1460 + doe / 36524 - doe / 146096) / 365 in
   let doy := doe - (365 * yoe + yoe / 4 - yoe / 100) in
   let mp := (5 * doy + 2) / 153 in
   let d := doy - (153 * mp + 2) / 5 + 1 in
   let m := if mp <? 10 then mp + 3 else mp - 9 in
   let y := yoe + era * 400 in
   (if m <=? 2 then y + 1 else y, m, d))%Z.

Definition field (s : string) (start len : nat) : option Z :=
  let f := String.substring start len s in
  if decide (String.length f = len) then parse_digits f else None.

Definition char_at (s : string) (i : nat) (a : ascii) : bool :=
  bool_decide (String.get i s = Some a).

(** [YYYY-MM-DD], alone or followed by [T] or a space and [HH:MM:SS]. *)
Definition parse_timestamp (s : string) : option Z :=
  y ← field s 0 4; m ← field s 5 2; d ← field s 8 2;
  guard (char_at s 4 "-" && char_at s 7 "-");;
  guard (bool_decide (civil_from_days (days_from_civil y m d) = (y, m, d)));;
  let day := (days_from_civil y m d * 86400)%Z in
  if decide (String.length s = 10) then Some day
  else
    hh ← field s 11 2; mm ← field s 14 2; ss ← field s 17 2;
    guard ((char_at s 10 "T" || char_at s 10 " ") && char_at s 13 ":" && char_at s 16 ":");;
    guard (bool_decide (String.length s = 19 ∧ (hh < 24)%Z ∧ (mm < 60)%Z ∧ (ss < 60)%Z));;
    Some (day + hh * 3600 + mm * 60 + ss)%Z.

Definition to_timestamp (v : value) : value :=
  match v with
  | VTime t => VTime t
  | VStr s => match parse_timestamp (strip s) with Some t => VTime t | None => VNull end
  | _ => VNull
  end.

(** Modelled from the spec: [parse_datetime] parses a column of strings or
    timestamps into timestamps; unparseable values become missing, and
    the operation never fails on a value. *)
Definition parse_datetime (df : DataFrame) (col : string) (utc : bool) : result DataFrame :=
  map_column to_timestamp col df.

Definition time_part (f : Z → Z) (v : value) : value :=
  match v with VTime t => VInt (f t) | _ => VNull end.

Definition year_of (t : Z) : Z := (civil_from_days (t / 86400)).1.1.
Definition month_of (t : Z) : Z := (civil_from_days (t / 86400)).1.2.
Definition day_of (t : Z) : Z := (civil_from_days (t / 86400)).2.
Definition hour_of (t : Z) : Z := ((t mod 86400) / 3600)%Z.
(** Monday is 0; day 0 was a Thursday. *)
Definition dayofweek_of (t : Z) : Z := ((t / 86400 + 3) mod 7)%Z.

Definition time_parts : list (string * (Z → Z)) :=
  [("year", year_of); ("month", month_of); ("day", day_of); ("hour", hour_of);
   ("dayofweek", dayofweek_of)].

(** Modelled from the spec: [add_time_parts] derives the calendar
    components year, month, day, hour and day of week as new columns;
    each is missing wherever the timestamp is missing. *)
Definition add_time_parts (df : DataFrame) (ts_col : string) : result DataFrame :=
  s ← getitem df ts_col;
  Ok (foldl (λ d p, set_column d p.1 (map (time_part p.2) s)) df time_parts).

(** *** Outliers *)

Definition number_of (v : value) : option Qc :=
  match v with
  | VInt z => Some (Q2Qc (inject_Z z))
  | VFloat q => Some q
  | _ => None
  end.

(** The quantile [p] of a sorted, non-empty list, with linear
    interpolation between the two nearest ranks. *)
Definition quantile (p : Qc) (sorted : list Qc) : Qc :=
  (let pos := p * Q2Qc (inject_Z (Z.of_nat (length sorted - 1))) in
   let lo := Z.to_nat (Qfloor pos) in
   let frac := pos - Q2Qc (inject_Z (Qfloor pos)) in
   let x_lo := default 0 (sorted !! lo) in
   let x_hi := default x_lo (sorted !! S lo) in
   x_lo + frac * (x_hi - x_lo))%Qc.

Definition lower_pct : Qc := Q2Qc (1 # 100).
Definition upper_pct : Qc := Q2Qc (99 # 100).

(** The winsorization bounds of a column, computed over its values that
    are not missing; a column with no value has none. *)
Definition bounds (s : Series) : option (Qc * Qc) :=
  match merge_sort Qcle (omap number_of s) with
  | [] => None
  | sorted => Some (quantile lower_pct sorted, quantile upper_pct sorted)
  end.

Definition clip (lo hi : Qc) (v : value) : value :=
  match number_of v with
  | Some q => VFloat (if decide (q < lo)%Qc then lo else if decide (hi < q)%Qc then hi else q)
  | None => v
  end.

(** Modelled from the spec: [winsorize] clips the values below the lower
    percentile and above the upper percentile to those bounds; missing
    values pass through. *)
Definition winsorize (s : Series) : result Series :=
  match bounds s with
  | Some (lo, hi) => Ok (map (clip lo hi) s)
  | None => Ok s
  end.

Definition is_outlier (b : option (Qc * Qc)) (v : value) : bool :=
  match b, number_of v with
  | Some (lo, hi), Some q => bool_decide (q < lo)%Qc || bool_decide (hi < q)%Qc
  | _, _ => false
  end.

(** Modelled from the spec: [add_outlier_flag] marks in the boolean
    column [{column}_outlier] the rows whose value falls outside the
    winsorization bounds, which are those of [winsorize]. *)
Definition add_outlier_flag (df : DataFrame) (col : string) : result DataFrame :=
  s ← getitem df col;
  Ok (set_column df (col +:+ "_outlier") (map (λ v, VBool (is_outlier (bounds s) v)) s)).

End SpecTransforms.

(** The helpers of the model, as an implementation of [Transforms]. *)
Definition spec_transforms : Transforms := {|
  enforce_schema := SpecTransforms.enforce_schema;
  normalize_text := SpecTransforms.normalize_text;
  apply_mapping := SpecTransforms.apply_mapping;
  add_missing_flags := SpecTransforms.add_missing_flags;
  parse_datetime := SpecTransforms.parse_datetime;
  add_time_parts := SpecTransforms.add_time_parts;
  winsorize := SpecTransforms.winsorize;
  add_outlier_flag := SpecTransforms.add_outlier_flag;
|}.

(** ** Example tables and runs *)

Definition ex_orders : DataFrame :=
  {| columns := ["order_id"; "user_id"; "amount"];
     rows := [ [VInt 1; VStr "a"; VInt 10];
               [VInt 2; VStr "b"; VInt 20];
               [VInt 3; VStr "a"; VInt 30] ] |}.

Definition ex_users : DataFrame :=
  {| columns := ["user_id"; "country"];
     rows := [ [VStr "a"; VStr "us"]; [VStr "c"; VStr "sa"] ] |}.

(** A users table in which the key [a] occurs twice. *)
Definition ex_users_dup : DataFrame :=
  {| columns := ["user_id"; "country"];
     rows := [ [VStr "a"; VStr "us"]; [VStr "a"; VStr "sa"] ] |}.

(** Orders whose users are numbered. *)
Definition ex_orders_int_key : DataFrame :=
  {| columns := ["order_id"; "user_id"];
     rows := [ [VInt 1; VInt 1]; [VInt 2; VInt 2] ] |}.

(** A users table whose key is a column of floats. *)
Definition ex_users_float_key : DataFrame :=
  {| columns := ["user_id"; "country"];
     rows := [ [VFloat 1; VStr "us"] ] |}.

(** A users table with a column of integers outside the key. *)
Definition ex_users_age : DataFrame :=
  {| columns := ["user_id"; "age"];
     rows := [ [VStr "a"; VInt 30]; [VStr "c"; VInt 40] ] |}.

(** One order, whose user occurs twice on the right. *)
Definition ex_one_order : DataFrame :=
  {| columns := ["order_id"; "user_id"];
     rows := [ [VInt 1; VStr "a"] ] |}.

Definition raw_orders_table : DataFrame :=
  {| columns := ["order_id"; "user_id"; "amount"; "quantity"; "created_at"; "status"];
     rows := [ [VInt 1; VStr "a"; VInt 10; VInt 1; VStr "2024-01-01"; VStr "Paid"];
               [VInt 2; VStr "b"; VStr "x"; VInt 2; VStr "soon"; VStr " REFUNDED "] ] |}.

Definition raw_users_table : DataFrame :=
  {| columns := ["user_id"; "country"; "signup_date"];
     rows := [ [VStr "a"; VStr "US"; VStr "2023-01-01"] ] |}.

(** A raw users table with a duplicate [user_id]. *)
Definition raw_users_dup : DataFrame :=
  {| columns := ["user_id"; "country"; "signup_date"];
     rows := [ [VStr "a"; VStr "US"; VStr "2023-01-01"];
               [VStr "a"; VStr "SA"; VStr "2023-02-01"] ] |}.

(** A raw orders table with the required columns and no row. *)
Definition raw_orders_empty : DataFrame :=
  {| columns := ["order_id"; "user_id"; "amount"; "quantity"; "created_at"; "status"];
     rows := [] |}.

Definition ex_cfg : ETLConfig :=
  let p := make_paths ["project"] in
  {| root := paths_root p;
     raw_orders := joinpath (paths_raw p) "orders.csv";
     raw_users := joinpath (paths_raw p) "users.csv";
     out_orders_clean := joinpath (paths_processed p) "orders_clean.parquet";
     out_users := joinpath (paths_processed p) "users.parquet";
     out_analytics := joinpath (paths_processed p) "analytics_table.parquet";
     run_meta := joinpath (paths_processed p) "_run_meta.json" |}.

(** A world with the two raw files and no object yet. *)
Definition ex_world (orders users : DataFrame) : world :=
  {| heap := [];
     files := {[ raw_orders ex_cfg := CsvFile orders; raw_users ex_cfg := CsvFile users ]};
     locked := ∅;
     trace := [] |}.

(** A world that holds the two tables as objects. *)
Definition ex_objects (orders users : DataFrame) : world :=
  {| heap := [orders; users]; files := ∅; locked := ∅; trace := [] |}.

(** The users of [ex_users], in the other order. *)
Definition ex_users_reversed : DataFrame :=
  {| columns := ["user_id"; "country"];
     rows := [ [VStr "c"; VStr "sa"]; [VStr "a"; VStr "us"] ] |}.

(** An order that has a country of its own, the one it ships to. *)
Definition ex_orders_shipping : DataFrame :=
  {| columns := ["order_id"; "user_id"; "country"];
     rows := [ [VInt 1; VStr "a"; VStr "de"] ] |}.

(** An orders table that lost its key column. *)
Definition ex_orders_no_key : DataFrame :=
  {| columns := ["order_id"]; rows := [ [VInt 1] ] |}.

(** [raw_users_table] once cleaned: the country in lower case. *)
Definition clean_users_table : DataFrame :=
  {| columns := ["user_id"; "country"; "signup_date"];
     rows := [ [VStr "a"; VStr "us"; VStr "2023-01-01"] ] |}.

(** The world of [ex_world], where the path [p] refuses a write. *)
Definition ex_world_locked (orders users : DataFrame) (p : Path) : world :=
  {| heap := [];
     files := {[ raw_orders ex_cfg := CsvFile orders; raw_users ex_cfg := CsvFile users ]};
     locked := {[ p ]};
     trace := [] |}.


(** * Properties *)

(** ** The join *)

Lemma get_loc_is_Some c cols : c ∈ cols → is_Some (get_loc c cols).
Proof.
  induction cols as [|c' cs IH]; intros Hin; [by apply elem_of_nil in Hin|].
  simpl. destruct (decide (c = c')) as [->|Hne]; [by eexists|].
  apply elem_of_cons in Hin as [?|Hin]; [done|].
  destruct (IH Hin) as [i ->]. by eexists.
Qed.

Lemma get_loc_None c cols : c ∉ cols → get_loc c cols = None.
Proof.
  induction cols as [|c' cs IH]; intros Hin; [done|].
  simpl. rewrite not_elem_of_cons in Hin. destruct Hin as [? ?].
  rewrite decide_False by done. by rewrite IH.
Qed.

Lemma get_merge_keys_has_keys on lcols rcols :
  Forall (λ k, k ∈ lcols) on → Forall (λ k, k ∈ rcols) on →
  get_merge_keys on lcols rcols = Ok (key_locs on lcols, key_locs on rcols).
Proof.
  induction on as [|k on IH]; intros HL HR; [done|].
  apply Forall_cons in HL as [Hl HL']. apply Forall_cons in HR as [Hr HR'].
  simpl. destruct (get_loc_is_Some _ _ Hl) as [i Hi].
  destruct (get_loc_is_Some _ _ Hr) as [j Hj].
  unfold key_locs. simpl. rewrite Hi, Hj. simpl.
  rewrite (IH HL' HR'). done.
Qed.

Lemma get_merge_keys_Ok_inv on lcols rcols li ri :
  get_merge_keys on lcols rcols = Ok (li, ri) →
  Forall (λ k, k ∈ lcols) on ∧ Forall (λ k, k ∈ rcols) on.
Proof.
  revert li ri. induction on as [|k on IH]; intros li ri H; [by split|].
  simpl in H.
  destruct (get_loc k rcols) as [j|] eqn:Hj; [|done].
  destruct (get_loc k lcols) as [i|] eqn:Hi; [|done].
  destruct (get_merge_keys on lcols rcols) as [[li' ri']|] eqn:Hrec; [|done].
  destruct (IH _ _ eq_refl) as [HL HR].
  split; constructor; try done.
  - destruct (decide (k ∈ lcols)); [done|]. by rewrite get_loc_None in Hi.
  - destruct (decide (k ∈ rcols)); [done|]. by rewrite get_loc_None in Hj.
Qed.

Lemma positions_not_in_length on i cols :
  length (positions_not_in on i cols) = length (drop_labels on cols).
Proof.
  revert i. induction cols as [|c cs IH]; intros i; [done|].
  simpl. unfold drop_labels. rewrite filter_cons.
  destruct (decide (c ∈ on)).
  - rewrite decide_False by tauto. apply IH.
  - rewrite decide_True by done. simpl. f_equal. apply IH.
Qed.

(** A key that occurs once among the keys matches at most one row. *)
Lemma NoDup_matching_rows ridx k (R : list row) :
  NoDup (map (take_cells ridx) R) → length (matching_rows ridx k R) ≤ 1.
Proof.
  unfold matching_rows. induction R as [|r R IH]; intros Hnd; [simpl; lia|].
  simpl in Hnd. apply NoDup_cons in Hnd as [Hr Hnd].
  rewrite filter_cons. destruct (decide (take_cells ridx r = k)) as [Heq|Hne]; [|by apply IH].
  simpl. destruct (filter _ R) as [|r' ms] eqn:Hf; [simpl; lia|].
  exfalso. apply Hr. 
  assert (r' ∈ filter (λ r0, take_cells ridx r0 = k) R) as Hin by (rewrite Hf; left).
  apply list_elem_of_filter in Hin as [Hk Hin].
  rewrite Heq, <- Hk. apply list_elem_of_fmap. eauto.
Qed.

Lemma join_row_matches on (L R : DataFrame) l :
  join_row (key_locs on (columns L)) (key_locs on (columns R))
           (positions_not_in on 0 (columns R)) (rows R) l =
  match matches on L R l with
  | [] => [l ++ null_cells on R]
  | ms => map (λ r, l ++ other_cells on R r) ms
  end.
Proof.
  unfold join_row, matches, matching_rows, null_cells, row_key, other_cells.
  by rewrite positions_not_in_length.
Qed.

Lemma join_row_block on (L R : DataFrame) l :
  left_outer_join_block on L R l
    (join_row (key_locs on (columns L)) (key_locs on (columns R))
              (positions_not_in on 0 (columns R)) (rows R) l).
Proof.
  rewrite join_row_matches. unfold left_outer_join_block.
  destruct (matches on L R l) as [|r ms].
  - repeat split; [| |done].
    + constructor; [|done]. by rewrite take_app_length.
    + intros _. constructor; [|done]. by rewrite drop_app_length.
  - repeat split; [| |done|].
    + rewrite length_map. simpl. lia.
    + apply Forall_forall. intros o Ho. apply (list_elem_of_fmap_1) in Ho as [r' [-> _]].
      by rewrite take_app_length.
    + intros _. rewrite <- list_fmap_compose. apply list_fmap_ext. intros i r' _. simpl.
      by rewrite drop_app_length.
Qed.

(** The merge succeeds exactly through its three checks. *)
Lemma merge_Ok (L R : DataFrame) on v sfx ll rl :
  has_keys on L → has_keys on R →
  validate_validate_kwd v on (key_values on L) (key_values on R) = Ok () →
  items_overlap_with_suffix (columns L) (drop_labels on (columns R)) sfx = Ok (ll, rl) →
  merge L R on v sfx =
    Ok {| columns := ll ++ rl;
          rows := left_join_rows (key_locs on (columns L)) (key_locs on (columns R))
                    (positions_not_in on 0 (columns R)) (rows L) (rows R) |}.
Proof.
  intros HL HR Hval Hlab. unfold merge.
  rewrite (get_merge_keys_has_keys _ _ _ HL HR). simpl.
  unfold key_values, row_key in Hval. rewrite Hval. simpl.
  rewrite Hlab. done.
Qed.

Lemma left_join_rows_blocks on (L R : DataFrame) (ls : list row) :
  Forall2 (left_outer_join_block on L R) ls
    (map (join_row (key_locs on (columns L)) (key_locs on (columns R))
            (positions_not_in on 0 (columns R)) (rows R)) ls).
Proof.
  induction ls as [|l ls IH]; simpl; constructor; [apply join_row_block|done].
Qed.

Lemma left_join_rows_augmented on (L R : DataFrame) (ls : list row) :
  NoDup (key_values on R) →
  Forall2 (augmented on L R) ls
    (left_join_rows (key_locs on (columns L)) (key_locs on (columns R))
       (positions_not_in on 0 (columns R)) ls (rows R)).
Proof.
  intros Hnd. unfold left_join_rows.
  induction ls as [|l ls IH]; simpl; [constructor|].
  rewrite join_row_matches.
  pose proof (NoDup_matching_rows (key_locs on (columns R)) (row_key on L l) (rows R) Hnd) as Hle.
  change (matching_rows _ _ _) with (matches on L R l) in Hle.
  destruct (matches on L R l) as [|r [|r' ms]] eqn:Hm; simpl in *; [| |lia].
  - constructor; [|done]. right. by rewrite Hm.
  - constructor; [|done]. left. exists r. by rewrite Hm.
Qed.

(** When every left row has at most one match the join keeps the row count. *)
Lemma left_join_rows_length_le1 on (L R : DataFrame) (ls : list row) :
  Forall (λ l, length (matches on L R l) ≤ 1) ls →
  length (left_join_rows (key_locs on (columns L)) (key_locs on (columns R))
       (positions_not_in on 0 (columns R)) ls (rows R)) = length ls.
Proof.
  unfold left_join_rows. induction ls as [|l ls IH]; intros H; [done|].
  apply Forall_cons in H as [Hl H]. simpl. rewrite length_app, (IH H).
  rewrite join_row_matches. destruct (matches on L R l) as [|r [|r' ms]]; simpl in *; lia.
Qed.


Lemma merge_Ok_inv (L R : DataFrame) on v sfx out :
  merge L R on v sfx = Ok out →
  has_keys on L ∧ has_keys on R ∧
  validate_validate_kwd v on (key_values on L) (key_values on R) = Ok () ∧
  ∃ ll rl,
    items_overlap_with_suffix (columns L) (drop_labels on (columns R)) sfx = Ok (ll, rl) ∧
    out = {| columns := ll ++ rl;
             rows := left_join_rows (key_locs on (columns L)) (key_locs on (columns R))
                       (positions_not_in on 0 (columns R)) (rows L) (rows R) |}.
Proof.
  unfold merge. intros H.
  destruct (get_merge_keys on (columns L) (columns R)) as [[li ri]|] eqn:Hk; [|done].
  destruct (get_merge_keys_Ok_inv _ _ _ _ _ Hk) as [HL HR].
  rewrite (get_merge_keys_has_keys _ _ _ HL HR) in Hk. injection Hk as <- <-.
  simpl in H.
  destruct (validate_validate_kwd _ _ _ _) as [[]|] eqn:Hval; [|done]. simpl in H.
  destruct (items_overlap_with_suffix _ _ _) as [[ll rl]|] eqn:Hlab; [|done]. simpl in H.
  injection H as <-. eauto 10.
Qed.

(** The merge never fails an assertion: that is [safe_left_join]'s own. *)
Lemma merge_not_AssertionError (L R : DataFrame) on v sfx b a :
  merge L R on v sfx ≠ Raise (AssertionError b a).
Proof.
  assert (get_merge_keys on (columns L) (columns R) ≠ Raise (AssertionError b a)) as Hk.
  { generalize (columns L) (columns R). intros lc rc. induction on as [|k on IH]; [done|].
    simpl. destruct (get_loc k rc); [|done]. destruct (get_loc k lc); [|done].
    destruct (get_merge_keys on lc rc) as [[? ?]|]; [done|]. exact IH. }
  assert (∀ lk rk, validate_validate_kwd v on lk rk ≠ Raise (AssertionError b a)) as Hv.
  { intros lk rk. unfold validate_validate_kwd.
    destruct (decide (on = [])); [done|].
    destruct v, (is_unique lk), (is_unique rk); done. }
  assert (∀ l r, items_overlap_with_suffix l r sfx ≠ Raise (AssertionError b a)) as Hl.
  { intros l r. unfold items_overlap_with_suffix.
    destruct (decide (filter (λ x, x ∈ r) l = [])); [done|].
    destruct sfx as [ls rs]. destruct (decide (ls = "" ∧ rs = "")); [done|].
    by destruct (_ ++ _). }
  unfold merge. intros H.
  destruct (get_merge_keys on (columns L) (columns R)) as [[li ri]|]; [|simpl in H; injection H as ->; done].
  simpl in H.
  destruct (validate_validate_kwd _ _ _ _) as [[]|] eqn:Hval;
    [|simpl in H; injection H as ->; exact (Hv _ _ Hval)].
  simpl in H.
  destruct (items_overlap_with_suffix _ _ _) as [[ll rl]|] eqn:Hlab;
    [done|simpl in H; injection H as ->; exact (Hl _ _ Hlab)].
Qed.

(** A validated many-to-one or one-to-one merge has unique right keys. *)
Lemma validate_right_unique v on lkeys rkeys :
  v = many_to_one ∨ v = one_to_one →
  validate_validate_kwd v on lkeys rkeys = Ok () → NoDup rkeys.
Proof.
  unfold validate_validate_kwd, is_unique. intros Hv H.
  destruct (decide (on = [])); [done|].
  destruct (decide (NoDup rkeys)) as [|Hn]; [done|]. exfalso.
  rewrite (bool_decide_eq_false_2 _ Hn) in H.
  destruct Hv as [-> | ->]; simpl in H; [done|].
  destruct (bool_decide (NoDup lkeys)); done.
Qed.

Lemma validate_right_duplicate v on lkeys rkeys :
  on ≠ [] → v = many_to_one ∨ v = one_to_one → ¬ NoDup rkeys →
  ∃ side, validate_validate_kwd v on lkeys rkeys = Raise (CardinalityViolation side).
Proof.
  unfold validate_validate_kwd, is_unique, CardinalityViolation. intros Hon Hv Hn.
  rewrite decide_False by done.
  rewrite (bool_decide_eq_false_2 _ Hn).
  destruct Hv as [-> | ->]; simpl; [by eexists|].
  destruct (bool_decide (NoDup lkeys)); simpl; by eexists.
Qed.

(** Whatever the tables, the key and the contract: a table that
    [safe_left_join] returns is the left outer join of its arguments. *)
Lemma safe_left_join_Ok_left_outer (L R : DataFrame) on v sfx chk out :
  safe_left_join L R on v sfx chk = Ok out →
  ∃ blocks, rows out = concat blocks ∧
            Forall2 (left_outer_join_block on L R) (rows L) blocks.
Proof.
  unfold safe_left_join. intros H.
  destruct (merge L R on v sfx) as [out'|e] eqn:Hm; [|done]. simpl in H.
  assert (out' = out) as ->.
  { destruct chk; [|congruence]. destruct (decide (len L = len out')); congruence. }
  apply merge_Ok_inv in Hm as (_ & _ & _ & ll & rl & _ & ->). simpl.
  eexists. split; [reflexivity|]. apply left_join_rows_blocks.
Qed.

(** Whatever the tables and the key: a table that [safe_left_join] returns
    under the many-to-one contract has the row count of the left table,
    also when the row counts are not compared. *)
Lemma safe_left_join_many_to_one_len (L R : DataFrame) on sfx chk out :
  safe_left_join L R on many_to_one sfx chk = Ok out → len out = len L.
Proof.
  unfold safe_left_join. intros H.
  destruct (merge L R on many_to_one sfx) as [out'|e] eqn:Hm; [|done]. simpl in H.
  assert (out' = out) as ->.
  { destruct chk; [|congruence]. destruct (decide (len L = len out')); congruence. }
  apply merge_Ok_inv in Hm as (_ & _ & Hval & ll & rl & _ & ->).
  apply validate_right_unique in Hval; [|by left].
  pose proof (left_join_rows_augmented on L R (rows L) Hval) as Haug.
  unfold len. simpl. symmetry. by apply Forall2_length in Haug.
Qed.

(** C1: for every left table L and every right table R whose join key is
    unique, [safe_left_join] called with cardinality many-to-one returns a
    table with exactly [len L] rows, in which every row of L appears
    exactly once, in order, followed by the cells of its matching row of R
    or by missing cells when R has no match; the row count of the left
    table is never changed.  The key columns are columns of both tables,
    the labels of the result are those the suffixes give, and the tables
    are in the scope of the model of the merge: tables with rows, labels
    that are all different, key columns of the same kinds on both sides,
    and cells of the right table that a row without a match leaves as
    they are. *)
Theorem safe_left_join_many_to_one_keeps_rows (L R : DataFrame) on sfx chk ll rl :
  has_keys on L → has_keys on R →
  merge_scope on L R → keeps_right_cells on L R →
  NoDup (key_values on R) →
  items_overlap_with_suffix (columns L) (drop_labels on (columns R)) sfx = Ok (ll, rl) →
  ∃ out, safe_left_join L R on many_to_one sfx chk = Ok out ∧
         len out = len L ∧ columns out = ll ++ rl ∧
         Forall2 (augmented on L R) (rows L) (rows out).
Proof.
  intros HL HR [Hon _] _ Hnd Hlab.
  assert (validate_validate_kwd many_to_one on (key_values on L) (key_values on R) = Ok ()) as Hval.
  { unfold validate_validate_kwd. rewrite decide_False by done.
    unfold is_unique. by rewrite (bool_decide_eq_true_2 _ Hnd). }
  pose proof (left_join_rows_augmented on L R (rows L) Hnd) as Haug.
  eexists. unfold safe_left_join. rewrite (merge_Ok _ _ _ _ _ _ _ HL HR Hval Hlab). simpl.
  assert (len L = length (left_join_rows (key_locs on (columns L)) (key_locs on (columns R))
       (positions_not_in on 0 (columns R)) (rows L) (rows R))) as Hlen.
  { unfold len. by apply Forall2_length in Haug. }
  split; [|split; [|split]].
  - unfold len at 2. simpl. rewrite decide_True by done. by destruct chk.
  - done.
  - done.
  - done.
Qed.

(** Closes the goals that say that two example tables with one key column
    of the kind [k] are in the scope of the model of the merge, or that
    the join leaves the cells of the right table as they are. *)
Ltac in_scope k :=
  lazymatch goal with
  | |- merge_scope _ _ _ =>
      split; [discriminate|];
      split; [apply (bool_decide_unpack _); vm_compute; exact I|];
      split; [apply (bool_decide_unpack _); vm_compute; exact I|];
      split; [apply (bool_decide_unpack _); vm_compute; exact I|];
      exists [k]; split; (split; [discriminate|repeat constructor])
  | |- same_key_kinds _ _ _ =>
      exists [k]; split; (split; [discriminate|repeat constructor])
  | |- keeps_right_cells _ _ _ => left; repeat constructor; discriminate
  | |- nullable_cells _ _ => repeat constructor; discriminate
  end.

Lemma safe_left_join_many_to_one_keeps_rows_witness :
  ∃ out, safe_left_join ex_orders ex_users ["user_id"] many_to_one default_suffixes true = Ok out ∧
         len out = len ex_orders ∧
         columns out = ["order_id"; "user_id"; "amount"] ++ ["country"] ∧
         Forall2 (augmented ["user_id"] ex_orders ex_users) (rows ex_orders) (rows out).
Proof.
  apply (safe_left_join_many_to_one_keeps_rows
           ex_orders ex_users ["user_id"] default_suffixes true).
  - repeat constructor.
  - repeat constructor.
  - in_scope KStr.
  - in_scope KStr.
  - apply (bool_decide_unpack _). vm_compute. exact I.
  - vm_compute. reflexivity.
Defined.

(** C3: [safe_left_join] performs a left outer join.  When the key columns
    exist, the declared cardinality holds and the labels are resolved, it
    returns a table made of one block of rows per left row, in order: the
    block of a left row has one row per matching right row, each the left
    row followed by the other cells of that right row, and a left row
    with no match gives exactly one row whose right-side cells are
    missing.  With [check_row_count] set this needs every left row to
    have at most one match.  The tables are in the scope of the model of
    the merge: tables with rows, labels that are all different, key
    columns of the same kinds on both sides, and cells of the right table
    that a row without a match leaves as they are. *)
Theorem safe_left_join_left_outer (L R : DataFrame) on v sfx chk ll rl :
  has_keys on L → has_keys on R →
  merge_scope on L R → keeps_right_cells on L R →
  validate_validate_kwd v on (key_values on L) (key_values on R) = Ok () →
  items_overlap_with_suffix (columns L) (drop_labels on (columns R)) sfx = Ok (ll, rl) →
  (chk = true → Forall (λ l, length (matches on L R l) ≤ 1) (rows L)) →
  ∃ out blocks,
    safe_left_join L R on v sfx chk = Ok out ∧
    columns out = ll ++ rl ∧
    rows out = concat blocks ∧
    Forall2 (left_outer_join_block on L R) (rows L) blocks.
Proof.
  intros HL HR _ _ Hval Hlab Hchk.
  exists {| columns := ll ++ rl;
            rows := left_join_rows (key_locs on (columns L)) (key_locs on (columns R))
                      (positions_not_in on 0 (columns R)) (rows L) (rows R) |},
         (map (join_row (key_locs on (columns L)) (key_locs on (columns R))
            (positions_not_in on 0 (columns R)) (rows R)) (rows L)).
  unfold safe_left_join.
  rewrite (merge_Ok _ _ _ _ _ _ _ HL HR Hval Hlab). simpl.
  split; [|split; [done|split; [reflexivity|apply left_join_rows_blocks]]].
  destruct chk; [|reflexivity].
  rewrite decide_True; [done|]. unfold len; simpl.
  symmetry. apply left_join_rows_length_le1; auto.
Qed.

Lemma safe_left_join_left_outer_witness :
  ∃ out blocks,
    safe_left_join ex_orders ex_users_dup ["user_id"] many_to_many default_suffixes false = Ok out ∧
    columns out = ["order_id"; "user_id"; "amount"] ++ ["country"] ∧
    rows out = concat blocks ∧
    Forall2 (left_outer_join_block ["user_id"] ex_orders ex_users_dup) (rows ex_orders) blocks.
Proof.
  apply (safe_left_join_left_outer
           ex_orders ex_users_dup ["user_id"] many_to_many default_suffixes false).
  - repeat constructor.
  - repeat constructor.
  - in_scope KStr.
  - in_scope KStr.
  - vm_compute. reflexivity.
  - vm_compute. reflexivity.
  - discriminate.
Defined.

(** C4: for every right table with a duplicate value in the join key,
    [safe_left_join] under a many-to-one or one-to-one contract fails with
    [CardinalityViolation].  The failure is that of the validation of the
    keys inside the merge, on the right table itself: the merge raises it,
    so the row counts are never compared, whatever [check_row_count].
    The tables have the key columns and are in the scope of the model of
    the merge: tables with rows, labels that are all different and key
    columns of the same kinds on both sides, so that the merge gets to
    the validation. *)
Theorem duplicate_right_key_violates_cardinality (L R : DataFrame) on v sfx :
  has_keys on L → has_keys on R →
  merge_scope on L R →
  ¬ NoDup (key_values on R) →
  v = many_to_one ∨ v = one_to_one →
  ∃ side,
    validate_validate_kwd v on (key_values on L) (key_values on R)
      = Raise (CardinalityViolation side) ∧
    merge L R on v sfx = Raise (CardinalityViolation side) ∧
    ∀ chk, safe_left_join L R on v sfx chk = Raise (CardinalityViolation side).
Proof.
  intros HL HR [Hon _] Hdup Hv.
  destruct (validate_right_duplicate v on (key_values on L) (key_values on R) Hon Hv Hdup)
    as [side Hval].
  exists side. split; [done|].
  assert (merge L R on v sfx = Raise (CardinalityViolation side)) as Hm.
  { unfold merge. rewrite (get_merge_keys_has_keys _ _ _ HL HR). simpl.
    unfold key_values, row_key in Hval. by rewrite Hval. }
  split; [done|]. intros chk. unfold safe_left_join. by rewrite Hm.
Qed.

Lemma duplicate_right_key_violates_cardinality_witness :
  ∃ side,
    validate_validate_kwd many_to_one ["user_id"]
        (key_values ["user_id"] ex_orders) (key_values ["user_id"] ex_users_dup)
      = Raise (CardinalityViolation side) ∧
    merge ex_orders ex_users_dup ["user_id"] many_to_one default_suffixes
      = Raise (CardinalityViolation side) ∧
    ∀ chk, safe_left_join ex_orders ex_users_dup ["user_id"] many_to_one default_suffixes chk
             = Raise (CardinalityViolation side).
Proof.
  apply (duplicate_right_key_violates_cardinality
           ex_orders ex_users_dup ["user_id"] many_to_one default_suffixes).
  - repeat constructor.
  - repeat constructor.
  - in_scope KStr.
  - apply (bool_decide_unpack _). vm_compute. exact I.
  - left. reflexivity.
Defined.

(** *** What the scope of the model of the merge leaves out

    Keys of different kinds on the two sides, where pandas refuses the
    merge or casts the keys; a column of integers of the right table when
    a left row has no match, which pandas turns into floats; a table with
    a label twice, which pandas refuses when it is a key. *)

Lemma keys_of_kinds_first on ks df r rs :
  rows df = r :: rs → keys_of_kinds on ks df →
  Forall2 (λ k v, key_cell k v = true) ks (row_key on df r).
Proof.
  intros Hrows [_ Hall]. unfold key_values in Hall. rewrite Hrows in Hall.
  by apply Forall_cons in Hall as [H _].
Qed.

Lemma key_kinds_differ on left right l ls r rs k v k' v' :
  rows left = l :: ls → rows right = r :: rs →
  row_key on left l = [v] → row_key on right r = [v'] →
  key_cell k v = true → key_cell k' v' = true → k ≠ k' →
  ¬ same_key_kinds on left right.
Proof.
  intros Hl Hr Hkl Hkr Hk Hk' Hne (ks & HL & HR).
  eapply keys_of_kinds_first in HL; [|exact Hl].
  eapply keys_of_kinds_first in HR; [|exact Hr].
  rewrite Hkl in HL. rewrite Hkr in HR.
  inversion HL as [|k0 ? ks' ? H0 Hnil]; subst. inversion Hnil; subst.
  inversion HR as [|? ? ? ? H1 _]; subst.
  destruct k0, k, v; try discriminate; destruct k', v'; try discriminate; done.
Qed.

Example int_and_string_keys_out_of_scope :
  ¬ same_key_kinds ["user_id"] ex_orders_int_key ex_users.
Proof.
  by eapply (key_kinds_differ _ _ _ _ _ _ _ KInt (VInt 1) KStr (VStr "a")).
Qed.

Example int_and_float_keys_out_of_scope :
  ¬ same_key_kinds ["user_id"] ex_orders_int_key ex_users_float_key.
Proof.
  by eapply (key_kinds_differ _ _ _ _ _ _ _ KInt (VInt 1) KFloat (VFloat 1)).
Qed.

Example unmatched_row_and_integers_out_of_scope :
  ¬ keeps_right_cells ["user_id"] ex_orders ex_users_age.
Proof.
  intros [Hn|Hm].
  - apply Forall_cons in Hn as [Hn _].
    change (other_cells _ _ _) with [VInt 30] in Hn.
    apply Forall_cons in Hn as [Hn _]. by apply (Hn 30%Z).
  - apply Forall_cons in Hm as [_ Hm]. apply Forall_cons in Hm as [Hm _].
    by apply Hm.
Qed.

Example duplicate_label_out_of_scope (R : DataFrame) :
  ¬ merge_scope ["user_id"]
      {| columns := ["order_id"; "user_id"; "user_id"]; rows := [] |} R.
Proof.
  intros (_ & _ & Hnd & _). cbn [columns] in Hnd.
  apply NoDup_cons in Hnd as [_ Hnd]. apply NoDup_cons in Hnd as [Hin _].
  apply Hin. left.
Qed.

(** C5, as the claim states it, fails: under the one-to-many contract,
    with [check_row_count] set, one order whose user occurs twice on the
    right makes [safe_left_join] fail with [JoinExplosionError]; the row
    counts are compared under a cardinality that is neither many-to-one
    nor one-to-one. *)
Lemma join_explosion_under_one_to_many :
  safe_left_join ex_one_order ex_users_dup ["user_id"] one_to_many default_suffixes true
    = Raise (JoinExplosionError 1 2) ∧
  ¬ (∀ L R on v sfx chk before after,
       safe_left_join L R on v sfx chk = Raise (JoinExplosionError before after) →
       v = many_to_one ∨ v = one_to_one).
Proof.
  assert (safe_left_join ex_one_order ex_users_dup ["user_id"] one_to_many default_suffixes true
            = Raise (JoinExplosionError 1 2)) as H by (vm_compute; reflexivity).
  split; [exact H|]. intros Hclaim. by destruct (Hclaim _ _ _ _ _ _ _ _ H).
Qed.

(** C5, amended: [safe_left_join] fails with [JoinExplosionError] exactly
    when [check_row_count] is true and the row count of the table that
    the merge returned differs from the left table's, whatever the
    declared cardinality; with [check_row_count] false the result is the
    merge's and no row count is compared. *)
Theorem join_explosion_iff (L R : DataFrame) on v sfx chk before after :
  (safe_left_join L R on v sfx chk = Raise (JoinExplosionError before after) ↔
     chk = true ∧ ∃ out, merge L R on v sfx = Ok out ∧
                         before = len L ∧ after = len out ∧ len L ≠ len out) ∧
  safe_left_join L R on v sfx false = merge L R on v sfx.
Proof.
  assert (Hiff : safe_left_join L R on v sfx chk = Raise (JoinExplosionError before after) ↔
     chk = true ∧ ∃ out, merge L R on v sfx = Ok out ∧
                         before = len L ∧ after = len out ∧ len L ≠ len out).
  { unfold safe_left_join, JoinExplosionError.
    destruct (merge L R on v sfx) as [out|e] eqn:Hm; simpl.
    - destruct chk.
      + destruct (decide (len L = len out)) as [Heq|Hne].
        * split; [done|]. intros [_ (out' & [= <-] & _ & _ & ?)]. done.
        * split.
          -- intros [= <- <-]. eauto 10.
          -- intros [_ (out' & [= <-] & -> & -> & _)]. done.
      + split; [done|]. by intros [? _].
    - split.
      + intros [= ->]. by apply merge_not_AssertionError in Hm.
      + by intros [_ (out' & ? & _)]. }
  split; [done|].
  unfold safe_left_join. by destruct (merge L R on v sfx).
Qed.

(** ** Running the object code

    A run of [transform] is followed step by step on a world [ext w news]:
    the objects of [w], then those created so far. *)

Lemma ext_nil w : ext w [] = w.
Proof. destruct w. unfold ext, set_heap. simpl. by rewrite app_nil_r. Qed.

Lemma ext_heap w news : heap (ext w news) = heap w ++ news.
Proof. done. Qed.

Lemma bind_Ok {A B} (m : M A) (k : A → M B) W a W' :
  m W = (Ok a, W') → (m ≫= k) W = k a W'.
Proof. intros H. unfold mbind, M_bind. by rewrite H. Qed.

Lemma bind_Raise {A B} (m : M A) (k : A → M B) W e W' :
  m W = (Raise e, W') → (m ≫= k) W = (Raise e, W').
Proof. intros H. unfold mbind, M_bind. by rewrite H. Qed.

Lemma deref_old w news l d :
  heap w !! l = Some d → deref l (ext w news) = (Ok d, ext w news).
Proof. intros H. unfold deref. rewrite ext_heap. by rewrite (lookup_app_l_Some _ _ _ _ H). Qed.

Lemma deref_new w news i d :
  news !! i = Some d → deref (length (heap w) + i) (ext w news) = (Ok d, ext w news).
Proof.
  intros H. unfold deref. rewrite ext_heap.
  rewrite lookup_app_r by lia. replace (length (heap w) + i - length (heap w)) with i by lia.
  by rewrite H.
Qed.

Lemma alloc_ext w news d :
  alloc d (ext w news) = (Ok (length (heap w) + length news), ext w (news ++ [d])).
Proof.
  unfold alloc, ext, set_heap. simpl. rewrite length_app. by rewrite <- app_assoc.
Qed.

Lemma setitem_new w news i d c s :
  news !! i = Some d →
  setitem (length (heap w) + i) c s (ext w news)
  = (Ok (), ext w (<[i := set_column d c s]> news)).
Proof.
  intros H. unfold setitem. rewrite ext_heap.
  rewrite lookup_app_r by lia. replace (length (heap w) + i - length (heap w)) with i by lia.
  rewrite H. unfold ext, set_heap. simpl. do 2 f_equal.
  rewrite insert_app_r_alt by lia. do 2 f_equal. lia.
Qed.

Lemma check_old w news l d f :
  heap w !! l = Some d → check l f (ext w news) = (f d, ext w news).
Proof. intros H. unfold check. by rewrite (bind_Ok _ _ _ _ _ (deref_old _ _ _ _ H)). Qed.

Lemma copy_old w news l d :
  heap w !! l = Some d →
  copy l (ext w news) = (Ok (length (heap w) + length news), ext w (news ++ [d])).
Proof.
  intros H. unfold copy. rewrite (bind_Ok _ _ _ _ _ (deref_old _ _ _ _ H)). apply alloc_ext.
Qed.

Lemma pipe_new_Ok w news i d f d' :
  news !! i = Some d → f d = Ok d' →
  pipe (length (heap w) + i) f (ext w news)
  = (Ok (length (heap w) + length news), ext w (news ++ [d'])).
Proof.
  intros H Hf. unfold pipe. rewrite (bind_Ok _ _ _ _ _ (deref_new _ _ _ _ H)).
  rewrite (bind_Ok _ _ _ d' (ext w news)); [apply alloc_ext|]. unfold pure. by rewrite Hf.
Qed.

Lemma pipe_new_Raise w news i d f e :
  news !! i = Some d → f d = Raise e →
  pipe (length (heap w) + i) f (ext w news) = (Raise e, ext w news).
Proof.
  intros H Hf. unfold pipe. rewrite (bind_Ok _ _ _ _ _ (deref_new _ _ _ _ H)).
  apply bind_Raise. unfold pure. by rewrite Hf.
Qed.

Lemma assign_new_Ok w news i d c f s :
  news !! i = Some d → f d = Ok s →
  assign (length (heap w) + i) c f (ext w news)
  = (Ok (length (heap w) + length news), ext w (news ++ [set_column d c s])).
Proof.
  intros H Hf. unfold assign. rewrite (bind_Ok _ _ _ _ _ (deref_new _ _ _ _ H)).
  rewrite (bind_Ok _ _ _ s (ext w news)); [apply alloc_ext|]. unfold pure. by rewrite Hf.
Qed.

Lemma assign_new_Raise w news i d c f e :
  news !! i = Some d → f d = Raise e →
  assign (length (heap w) + i) c f (ext w news) = (Raise e, ext w news).
Proof.
  intros H Hf. unfold assign. rewrite (bind_Ok _ _ _ _ _ (deref_new _ _ _ _ H)).
  apply bind_Raise. unfold pure. by rewrite Hf.
Qed.

Lemma bind_run {A B} (m : M A) (k : A → M B) W r W' :
  m W = (r, W') →
  (m ≫= k) W = match r with Ok a => k a W' | Raise e => (Raise e, W') end.
Proof. intros H. unfold mbind, M_bind. by rewrite H. Qed.

Lemma bind_assoc {A B C} (m : M A) (k1 : A → M B) (k2 : B → M C) W :
  ((m ≫= k1) ≫= k2) W = (m ≫= λ a, k1 a ≫= k2) W.
Proof. unfold mbind, M_bind. by destruct (m W) as [[a|e] W']. Qed.

Lemma bind_pure {A B} (r : result A) (k : A → M B) W :
  (pure r ≫= k) W = match r with Ok a => k a W | Raise e => (Raise e, W) end.
Proof. done. Qed.

Lemma bind_ret {A B} (a : A) (k : A → M B) W : (mret a ≫= k) W = k a W.
Proof. done. Qed.

Lemma rbind_Ok {A B} (a : A) (k : A → result B) : (Ok a ≫= k) = k a.
Proof. done. Qed.

Lemma rbind_Raise {A B} (e : exn) (k : A → result B) : (Raise e ≫= k) = Raise e.
Proof. done. Qed.

Ltac run_pure :=
  match goal with
  | |- context [ @mbind _ _ ?A ?B ?k (pure ?r) ?W ] =>
      rewrite (@bind_pure A B r k W); cbv beta iota
  end.

Ltac run_assoc :=
  match goal with
  | |- context [ @mbind _ _ ?B ?C ?k2 (@mbind _ _ ?A _ ?k1 ?m) ?W ] =>
      rewrite (@bind_assoc A B C m k1 k2 W)
  end.

Ltac run_with lem :=
  erewrite bind_Ok by (eapply lem; first [reflexivity | eassumption]);
  simpl length; simpl app; cbv beta iota.

Ltac run_check H :=
  rewrite (bind_run _ _ _ _ _ (check_old _ _ _ _ _ H)).

(** Closes a branch of the run: the objects created so far, and the value
    of [transform_tables] from the equations of the steps taken. *)
Ltac value_side :=
  repeat first
    [ rewrite rbind_Ok
    | rewrite rbind_Raise
    | rewrite decide_True by assumption
    | rewrite decide_False by assumption
    | match goal with
      | H : ?x = Ok _ |- context [?x] => rewrite H
      | H : ?x = Raise _ |- context [?x] => rewrite H
      end ].

Lemma lookup_app_new {A} (h news : list A) i : (h ++ news) !! (length h + i) = news !! i.
Proof. rewrite lookup_app_r by lia. f_equal. lia. Qed.

Ltac run_ok lem E :=
  erewrite bind_Ok by (eapply lem; [reflexivity | exact E]);
  simpl length; simpl app; cbv beta iota.

Ltac run_raise lem E :=
  erewrite bind_Raise by (eapply lem; [reflexivity | exact E]).

Section refinement.
Context `{T : Transforms}.

Local Opaque require_columns assert_non_empty assert_unique_key safe_left_join
  run_stats set_column drop_columns getitem.

Ltac stop :=
  eexists; cbv beta iota; split; [reflexivity|];
  unfold transform_tables, quality_gate, clean_users, clean_orders;
  cbn [fst snd]; value_side; try reflexivity.

Lemma transform_run_ext o u w O U :
  heap w !! o = Some O → heap w !! u = Some U →
  transform_post O U w (transform o u (ext w [])).
Proof.
  intros Ho Hu. unfold transform_post, transform.
  run_check Ho.
  destruct (require_columns O _) as [[]|e] eqn:E1; [|stop].
  run_check Hu.
  destruct (require_columns U _) as [[]|e] eqn:E2; [|stop].
  run_check Ho.
  destruct (assert_non_empty O _) as [[]|e] eqn:E3; [|stop].
  run_check Hu.
  destruct (assert_non_empty U _) as [[]|e] eqn:E4; [|stop].
  run_check Hu.
  destruct (assert_unique_key U _) as [[]|e] eqn:E5; [|stop].
  cbv beta iota.
  run_with copy_old. run_with deref_new.
  (* the users object, cleaned in place *)
  destruct (decide ("country" ∈ columns U)) as [Hc|Hc];
    [ run_assoc;
      destruct (getitem U "country") as [s|e] eqn:E6; run_pure; [|stop];
      run_assoc;
      destruct (normalize_text s) as [s'|e] eqn:E7; run_pure; [|stop];
      run_with setitem_new; simpl (<[_:=_]> _)
    | rewrite bind_ret ].
  (* the chain of orders objects *)
  all: run_with copy_old.
  all: destruct (enforce_schema O) as [o1|e] eqn:E8;
    [run_ok pipe_new_Ok E8 | run_raise pipe_new_Raise E8; stop].
  all: destruct (getitem o1 "status" ≫= λ s, normalize_text s ≫= λ s', apply_mapping s' status_map)
    as [sc|e] eqn:E9;
    [run_ok assign_new_Ok E9 | run_raise assign_new_Raise E9; stop].
  all: destruct (add_missing_flags (set_column o1 "status_clean" sc)
                   ["amount"; "quantity"; "created_at"; "status"]) as [o3|e] eqn:E10;
    [run_ok pipe_new_Ok E10 | run_raise pipe_new_Raise E10; stop].
  all: destruct (parse_datetime o3 "created_at" true) as [o4|e] eqn:E11;
    [run_ok pipe_new_Ok E11 | run_raise pipe_new_Raise E11; stop].
  all: destruct (add_time_parts o4 "created_at") as [o5|e] eqn:E12;
    [run_ok pipe_new_Ok E12 | run_raise pipe_new_Raise E12; stop].
  all: run_with deref_new.
  (* outliers + winsor *)
  all: destruct (decide ("amount" ∈ columns o5)) as [Ha|Ha];
    [ run_assoc;
      destruct (getitem o5 "amount" ≫= λ s, winsorize s) as [sw|e] eqn:E13;
        [run_ok assign_new_Ok E13 | run_raise assign_new_Raise E13; stop];
      destruct (add_outlier_flag (set_column o5 "amount_winsor" sw) "amount")
        as [o7|e] eqn:E14;
        [run_ok pipe_new_Ok E14 | run_raise pipe_new_Raise E14; stop]
    | rewrite bind_ret ].
  (* the join *)
  all: run_with deref_new.
  all: run_with deref_new.
  all: match goal with
       | |- context [ safe_left_join ?l ?r ?on ?v ?sfx ?chk ] =>
           destruct (safe_left_join l r on v sfx chk) as [an|e] eqn:E15; run_pure; [|stop]
       end.
  all: run_with alloc_ext.
  all: run_with deref_new.
  all: run_with deref_new.
  all: run_with alloc_ext.
  all: run_with deref_new.
  all: run_with deref_old.
  all: run_with deref_old.
  all: match goal with
       | |- context [ run_stats ?a ?b ?c ] =>
           destruct (run_stats a b c) as [st|e] eqn:E16; run_pure; [|stop]
       end.
  all: eexists; split; [reflexivity|].
  all: cbn [mret M_ret heap ext set_heap fst snd].
  all: rewrite !lookup_app_new; simpl.
  all: do 3 eexists; split; [reflexivity|split; [reflexivity|split; [reflexivity|]]].
  all: unfold transform_tables, quality_gate, clean_users, clean_orders.
  all: value_side.
  all: reflexivity.
Qed.

Lemma transform_run o u w O U :
  heap w !! o = Some O → heap w !! u = Some U →
  transform_post O U w (transform o u w).
Proof.
  intros Ho Hu. pose proof (transform_run_ext o u w O U Ho Hu) as H.
  by rewrite ext_nil in H.
Qed.

(** A failure of the quality gate leaves the world as it was. *)
Lemma transform_gate_fails o u w O U e :
  heap w !! o = Some O → heap w !! u = Some U →
  quality_gate O U = Raise e → transform o u w = (Raise e, w).
Proof.
  intros Ho Hu Hq. rewrite <- (ext_nil w). revert Hq. unfold transform, quality_gate.
  run_check Ho.
  destruct (require_columns O _) as [[]|e1]; [|by intros [= ->]].
  run_check Hu.
  destruct (require_columns U _) as [[]|e2]; [|by intros [= ->]].
  run_check Ho.
  destruct (assert_non_empty O _) as [[]|e3]; [|by intros [= ->]].
  run_check Hu.
  destruct (assert_non_empty U _) as [[]|e4]; [|by intros [= ->]].
  run_check Hu.
  destruct (assert_unique_key U _) as [[]|e5]; [|by intros [= ->]].
  done.
Qed.
End refinement.

(** ** The run on the file system *)

Lemma bind_Ok_inv {A B} (m : M A) (k : A → M B) W b W' :
  (m ≫= k) W = (Ok b, W') → ∃ a W1, m W = (Ok a, W1) ∧ k a W1 = (Ok b, W').
Proof.
  unfold mbind, M_bind. destruct (m W) as [[a|e] W1]; [eauto|done].
Qed.

Lemma load_inputs_Ok cfg w O U :
  files w !! raw_orders cfg = Some (CsvFile O) →
  files w !! raw_users cfg = Some (CsvFile U) →
  load_inputs cfg w = (Ok (length (heap w), S (length (heap w))), loaded cfg O U w).
Proof.
  intros HO HU. unfold load_inputs, read_orders_csv, read_users_csv, mbind, M_bind.
  rewrite HO. simpl. rewrite HU. simpl. unfold loaded, emit, set_heap. simpl.
  rewrite length_app, <- !app_assoc. simpl. unfold mret, M_ret.
  by replace (length (heap w) + 1) with (S (length (heap w))) by lia.
Qed.

Lemma load_inputs_Ok_inv cfg w o u w1 :
  load_inputs cfg w = (Ok (o, u), w1) →
  ∃ O U, files w !! raw_orders cfg = Some (CsvFile O) ∧
         files w !! raw_users cfg = Some (CsvFile U) ∧
         o = length (heap w) ∧ u = S (length (heap w)) ∧ w1 = loaded cfg O U w.
Proof.
  intros H.
  destruct (files w !! raw_orders cfg) as [[O| |]|] eqn:HO;
    try (unfold load_inputs, read_orders_csv, mbind, M_bind in H; rewrite HO in H; done).
  destruct (files w !! raw_users cfg) as [[U| |]|] eqn:HU;
    try (unfold load_inputs, read_orders_csv, read_users_csv, mbind, M_bind in H;
         rewrite HO in H; simpl in H; rewrite HU in H; done).
  rewrite (load_inputs_Ok _ _ _ _ HO HU) in H. injection H as <- <- <-. eauto 10.
Qed.

(** A failed read has written nothing. *)
Lemma load_inputs_Raise cfg w e w1 :
  load_inputs cfg w = (Raise e, w1) →
  files w1 = files w ∧ locked w1 = locked w ∧
  ∃ evs, trace w1 = trace w ++ evs ∧ Forall not_text_write evs.
Proof.
  unfold load_inputs, read_orders_csv, read_users_csv, mbind, M_bind.
  destruct (files w !! raw_orders cfg) as [[O| |]|] eqn:HO;
    try (intros [= <- <-]; split; [done|split; [done|]]; exists []; split;
         [by rewrite app_nil_r|constructor]).
  simpl.
  destruct (files w !! raw_users cfg) as [[U| |]|] eqn:HU; [done|..];
    (intros [= <- <-]; split; [done|split; [done|]]; eexists [_]; split; [done|];
     by repeat constructor).
Qed.

Lemma loaded_lookup_orders cfg O U w : heap (loaded cfg O U w) !! length (heap w) = Some O.
Proof. simpl. by rewrite list_lookup_middle. Qed.

Lemma loaded_lookup_users cfg O U w : heap (loaded cfg O U w) !! S (length (heap w)) = Some U.
Proof.
  simpl. rewrite lookup_app_r by lia. by replace (S (length (heap w)) - length (heap w)) with 1 by lia.
Qed.

Lemma write_parquet_run l p W d :
  heap W !! l = Some d →
  write_parquet l p W =
    if decide (p ∈ locked W) then (Raise (OSError p), W)
    else (Ok (), emit (EvWriteTable p) (set_files (<[p := ParquetFile d]> (files W)) W)).
Proof. intros H. unfold write_parquet, mbind, M_bind, deref. by rewrite H. Qed.

Lemma load_outputs_run oc us an cfg W OC US AN :
  heap W !! oc = Some OC → heap W !! us = Some US → heap W !! an = Some AN →
  load_outputs oc us an cfg W =
    let W0 := emit (EvMkdir (parent (out_orders_clean cfg))) W in
    if decide (out_orders_clean cfg ∈ locked W) then (Raise (OSError (out_orders_clean cfg)), W0)
    else
      let W1 := table_written (out_orders_clean cfg) OC W0 in
      if decide (out_users cfg ∈ locked W) then (Raise (OSError (out_users cfg)), W1)
      else
        let W2 := table_written (out_users cfg) US W1 in
        if decide (out_analytics cfg ∈ locked W) then (Raise (OSError (out_analytics cfg)), W2)
        else (Ok (), table_written (out_analytics cfg) AN W2).
Proof.
  intros Hoc Hus Han. unfold load_outputs, mkdir, mbind at 1, M_bind at 1.
  unfold mbind at 1, M_bind at 1. rewrite (write_parquet_run oc _ _ OC) by done.
  simpl. destruct (decide (out_orders_clean cfg ∈ locked W)); [done|].
  unfold mbind at 1, M_bind at 1. rewrite (write_parquet_run us _ _ US) by done.
  simpl. destruct (decide (out_users cfg ∈ locked W)); [done|].
  rewrite (write_parquet_run an _ _ AN) by done.
  simpl. by destruct (decide (out_analytics cfg ∈ locked W)).
Qed.

Lemma write_run_meta_run cfg stats W :
  write_run_meta cfg stats W =
    let W0 := emit (EvMkdir (parent (run_meta cfg))) W in
    if decide (run_meta cfg ∈ locked W) then (Raise (OSError (run_meta cfg)), W0)
    else (Ok (), emit (EvWriteText (run_meta cfg))
                   (set_files (<[run_meta cfg := JsonFile (PDict (run_meta_doc cfg stats))]>
                                 (files W0)) W0)).
Proof. done. Qed.


Lemma not_text_write_elem evs p : Forall not_text_write evs → EvWriteText p ∉ evs.
Proof. intros H Hin. rewrite Forall_forall in H. exact (H _ Hin). Qed.

Section run.
Context `{T : Transforms}.

(** A run whose [transform] raises. *)
Lemma run_etl_transform_Raise cfg w o u w1 e w2 :
  load_inputs cfg w = (Ok (o, u), w1) →
  transform o u w1 = (Raise e, w2) →
  run_etl cfg w = (Raise e, w2).
Proof.
  intros Hl Ht. unfold run_etl. rewrite (bind_Ok _ _ _ _ _ Hl).
  by rewrite (bind_Raise _ _ _ _ _ Ht).
Qed.

Lemma transform_after_load cfg w O U :
  transform_post O U (loaded cfg O U w)
    (transform (length (heap w)) (S (length (heap w))) (loaded cfg O U w)).
Proof. apply transform_run; [apply loaded_lookup_orders|apply loaded_lookup_users]. Qed.

(** C2: the quality checks, the schema enforcement and the join are all
    steps of [transform].  If [transform] raises on the tables that were
    loaded, [run_etl] raises the same exception and stops there: the files
    are those of the start of the run, no output artifact and no metadata
    document was written, and the only file-system calls made are the two
    reads. *)
Theorem failed_transform_leaves_no_output cfg w o u w1 e w2 :
  load_inputs cfg w = (Ok (o, u), w1) →
  transform o u w1 = (Raise e, w2) →
  run_etl cfg w = (Raise e, w2) ∧
  files w2 = files w ∧
  trace w2 = trace w ++ [EvRead (raw_orders cfg); EvRead (raw_users cfg)].
Proof.
  intros Hl Ht. split; [by eapply run_etl_transform_Raise|].
  apply load_inputs_Ok_inv in Hl as (O & U & HO & HU & -> & -> & ->).
  destruct (transform_after_load cfg w O U) as (news & Hw & _).
  rewrite Ht in Hw. simpl in Hw. by subst w2.
Qed.

(** C7: in every run of [run_etl], whatever fails, a metadata document is
    written only at the end of a complete run: if the calls of the run
    contain the write of a text file, they are exactly the two reads, the
    three artifact writes in the order orders_clean, users, analytics,
    all successful, and then the metadata write, and the run returned. *)
Theorem run_meta_written_last cfg w :
  ∃ evs, trace (run_etl cfg w).2 = trace w ++ evs ∧
    ((∃ p, EvWriteText p ∈ evs) →
       evs = complete_run cfg ∧ (run_etl cfg w).1 = Ok ()).
Proof.
  destruct (load_inputs cfg w) as [[[o u]|e] w1] eqn:Hl.
  2:{ apply load_inputs_Raise in Hl as Hl'. destruct Hl' as (_ & _ & evs & Htr & Hev).
      exists evs. unfold run_etl. rewrite (bind_Raise _ _ _ _ _ Hl). simpl.
      split; [done|]. intros [p Hp]. by apply not_text_write_elem in Hp. }
  apply load_inputs_Ok_inv in Hl as Hl'. destruct Hl' as (O & U & HO & HU & -> & -> & ->).
  destruct (transform_after_load cfg w O U) as (news & Hw & Hpost).
  destruct (transform _ _ (loaded cfg O U w)) as [[[[[oc us] an] st]|e] w2] eqn:Ht;
    simpl in Hw, Hpost; subst w2.
  2:{ exists [EvRead (raw_orders cfg); EvRead (raw_users cfg)].
      rewrite (run_etl_transform_Raise _ _ _ _ _ _ _ Hl Ht). simpl.
      split; [done|]. intros [p Hp]. exfalso. revert Hp.
      apply not_text_write_elem. by repeat constructor. }
  destruct Hpost as (OC & US & AN & Hoc & Hus & Han & _).
  unfold run_etl. rewrite (bind_Ok _ _ _ _ _ Hl). rewrite (bind_Ok _ _ _ _ _ Ht).
  unfold mbind, M_bind.
  rewrite (load_outputs_run _ _ _ _ _ _ _ _ Hoc Hus Han). cbv zeta.
  destruct (decide (out_orders_clean cfg ∈ _)).
  { eexists [_; _; _]. simpl. split; [by rewrite <- !app_assoc|].
    intros [p Hp]. exfalso. revert Hp. apply not_text_write_elem. by repeat constructor. }
  destruct (decide (out_users cfg ∈ _)).
  { eexists [_; _; _; _]. simpl. split; [by rewrite <- !app_assoc|].
    intros [p Hp]. exfalso. revert Hp. apply not_text_write_elem. by repeat constructor. }
  destruct (decide (out_analytics cfg ∈ _)).
  { eexists [_; _; _; _; _]. simpl. split; [by rewrite <- !app_assoc|].
    intros [p Hp]. exfalso. revert Hp. apply not_text_write_elem. by repeat constructor. }
  rewrite write_run_meta_run. cbv zeta.
  destruct (decide (run_meta cfg ∈ _)).
  { eexists [_; _; _; _; _; _; _]. simpl. split; [by rewrite <- !app_assoc|].
    intros [p Hp]. exfalso. revert Hp. apply not_text_write_elem. by repeat constructor. }
  exists (complete_run cfg). simpl. split; [by rewrite <- !app_assoc|done].
Qed.

End run.

(** ** The statistics and the metadata document *)

Lemma isna_notna_sum (s : Series) : isna_sum s + notna_sum s = length s.
Proof.
  unfold isna_sum, notna_sum. induction s as [|v s IH]; [done|].
  rewrite !filter_cons. destruct (isna v); repeat case_decide; try done; simpl; lia.
Qed.

Lemma one_minus_isna_mean (s : Series) :
  s ≠ [] → one_minus (isna_mean s) = Float (fraction (notna_sum s) (length s)).
Proof.
  intros Hs. pose proof (isna_notna_sum s) as Hsum.
  unfold isna_mean, fraction. destruct (length s) as [|n] eqn:Hlen.
  { by destruct s. }
  simpl. f_equal. apply Qc_is_canon.
  unfold Qcminus, Qcplus, Qcopp, Q2Qc. simpl this.
  rewrite !Qred_correct.
  change (this 1%Qc) with (1%Q).
  unfold Qeq, Qplus, Qopp. simpl Qnum. simpl Qden.
  assert (Z.pos (Pos.of_succ_nat n) = Z.of_nat (S n)) as Hp by lia.
  assert (Z.pos (Pos.of_nat (S n)) = Z.of_nat (S n)) as Hp' by lia.
  rewrite Pos2Z.inj_mul, Hp, Hp'. nia.
Qed.

Lemma rbind_Ok_inv {A B} (m : result A) (k : A → result B) b :
  m ≫= k = Ok b → ∃ a, m = Ok a ∧ k a = Ok b.
Proof. destruct m as [a|e]; [eauto|done]. Qed.

Lemma set_column_len d c s : len (set_column d c s) = len d.
Proof. unfold set_column, len. destruct (get_loc c (columns d)); simpl; by rewrite length_imap. Qed.

Lemma set_column_columns d c s : columns d ⊆ columns (set_column d c s).
Proof.
  unfold set_column. destruct (get_loc c (columns d)); simpl; [done|].
  intros x Hx. apply elem_of_app. by left.
Qed.

Lemma getitem_Ok d c : c ∈ columns d → ∃ s, getitem d c = Ok s ∧ length s = len d.
Proof.
  intros Hc. unfold getitem. destruct (get_loc_is_Some _ _ Hc) as [i ->].
  eexists. split; [done|]. by rewrite length_map.
Qed.

Lemma require_columns_Ok d cols c :
  require_columns d cols = Ok () → c ∈ cols → c ∈ columns d.
Proof.
  unfold require_columns. intros H Hc.
  destruct (filter _ cols) as [|m ms] eqn:Hf; [|done].
  destruct (decide (c ∈ columns d)) as [|Hn]; [done|]. exfalso.
  assert (c ∈ filter (λ c, c ∉ columns d) cols) as Hin by (by apply list_elem_of_filter).
  rewrite Hf in Hin. by apply elem_of_nil in Hin.
Qed.

Lemma append_empty (x : string) : x +:+ "" = x.
Proof.
  induction x as [|a x IH]; [done|].
  change (String a (x +:+ "") = String a x). by rewrite IH.
Qed.

Lemma renamer_empty to_rename x : renamer to_rename "" x = x.
Proof. unfold renamer. destruct (decide (x ∈ to_rename)); [apply append_empty|done]. Qed.

(** With the default suffixes the columns of the left frame keep their
    labels, and every column of the right frame is either kept under its
    label or shadowed by the left column of that label. *)
Lemma items_overlap_default left right ll rl :
  items_overlap_with_suffix left right default_suffixes = Ok (ll, rl) →
  ll = left ∧ ∀ c, c ∈ right → c ∈ ll ++ rl.
Proof.
  unfold items_overlap_with_suffix, default_suffixes.
  destruct (decide (filter (λ x, x ∈ right) left = [])) as [He|Hne].
  { intros [= <- <-]. split; [done|]. intros c Hc. apply elem_of_app. by right. }
  rewrite decide_False by (by intros [_ ?]).
  destruct (_ ++ _) as [|? ?]; [|done]. intros [= <- <-].
  assert (∀ tr l, map (renamer tr "") l = l) as Hmap.
  { intros tr l. induction l as [|x l IH]; [done|]. simpl. rewrite renamer_empty. by f_equal. }
  pose proof (Hmap (filter (λ x, x ∈ right) left) left) as Hl.
  split; [done|]. rewrite Hl. intros c Hc. apply elem_of_app.
  destruct (decide (c ∈ left)) as [|Hn]; [by left|right].
  apply list_elem_of_fmap. exists c. split; [|done].
  unfold renamer. rewrite decide_False; [done|].
  intros Hin. apply list_elem_of_filter in Hin as [_ ?]. done.
Qed.

Lemma safe_left_join_default_columns L R on v chk out :
  safe_left_join L R on v default_suffixes chk = Ok out →
  columns L ⊆ columns out ∧ ∀ c, c ∈ columns R → c ∉ on → c ∈ columns out.
Proof.
  unfold safe_left_join. intros H. apply rbind_Ok_inv in H as (out' & Hm & H).
  assert (out' = out) as ->.
  { destruct chk; [|congruence]. destruct (decide (len L = len out')); congruence. }
  apply merge_Ok_inv in Hm as (_ & _ & _ & ll & rl & Hlab & ->). simpl.
  apply items_overlap_default in Hlab as [-> Hr]. split.
  - intros c Hc. apply elem_of_app. by left.
  - intros c Hc Hon. apply Hr. unfold drop_labels. by apply list_elem_of_filter.
Qed.

Lemma safe_left_join_checked_len L R on v sfx out :
  safe_left_join L R on v sfx true = Ok out → len out = len L.
Proof.
  unfold safe_left_join. intros H. apply rbind_Ok_inv in H as (out' & Hm & H).
  destruct (decide (len L = len out')) as [Heq|]; [|done]. by injection H as <-.
Qed.

Section shapes.
Context `{T : Transforms} `{!TransformsContract T}.

Lemma clean_users_shape U U' :
  clean_users U = Ok U' → len U' = len U ∧ columns U ⊆ columns U'.
Proof.
  unfold clean_users. destruct (decide ("country" ∈ columns U)); [|by intros [= <-]].
  intros H. apply rbind_Ok_inv in H as (s & _ & H).
  apply rbind_Ok_inv in H as (s' & _ & [= <-]).
  split; [apply set_column_len|apply set_column_columns].
Qed.

Lemma clean_orders_shape O O' :
  clean_orders O = Ok O' →
  len O' = len O ∧ ∀ c, c ∈ orders_columns → c ∈ columns O → c ∈ columns O'.
Proof.
  unfold clean_orders. intros H.
  apply rbind_Ok_inv in H as (o1 & H1 & H). apply enforce_schema_shape in H1 as [L1 C1].
  apply rbind_Ok_inv in H as (sc & _ & H).
  apply rbind_Ok_inv in H as (o3 & H3 & H). apply add_missing_flags_shape in H3 as [L3 C3].
  rewrite set_column_len in L3.
  apply rbind_Ok_inv in H as (o4 & H4 & H). apply parse_datetime_shape in H4 as [L4 C4].
  apply rbind_Ok_inv in H as (o5 & H5 & H). apply add_time_parts_shape in H5 as [L5 C5].
  assert (len o5 = len O ∧ ∀ c, c ∈ orders_columns → c ∈ columns O → c ∈ columns o5) as [L C].
  { split; [congruence|]. intros c Hc HO.
    apply C5, C4, C3, set_column_columns, C1; done. }
  destruct (decide ("amount" ∈ columns o5)); [|by injection H as <-].
  apply rbind_Ok_inv in H as (sw & _ & H). apply add_outlier_flag_shape in H as [L7 C7].
  rewrite set_column_len in L7. split; [congruence|].
  intros c Hc HO. apply C7, set_column_columns, C; done.
Qed.
End shapes.

Lemma quality_gate_Ok O U :
  quality_gate O U = Ok () →
  (∀ c, c ∈ orders_columns → c ∈ columns O) ∧
  (∀ c, c ∈ ["user_id"; "country"; "signup_date"] → c ∈ columns U) ∧
  len O ≠ 0 ∧ len U ≠ 0.
Proof.
  unfold quality_gate. intros H.
  apply rbind_Ok_inv in H as ([] & H1 & H). apply rbind_Ok_inv in H as ([] & H2 & H).
  apply rbind_Ok_inv in H as ([] & H3 & H). apply rbind_Ok_inv in H as ([] & H4 & H).
  split; [intros c; by apply require_columns_Ok|].
  split; [intros c; by apply require_columns_Ok|].
  unfold assert_non_empty in H3, H4.
  destruct (decide (len O = 0)); [done|]. by destruct (decide (len U = 0)).
Qed.

Lemma close_to_refl x : close_to x x.
Proof.
  assert (0 ≤ float_epsilon)%Qc as Heps by done.
  split.
  - rewrite <- (Qcplus_0_r x) at 2. unfold Qcminus.
    apply Qcplus_le_compat; [apply Qcle_refl|].
    apply Qcopp_le_compat in Heps. exact Heps.
  - rewrite <- (Qcplus_0_r x) at 1.
    apply Qcplus_le_compat; [apply Qcle_refl|exact Heps].
Qed.

Section stats.
Context `{T : Transforms} `{!TransformsContract T}.

(** The statistics of a successful [transform]. *)
Lemma transform_tables_stats cfg O U OC US AN st :
  transform_tables O U = Ok (OC, US, AN, st) →
  describes_run cfg O U AN (run_meta_doc cfg st).
Proof.
  unfold transform_tables. intros H.
  apply rbind_Ok_inv in H as ([] & Hq & H).
  apply rbind_Ok_inv in H as (US' & Hu & H).
  apply rbind_Ok_inv in H as (O' & Ho & H).
  apply rbind_Ok_inv in H as (AN' & Hj & H). cbv zeta in H.
  apply rbind_Ok_inv in H as (st' & Hst & H). injection H as <- <- <- <-.
  apply quality_gate_Ok in Hq as (HO & HU & HlenO & HlenU).
  apply clean_users_shape in Hu as [_ HcU].
  apply clean_orders_shape in Ho as [HlO HcO].
  pose proof (safe_left_join_checked_len _ _ _ _ _ _ Hj) as Hlen.
  apply safe_left_join_default_columns in Hj as [HcL HcR].
  assert ("created_at" ∈ columns AN') as Hts.
  { apply HcL, HcO; [|apply HO]; unfold orders_columns; by repeat constructor. }
  assert ("country" ∈ columns AN') as Hcs.
  { apply HcR; [apply HcU, HU; by repeat constructor|].
    intros Hin. apply list_elem_of_singleton in Hin. discriminate. }
  destruct (getitem_Ok _ _ Hts) as (ts & Ets & _).
  destruct (getitem_Ok _ _ Hcs) as (cs & Ecs & Hlcs).
  unfold run_stats in Hst. rewrite !decide_True in Hst by done.
  rewrite Ets, Ecs in Hst. simpl in Hst. injection Hst as <-.
  rewrite one_minus_isna_mean by (intros ->; simpl in Hlcs; lia).
  rewrite Hlcs. exists ts, cs.
  split; [done|]. split; [done|]. split; [lia|].
  split; [done|]. split; [done|]. split; [done|]. split; [done|].
  split; [|by split].
  eexists. split; [reflexivity|]. intros _. apply close_to_refl.
Qed.
End stats.


(** ** The pipeline *)

Section claims.
Context `{T : Transforms}.

(** C8: for every successful run, the metadata document that was written
    holds the raw orders row count, the raw users row count, the row
    count of the analytics table, the number of rows of the analytics
    table whose timestamp is missing after parsing, the join match rate,
    which is the fraction of the analytics rows with a country that is
    not missing, and the input and output paths of the configuration.
    The match rate is a float, computed as one minus the mean of the
    missing countries: it is the fraction up to the rounding of these two
    operations.  The table helpers are assumed to return one row per row
    and to keep the columns they are given. *)
Theorem run_meta_describes_run `{!TransformsContract T} cfg w w' :
  run_etl cfg w = (Ok (), w') →
  ∃ O U o u w1 oc us an st w2 AN doc,
    files w !! raw_orders cfg = Some (CsvFile O) ∧
    files w !! raw_users cfg = Some (CsvFile U) ∧
    load_inputs cfg w = (Ok (o, u), w1) ∧
    transform o u w1 = (Ok (oc, us, an, st), w2) ∧
    heap w2 !! an = Some AN ∧
    files w' !! run_meta cfg = Some (JsonFile (PDict doc)) ∧
    describes_run cfg O U AN doc.
Proof.
  intros Hrun. unfold run_etl in Hrun.
  apply bind_Ok_inv in Hrun as ([o u] & w1 & Hl & Hrun).
  apply bind_Ok_inv in Hrun as ([[[oc us] an] st] & w2 & Ht & Hrun).
  apply bind_Ok_inv in Hrun as ([] & w3 & Hout & Hmeta).
  apply load_inputs_Ok_inv in Hl as Hl'. destruct Hl' as (O & U & HO & HU & -> & -> & ->).
  destruct (transform_after_load cfg w O U) as (news & Hw & Hpost).
  rewrite Ht in Hw, Hpost. simpl in Hw, Hpost.
  destruct Hpost as (OC & US & AN & Hoc & Hus & Han & Htab).
  rewrite write_run_meta_run in Hmeta. cbv zeta in Hmeta.
  destruct (decide (run_meta cfg ∈ locked w3)); [done|]. injection Hmeta as <-.
  exists O, U, (length (heap w)), (S (length (heap w))), (loaded cfg O U w),
    oc, us, an, st, w2, AN, (run_meta_doc cfg st).
  repeat split; try done.
  - simpl. apply lookup_insert_eq.
  - by eapply transform_tables_stats.
Qed.

(** C6, amended: [transform] runs all its quality checks before any
    cleaning: when a check fails, [transform] raises its error and the
    world is as it was, with no object created.  In particular, for every
    users table with a duplicate [user_id], [transform] fails without
    producing any output; the error is [KeyViolationError] whenever the
    checks that come first pass, that is when both tables have their
    required columns and the orders table is not empty. *)
Theorem transform_fail_fast o u w O U :
  heap w !! o = Some O → heap w !! u = Some U →
  (∀ e, quality_gate O U = Raise e → transform o u w = (Raise e, w)) ∧
  (∀ ids, getitem U "user_id" = Ok ids → ¬ NoDup ids →
     ∃ e, transform o u w = (Raise e, w) ∧
          (require_columns O orders_columns = Ok () →
           require_columns U ["user_id"; "country"; "signup_date"] = Ok () →
           len O ≠ 0 →
           e = KeyViolationError "user_id")).
Proof.
  intros Ho Hu. split; [intros e; by apply transform_gate_fails|].
  intros ids Hids Hdup.
  assert (assert_unique_key U "user_id" = Raise (KeyViolationError "user_id")) as Hk.
  { unfold assert_unique_key. rewrite Hids. simpl.
    by rewrite bool_decide_eq_false_2. }
  assert (len U ≠ 0) as HlenU.
  { intros Hz. apply Hdup. unfold getitem in Hids.
    destruct (get_loc "user_id" (columns U)); [|done]. injection Hids as <-.
    unfold len in Hz. destruct (rows U); [constructor|done]. }
  destruct (quality_gate O U) as [[]|e] eqn:Hq.
  { exfalso. unfold quality_gate in Hq.
    do 4 (apply rbind_Ok_inv in Hq as ([] & _ & Hq)). rewrite Hk in Hq. done. }
  exists e. split; [by eapply transform_gate_fails|].
  intros H1 H2 H3. unfold quality_gate in Hq. fold orders_columns in Hq.
  rewrite H1, H2 in Hq. simpl in Hq. unfold assert_non_empty in Hq.
  rewrite !decide_False in Hq by done. simpl in Hq. congruence.
Qed.

(** C9: [transform] is deterministic.  Two calls on equal input tables,
    in whatever worlds and under whatever references the tables are held,
    return equal outputs: the same three tables and the same statistics,
    or the same exception. *)
Theorem transform_deterministic o1 u1 w1 o2 u2 w2 O U :
  heap w1 !! o1 = Some O → heap w1 !! u1 = Some U →
  heap w2 !! o2 = Some O → heap w2 !! u2 = Some U →
  outcome (transform o1 u1 w1) = outcome (transform o2 u2 w2).
Proof.
  intros Ho1 Hu1 Ho2 Hu2.
  assert (∀ o u w, heap w !! o = Some O → heap w !! u = Some U →
            outcome (transform o u w) = transform_tables O U) as Hout.
  { intros o u w Ho Hu. destruct (transform_run o u w O U Ho Hu) as (news & _ & Hpost).
    unfold outcome. destruct (transform o u w) as [[[[[oc us] an] st]|e] w']; simpl in *.
    - destruct Hpost as (OC & US & AN & -> & -> & -> & ->). done.
    - done. }
  by rewrite !Hout.
Qed.

(** C10: [transform] does not mutate its arguments.  After the call,
    whether it returned or raised, the two objects passed in hold the
    tables they held before, and so does every object that existed
    before the call: the cleaning works on copies. *)
Theorem transform_keeps_arguments o u w O U :
  heap w !! o = Some O → heap w !! u = Some U →
  heap (transform o u w).2 !! o = Some O ∧
  heap (transform o u w).2 !! u = Some U ∧
  ∀ l d, heap w !! l = Some d → heap (transform o u w).2 !! l = Some d.
Proof.
  intros Ho Hu. destruct (transform_run o u w O U Ho Hu) as (news & Hw & _).
  rewrite Hw.
  assert (∀ l d, heap w !! l = Some d → heap (ext w news) !! l = Some d) as Hk.
  { intros l d Hl. rewrite ext_heap. by apply lookup_app_l_Some. }
  auto.
Qed.

(** The three kinds of failure that stop a run before it writes: a
    failed quality check, a failure of the schema enforcement, and a
    failure of the join, each make [transform] raise that exception. *)
Lemma transform_raises_at_stage o u w O U e :
  heap w !! o = Some O → heap w !! u = Some U →
  quality_gate O U = Raise e ∨
  (quality_gate O U = Ok () ∧ ∃ US, clean_users U = Ok US ∧
     (enforce_schema O = Raise e ∨
      ∃ OR, clean_orders O = Ok OR ∧
            safe_left_join OR US ["user_id"] many_to_one default_suffixes true = Raise e)) →
  (transform o u w).1 = Raise e.
Proof.
  intros Ho Hu Hstage.
  assert (transform_tables O U = Raise e) as Htab.
  { unfold transform_tables.
    destruct Hstage as [->|(-> & US & -> & [Hs|(OR & -> & Hj)])]; [done| |].
    - simpl. unfold clean_orders. by rewrite Hs.
    - simpl. by rewrite Hj. }
  destruct (transform_run o u w O U Ho Hu) as (news & _ & Hpost).
  destruct (transform o u w).1 as [[[[oc us] an] st]|e'].
  - destruct Hpost as (OC & US & AN & _ & _ & _ & Hok). congruence.
  - congruence.
Qed.

End claims.

(** ** The model of the helpers meets the contract *)

Lemma map_column_shape f c d d' :
  SpecTransforms.map_column f c d = Ok d' → len d' = len d ∧ columns d ⊆ columns d'.
Proof.
  unfold SpecTransforms.map_column. intros H.
  apply rbind_Ok_inv in H as (s & _ & [= <-]).
  split; [apply set_column_len|apply set_column_columns].
Qed.

Lemma spec_add_missing_flags_shape cols d d' :
  SpecTransforms.add_missing_flags d cols = Ok d' → len d' = len d ∧ columns d ⊆ columns d'.
Proof.
  revert d. induction cols as [|c cols IH]; intros d H; simpl in H.
  { by injection H as <-. }
  apply rbind_Ok_inv in H as (s & _ & H). apply IH in H as [Hl Hc].
  rewrite set_column_len in Hl. split; [done|].
  intros x Hx. by apply Hc, set_column_columns.
Qed.

Lemma spec_transforms_contract : TransformsContract spec_transforms.
Proof.
  split; simpl.
  - intros d d' H. unfold SpecTransforms.enforce_schema in H.
    apply rbind_Ok_inv in H as (d1 & H1 & H).
    apply rbind_Ok_inv in H as (d2 & H2 & H3).
    apply map_column_shape in H2 as [L2 C2]. apply map_column_shape in H3 as [L3 C3].
    unfold SpecTransforms.select in H1.
    apply rbind_Ok_inv in H1 as (idx & _ & [= <-]).
    split.
    + rewrite L3, L2. unfold len. simpl. by rewrite length_map.
    + intros c Hc _. by apply C3, C2.
  - intros d cols d'. apply spec_add_missing_flags_shape.
  - intros d c utc d'. apply map_column_shape.
  - intros d c d' H. unfold SpecTransforms.add_time_parts in H.
    apply rbind_Ok_inv in H as (s & _ & [= <-]). simpl.
    rewrite !set_column_len. split; [done|].
    intros x Hx. by do 5 apply set_column_columns.
  - intros d c d' H. unfold SpecTransforms.add_outlier_flag in H.
    apply rbind_Ok_inv in H as (s & _ & [= <-]).
    split; [apply set_column_len|apply set_column_columns].
Qed.

Lemma failed_transform_leaves_no_output_witness :
  let w := ex_world raw_orders_table raw_users_dup in
  let w1 := loaded ex_cfg raw_orders_table raw_users_dup w in
  run_etl (T := spec_transforms) ex_cfg w = (Raise (KeyViolationError "user_id"), w1) ∧
  files w1 = files w ∧
  trace w1 = trace w ++ [EvRead (raw_orders ex_cfg); EvRead (raw_users ex_cfg)].
Proof.
  intros w w1.
  apply (failed_transform_leaves_no_output (T := spec_transforms) ex_cfg w 0 1 w1).
  - vm_compute. reflexivity.
  - vm_compute. reflexivity.
Defined.

Lemma duplicate_users_with_empty_orders :
  let x := transform (T := spec_transforms) 0 1 (ex_objects raw_orders_empty raw_users_dup) in
  getitem raw_users_dup "user_id" = Ok [VStr "a"; VStr "a"] ∧
  ¬ NoDup [VStr "a"; VStr "a"] ∧
  x.1 = Raise (EmptyInputError "orders_raw") ∧
  x.1 ≠ Raise (KeyViolationError "user_id").
Proof.
  intros x.
  assert (x.1 = Raise (EmptyInputError "orders_raw")) as H by (vm_compute; reflexivity).
  split; [vm_compute; reflexivity|]. split; [|split; [exact H|]].
  - apply (bool_decide_unpack _). vm_compute. exact I.
  - rewrite H. discriminate.
Qed.

Lemma transform_fail_fast_witness :
  let w := ex_objects raw_orders_table raw_users_dup in
  transform (T := spec_transforms) 0 1 w = (Raise (KeyViolationError "user_id"), w).
Proof.
  intros w.
  destruct (transform_fail_fast (T := spec_transforms) 0 1 w raw_orders_table raw_users_dup)
    as [_ Hdup]; [reflexivity|reflexivity|].
  destruct (Hdup [VStr "a"; VStr "a"]) as (e & Hrun & He).
  - reflexivity.
  - apply (bool_decide_unpack _). vm_compute. exact I.
  - rewrite He in Hrun; [exact Hrun|reflexivity|reflexivity|discriminate].
Defined.

Lemma run_meta_describes_run_witness :
  let w := ex_world raw_orders_table raw_users_table in
  ∃ AN doc,
    files (run_etl (T := spec_transforms) ex_cfg w).2 !! run_meta ex_cfg
      = Some (JsonFile (PDict doc)) ∧
    describes_run ex_cfg raw_orders_table raw_users_table AN doc.
Proof.
  intros w.
  destruct (run_meta_describes_run (T := spec_transforms)
              (TransformsContract0 := spec_transforms_contract)
              ex_cfg w (run_etl (T := spec_transforms) ex_cfg w).2)
    as (O & U & o & u & w1 & oc & us & an & st & w2 & AN & doc
        & HO & HU & _ & _ & _ & Hdoc & Hdesc).
  - vm_compute. reflexivity.
  - assert (O = raw_orders_table) as -> by (vm_compute in HO; by injection HO as <-).
    assert (U = raw_users_table) as -> by (vm_compute in HU; by injection HU as <-).
    exists AN, doc. split; [exact Hdoc|exact Hdesc].
Defined.

Lemma transform_deterministic_witness :
  outcome (transform (T := spec_transforms) 0 1 (ex_objects raw_orders_table raw_users_table))
  = outcome (transform (T := spec_transforms) 2 0
      {| heap := [raw_users_table; raw_orders_empty; raw_orders_table];
         files := ∅; locked := ∅; trace := [EvRead ["elsewhere"]] |}).
Proof.
  apply (transform_deterministic (T := spec_transforms) 0 1 _ 2 0 _
           raw_orders_table raw_users_table); reflexivity.
Defined.

Lemma transform_keeps_arguments_witness :
  let w := ex_objects raw_orders_table raw_users_table in
  heap (transform (T := spec_transforms) 0 1 w).2 !! 0 = Some raw_orders_table ∧
  heap (transform (T := spec_transforms) 0 1 w).2 !! 1 = Some raw_users_table ∧
  ∀ l d, heap w !! l = Some d → heap (transform (T := spec_transforms) 0 1 w).2 !! l = Some d.
Proof.
  intros w.
  apply (transform_keeps_arguments (T := spec_transforms) 0 1 w
           raw_orders_table raw_users_table); reflexivity.
Defined.

(** ** The scenarios of the specification, run on the model *)

Example normalize_text_paid :
  SpecTransforms.normalize_text [VStr "  PAID "; VNull] = Ok [VStr "paid"; VNull].
Proof. vm_compute. reflexivity. Qed.

Example apply_mapping_pending :
  SpecTransforms.apply_mapping [VStr "refunded"; VStr "pending"] [("refunded", "refund")]
  = Ok [VStr "refund"; VStr "pending"].
Proof. vm_compute. reflexivity. Qed.

(** One paid order of a known user: one analytics row, with the status
    and the country normalized, and a match rate of one. *)
Example scenario_matched_order :
  let orders := {| columns := orders_columns;
                   rows := [[VInt 1; VStr "a"; VInt 10; VInt 1; VStr "2024-01-01"; VStr "Paid"]] |} in
  ∃ oc us an st,
    transform_tables (T := spec_transforms) orders raw_users_table = Ok (oc, us, an, st) ∧
    len an = 1 ∧
    getitem an "status_clean" = Ok [VStr "paid"] ∧
    getitem an "country" = Ok [VStr "us"] ∧
    dict_get "country_match_rate" st = Some (PFloat (Float (fraction 1 1))).
Proof.
  intros orders.
  destruct (transform_tables (T := spec_transforms) orders raw_users_table)
    as [[[[oc us] an] st]|e] eqn:H; vm_compute in H; [|discriminate].
  exists oc, us, an, st. injection H as <- <- <- <-.
  split; [reflexivity|]. repeat split; apply (bool_decide_unpack _); vm_compute; exact I.
Qed.

(** An order whose user is unknown stays in the analytics table, with no
    country; the row count is unchanged and the match rate is below one. *)
Example scenario_unmatched_order :
  ∃ oc us an st,
    transform_tables (T := spec_transforms) raw_orders_table raw_users_table
      = Ok (oc, us, an, st) ∧
    len an = len raw_orders_table ∧
    getitem an "country" = Ok [VStr "us"; VNull] ∧
    dict_get "country_match_rate" st = Some (PFloat (Float (fraction 1 2))).
Proof.
  destruct (transform_tables (T := spec_transforms) raw_orders_table raw_users_table)
    as [[[[oc us] an] st]|e] eqn:H; vm_compute in H; [|discriminate].
  exists oc, us, an, st. injection H as <- <- <- <-.
  split; [reflexivity|]. repeat split; apply (bool_decide_unpack _); vm_compute; exact I.
Qed.

(** * Further properties *)

(** ** The join: keys, labels and rows *)

Lemma get_merge_keys_Raise on lcols rcols e :
  get_merge_keys on lcols rcols = Raise e →
  ∃ k, e = KeyError k ∧ k ∈ on ∧ (k ∉ lcols ∨ k ∉ rcols).
Proof.
  induction on as [|k on IH]; [done|]. simpl.
  destruct (get_loc k rcols) as [j|] eqn:Hj.
  2:{ intros [= <-]. exists k. split; [done|]. split; [left|].
      right. intros Hin. apply get_loc_is_Some in Hin as [? ?]. congruence. }
  destruct (get_loc k lcols) as [i|] eqn:Hi.
  2:{ intros [= <-]. exists k. split; [done|]. split; [left|].
      left. intros Hin. apply get_loc_is_Some in Hin as [? ?]. congruence. }
  destruct (get_merge_keys on lcols rcols) as [[li ri]|e'] eqn:Hrec; [done|].
  simpl. intros [= <-]. destruct (IH eq_refl) as (k' & -> & Hin & Hmiss).
  exists k'. split; [done|]. split; [by right|done].
Qed.

Lemma validate_not_KeyError v on lk rk k :
  validate_validate_kwd v on lk rk ≠ Raise (KeyError k).
Proof.
  unfold validate_validate_kwd. destruct (decide (on = [])); [done|].
  destruct v, (is_unique lk), (is_unique rk); done.
Qed.

Lemma items_overlap_not_KeyError l r sfx k :
  items_overlap_with_suffix l r sfx ≠ Raise (KeyError k).
Proof.
  unfold items_overlap_with_suffix.
  destruct (decide (filter (λ x, x ∈ r) l = [])); [done|].
  destruct sfx as [ls rs]. destruct (decide (ls = "" ∧ rs = "")); [done|].
  by destruct (_ ++ _).
Qed.

(** Every failure of [safe_left_join] but the failed assertion is a
    failure of the merge. *)
Lemma safe_left_join_Raise_merge (L R : DataFrame) on v sfx chk e :
  (∀ b a, e ≠ AssertionError b a) →
  safe_left_join L R on v sfx chk = Raise e → merge L R on v sfx = Raise e.
Proof.
  intros He. unfold safe_left_join.
  destruct (merge L R on v sfx) as [out|e']; [|done]. simpl.
  destruct chk; [|done]. destruct (decide (len L = len out)); [done|].
  intros [= <-]. by destruct (He (len L) (len out)).
Qed.

Lemma merge_Raise_safe_left_join (L R : DataFrame) on v sfx chk e :
  merge L R on v sfx = Raise e → safe_left_join L R on v sfx chk = Raise e.
Proof. intros H. unfold safe_left_join. by rewrite H. Qed.

Lemma safe_left_join_Ok_inv (L R : DataFrame) on v sfx chk out :
  safe_left_join L R on v sfx chk = Ok out →
  merge L R on v sfx = Ok out ∧ (chk = true → len out = len L).
Proof.
  unfold safe_left_join. intros H. apply rbind_Ok_inv in H as (out' & Hm & H).
  destruct chk.
  - destruct (decide (len L = len out')) as [Heq|]; [|done]. injection H as <-. by split.
  - injection H as <-. by split.
Qed.

(** X1: on tables whose labels are all different, [safe_left_join] raises
    [KeyError] exactly when a key column is missing from the left or from
    the right table, whatever the contract, the suffixes and
    [check_row_count]; the label of the error is a label of [on] that one
    of the tables lacks.  (pandas refuses a key label that a table has
    twice; the model of the merge leaves that case out.) *)
Theorem safe_left_join_KeyError (L R : DataFrame) on v sfx chk :
  on ≠ [] → NoDup (columns L) → NoDup (columns R) →
  ((∃ k, safe_left_join L R on v sfx chk = Raise (KeyError k))
     ↔ ¬ (has_keys on L ∧ has_keys on R)) ∧
  (∀ k, safe_left_join L R on v sfx chk = Raise (KeyError k) →
        k ∈ on ∧ (k ∉ columns L ∨ k ∉ columns R)).
Proof.
  intros _ _ _.
  assert (∀ k, safe_left_join L R on v sfx chk = Raise (KeyError k) →
               get_merge_keys on (columns L) (columns R) = Raise (KeyError k)) as Hkeys.
  { intros k H. apply safe_left_join_Raise_merge in H; [|done].
    unfold merge in H.
    destruct (get_merge_keys on (columns L) (columns R)) as [[li ri]|e] eqn:Hk;
      [|simpl in H; by injection H as ->].
    simpl in H.
    destruct (validate_validate_kwd _ _ _ _) as [[]|e] eqn:Hv;
      [|simpl in H; injection H as ->; by apply validate_not_KeyError in Hv].
    simpl in H.
    destruct (items_overlap_with_suffix _ _ _) as [[ll rl]|e] eqn:Hl;
      [done|simpl in H; injection H as ->; by apply items_overlap_not_KeyError in Hl]. }
  split; [split|].
  - intros [k H%Hkeys] [HL HR].
    by rewrite (get_merge_keys_has_keys _ _ _ HL HR) in H.
  - intros Hmiss.
    destruct (get_merge_keys on (columns L) (columns R)) as [[li ri]|e] eqn:Hk.
    { by apply get_merge_keys_Ok_inv in Hk. }
    destruct (get_merge_keys_Raise _ _ _ _ Hk) as (k & -> & _).
    exists k. apply merge_Raise_safe_left_join. unfold merge. by rewrite Hk.
  - intros k H%Hkeys. apply get_merge_keys_Raise in H as (k' & [= <-] & Hin & Hmiss). done.
Qed.

Lemma safe_left_join_KeyError_witness :
  ∃ k,
    safe_left_join ex_orders_no_key ex_users ["user_id"] many_to_one default_suffixes true
      = Raise (KeyError k) ∧
    k ∈ ["user_id"] ∧ (k ∉ columns ex_orders_no_key ∨ k ∉ columns ex_users).
Proof.
  destruct (safe_left_join_KeyError ex_orders_no_key ex_users ["user_id"] many_to_one
              default_suffixes true) as [_ Hk].
  - discriminate.
  - apply (bool_decide_unpack _). vm_compute. exact I.
  - apply (bool_decide_unpack _). vm_compute. exact I.
  - exists "user_id". split; [vm_compute; reflexivity|].
    apply Hk. vm_compute. reflexivity.
Defined.

(** The labels that the default suffixes give. *)
Lemma items_overlap_default_labels left right ll rl :
  items_overlap_with_suffix left right default_suffixes = Ok (ll, rl) →
  ll = left ∧
  rl = map (λ c, if decide (c ∈ left) then c +:+ "_r" else c) right.
Proof.
  unfold items_overlap_with_suffix, default_suffixes.
  destruct (decide (filter (λ x, x ∈ right) left = [])) as [He|Hne].
  { intros [= <- <-]. split; [done|].
    transitivity (id <$> right); [by rewrite list_fmap_id|].
    apply list_fmap_ext. intros i c Hc. simpl.
    rewrite decide_False; [done|]. intros Hin.
    assert (c ∈ filter (λ x, x ∈ right) left) as Hf.
    { apply list_elem_of_filter. split; [|done]. by eapply list_elem_of_lookup_2. }
    rewrite He in Hf. by apply elem_of_nil in Hf. }
  rewrite decide_False by (by intros [_ ?]).
  destruct (_ ++ _) as [|? ?]; [|done]. intros [= <- <-]. split.
  - transitivity (id <$> left); [|apply list_fmap_id].
    apply list_fmap_ext. intros i c _. apply renamer_empty.
  - apply list_fmap_ext. intros i c Hc. unfold renamer.
    destruct (decide (c ∈ left)) as [Hl|Hl].
    + rewrite decide_True; [done|]. apply list_elem_of_filter. split; [|done].
      by eapply list_elem_of_lookup_2.
    + rewrite decide_False; [done|]. intros Hin. by apply list_elem_of_filter in Hin as [_ ?].
Qed.

(** X2: with the default suffixes, a table that [safe_left_join] returns
    has the columns of the left table under their own labels, in order,
    followed by the columns of the right table that are not key columns;
    a right column whose label is also a label of the left table gets the
    suffix [_r], the others keep their label. *)
Theorem safe_left_join_default_labels (L R : DataFrame) on v chk out :
  safe_left_join L R on v default_suffixes chk = Ok out →
  columns out =
    columns L ++
    map (λ c, if decide (c ∈ columns L) then c +:+ "_r" else c)
        (filter (λ c, c ∉ on) (columns R)).
Proof.
  intros H. apply safe_left_join_Ok_inv in H as [Hm _].
  apply merge_Ok_inv in Hm as (_ & _ & _ & ll & rl & Hlab & ->). simpl.
  by apply items_overlap_default_labels in Hlab as [-> ->].
Qed.

Lemma safe_left_join_default_labels_witness :
  ∃ out,
    safe_left_join ex_orders_shipping ex_users ["user_id"] many_to_one default_suffixes true
      = Ok out ∧
    columns out = ["order_id"; "user_id"; "country"; "country_r"].
Proof.
  destruct (safe_left_join ex_orders_shipping ex_users ["user_id"] many_to_one
              default_suffixes true) as [out|e] eqn:H.
  - exists out. split; [reflexivity|].
    rewrite (safe_left_join_default_labels
               ex_orders_shipping ex_users ["user_id"] many_to_one true out H).
    vm_compute. reflexivity.
  - exfalso. vm_compute in H. discriminate.
Defined.

Lemma validate_left_duplicate v on lkeys rkeys :
  on ≠ [] → v = one_to_one ∨ v = one_to_many → ¬ NoDup lkeys →
  ∃ side, side ≠ RightSide ∧
          validate_validate_kwd v on lkeys rkeys = Raise (CardinalityViolation side).
Proof.
  unfold validate_validate_kwd, is_unique, CardinalityViolation. intros Hon Hv Hn.
  rewrite decide_False by done.
  rewrite (bool_decide_eq_false_2 _ Hn).
  destruct Hv as [-> | ->]; simpl; [|by exists LeftSide].
  destruct (bool_decide (NoDup rkeys)); simpl; [by exists LeftSide|by exists BothSides].
Qed.

(** X3: for every left table with a duplicate value in the join key,
    [safe_left_join] under a one-to-one or one-to-many contract fails
    with [CardinalityViolation], which names the left side or both sides,
    whatever [check_row_count].  The tables have the key columns and are
    in the scope of the model of the merge: tables with rows, labels that
    are all different and key columns of the same kinds on both sides, so
    that the merge gets to the validation. *)
Theorem duplicate_left_key_violates_cardinality (L R : DataFrame) on v sfx chk :
  merge_scope on L R →
  has_keys on L → has_keys on R →
  ¬ NoDup (key_values on L) →
  v = one_to_one ∨ v = one_to_many →
  ∃ side, side ≠ RightSide ∧
          safe_left_join L R on v sfx chk = Raise (CardinalityViolation side).
Proof.
  intros [Hon _] HL HR Hdup Hv.
  destruct (validate_left_duplicate v on (key_values on L) (key_values on R) Hon Hv Hdup)
    as (side & Hside & Hval).
  exists side. split; [done|].
  unfold safe_left_join, merge. rewrite (get_merge_keys_has_keys _ _ _ HL HR).
  cbn [mbind result_bind]. unfold key_values, row_key in Hval. by rewrite Hval.
Qed.

Lemma duplicate_left_key_violates_cardinality_witness :
  ∃ side, side ≠ RightSide ∧
          safe_left_join ex_orders ex_users ["user_id"] one_to_many default_suffixes true
            = Raise (CardinalityViolation side).
Proof.
  apply (duplicate_left_key_violates_cardinality
           ex_orders ex_users ["user_id"] one_to_many default_suffixes true).
  - in_scope KStr.
  - repeat constructor.
  - repeat constructor.
  - apply (bool_decide_unpack _). vm_compute. exact I.
  - right. reflexivity.
Defined.

Lemma filter_Permutation_le1 {A} (P : A → Prop) `{!∀ x, Decision (P x)} (l l' : list A) :
  l' ≡ₚ l → length (filter P l) ≤ 1 → filter P l' = filter P l.
Proof.
  intros Hp Hlen.
  assert (filter P l' ≡ₚ filter P l) as Hf by (by rewrite Hp).
  destruct (filter P l) as [|x [|y ms]]; simpl in Hlen; [| |lia].
  - by apply Permutation_nil_r in Hf.
  - by apply Permutation_singleton_r in Hf.
Qed.

(** X4: when the key of the right table is unique, the order of the rows
    of the right table does not matter: [safe_left_join] gives the same
    result, or raises the same exception, on every reordering of them.
    The tables are in the scope of the model of the merge, where keys
    that differ as cells do not match. *)
Theorem safe_left_join_right_row_order (L R R' : DataFrame) on v sfx chk :
  merge_scope on L R →
  columns R' = columns R → rows R' ≡ₚ rows R →
  NoDup (key_values on R) →
  safe_left_join L R' on v sfx chk = safe_left_join L R on v sfx chk.
Proof.
  intros _ Hcols Hperm Hnd.
  assert (merge L R' on v sfx = merge L R on v sfx) as Hm.
  { unfold merge. rewrite Hcols.
    destruct (get_merge_keys on (columns L) (columns R)) as [[li ri]|e] eqn:Hk; [|done].
    destruct (get_merge_keys_Ok_inv _ _ _ _ _ Hk) as [HL HR].
    rewrite (get_merge_keys_has_keys _ _ _ HL HR) in Hk. injection Hk as <- <-.
    cbn [mbind result_bind].
    assert (validate_validate_kwd v on (map (take_cells (key_locs on (columns L))) (rows L))
              (map (take_cells (key_locs on (columns R))) (rows R'))
            = validate_validate_kwd v on (map (take_cells (key_locs on (columns L))) (rows L))
              (map (take_cells (key_locs on (columns R))) (rows R))) as ->.
    { unfold validate_validate_kwd, is_unique.
      assert (bool_decide (NoDup (map (take_cells (key_locs on (columns R))) (rows R')))
              = bool_decide (NoDup (map (take_cells (key_locs on (columns R))) (rows R)))) as ->;
        [|done].
      apply bool_decide_ext. by rewrite Hperm. }
    destruct (validate_validate_kwd _ _ _ _) as [[]|e]; [|done].
    cbn [mbind result_bind].
    assert (left_join_rows (key_locs on (columns L)) (key_locs on (columns R))
              (positions_not_in on 0 (columns R)) (rows L) (rows R')
            = left_join_rows (key_locs on (columns L)) (key_locs on (columns R))
              (positions_not_in on 0 (columns R)) (rows L) (rows R)) as ->; [|done].
    unfold left_join_rows. f_equal. apply map_ext. intros l.
    unfold join_row, matching_rows.
    rewrite (filter_Permutation_le1 _ (rows R) (rows R') Hperm); [done|].
    by apply NoDup_matching_rows. }
  unfold safe_left_join. by rewrite Hm.
Qed.

Lemma safe_left_join_right_row_order_witness :
  safe_left_join ex_orders ex_users_reversed ["user_id"] many_to_one default_suffixes true
  = safe_left_join ex_orders ex_users ["user_id"] many_to_one default_suffixes true.
Proof.
  apply (safe_left_join_right_row_order
           ex_orders ex_users ex_users_reversed ["user_id"] many_to_one default_suffixes true).
  - in_scope KStr.
  - reflexivity.
  - apply perm_swap.
  - apply (bool_decide_unpack _). vm_compute. exact I.
Defined.

Lemma validate_left_independent v on lk lk' rk :
  v = many_to_one ∨ v = many_to_many →
  validate_validate_kwd v on lk rk = validate_validate_kwd v on lk' rk.
Proof. by intros [-> | ->]. Qed.

Lemma left_join_rows_app lidx ridx keep (l1 l2 rs : list row) :
  left_join_rows lidx ridx keep (l1 ++ l2) rs
  = left_join_rows lidx ridx keep l1 rs ++ left_join_rows lidx ridx keep l2 rs.
Proof. unfold left_join_rows. by rewrite map_app, concat_app. Qed.

(** X5: under a contract that leaves the left key free (many-to-one or
    many-to-many), joining works batch by batch: if two left tables with
    the same columns are each joined to the right table, the left table
    made of the rows of the first followed by the rows of the second is
    joined to the rows of the first result followed by those of the
    second.  The tables are in the scope of the model of the merge, and
    the right table has no integer outside the key: its cells are then
    the same in the result of a batch that is matched in full and in the
    result of one that is not. *)
Theorem safe_left_join_app (L1 L2 R : DataFrame) on v sfx chk out1 out2 :
  merge_scope on L1 R → merge_scope on L2 R → nullable_cells on R →
  v = many_to_one ∨ v = many_to_many →
  columns L1 = columns L2 →
  safe_left_join L1 R on v sfx chk = Ok out1 →
  safe_left_join L2 R on v sfx chk = Ok out2 →
  safe_left_join {| columns := columns L1; rows := rows L1 ++ rows L2 |} R on v sfx chk
  = Ok {| columns := columns out1; rows := rows out1 ++ rows out2 |}.
Proof.
  intros _ _ _ Hv Hcols H1 H2.
  apply safe_left_join_Ok_inv in H1 as [Hm1 Hc1].
  apply safe_left_join_Ok_inv in H2 as [Hm2 Hc2].
  apply merge_Ok_inv in Hm1 as (HL1 & HR & Hval1 & ll & rl & Hlab & ->).
  apply merge_Ok_inv in Hm2 as (_ & _ & _ & ll' & rl' & Hlab' & ->).
  rewrite <- Hcols in *. rewrite Hlab in Hlab'. injection Hlab' as <- <-.
  set (L := {| columns := columns L1; rows := rows L1 ++ rows L2 |}).
  assert (merge L R on v sfx =
          Ok {| columns := ll ++ rl;
                rows := left_join_rows (key_locs on (columns L)) (key_locs on (columns R))
                          (positions_not_in on 0 (columns R)) (rows L) (rows R) |}) as Hm.
  { apply merge_Ok; [done|done| |done].
    by rewrite (validate_left_independent v on _ (key_values on L1) _ Hv). }
  unfold safe_left_join. rewrite Hm. cbn [mbind result_bind].
  subst L. cbn [columns rows]. rewrite left_join_rows_app.
  destruct chk; [|done].
  rewrite decide_True; [done|].
  specialize (Hc1 eq_refl). specialize (Hc2 eq_refl). unfold len in *. simpl in *.
  rewrite !length_app. lia.
Qed.

Lemma safe_left_join_app_witness :
  ∃ out,
    safe_left_join ex_orders ex_users ["user_id"] many_to_one default_suffixes true = Ok out ∧
    safe_left_join {| columns := columns ex_orders; rows := rows ex_orders ++ rows ex_orders |}
        ex_users ["user_id"] many_to_one default_suffixes true
      = Ok {| columns := columns out; rows := rows out ++ rows out |}.
Proof.
  destruct (safe_left_join ex_orders ex_users ["user_id"] many_to_one default_suffixes true)
    as [out|e] eqn:H.
  - exists out. split; [reflexivity|].
    apply (safe_left_join_app ex_orders ex_orders ex_users ["user_id"] many_to_one
             default_suffixes true out out);
      [in_scope KStr|in_scope KStr|in_scope KStr|by left|reflexivity|exact H|exact H].
  - exfalso. vm_compute in H. discriminate.
Defined.

Lemma items_overlap_lengths left right sfx ll rl :
  items_overlap_with_suffix left right sfx = Ok (ll, rl) →
  length ll = length left ∧ length rl = length right.
Proof.
  unfold items_overlap_with_suffix.
  destruct (decide (filter (λ x, x ∈ right) left = [])); [by intros [= <- <-]|].
  destruct sfx as [ls rs]. destruct (decide (ls = "" ∧ rs = "")); [done|].
  destruct (_ ++ _); [|done]. intros [= <- <-]. by rewrite !length_map.
Qed.

Lemma join_row_lengths lidx ridx keep (rs : list row) (l o : row) :
  o ∈ join_row lidx ridx keep rs l → length o = length l + length keep.
Proof.
  unfold join_row. destruct (matching_rows ridx (take_cells lidx l) rs) as [|m ms].
  - intros ->%list_elem_of_singleton. by rewrite length_app, length_replicate.
  - intros (r & -> & _)%list_elem_of_fmap.
    unfold take_cells. by rewrite length_app, length_map.
Qed.

Lemma elem_of_concat {A} (x : A) (ls : list (list A)) :
  x ∈ concat ls → ∃ l, x ∈ l ∧ l ∈ ls.
Proof.
  induction ls as [|l ls IH]; simpl; [by intros ?%elem_of_nil|].
  rewrite elem_of_app. intros [Hx|Hx].
  - exists l. split; [done|left].
  - destruct (IH Hx) as (l' & ? & ?). exists l'. split; [done|by right].
Qed.

(** X6: the join keeps tables well formed.  If every row of the left
    table has one cell per column, so has every row of a table that
    [safe_left_join] returns, whatever the rows of the right table; the
    result has the columns of the left table and one column per column
    of the right table that is not a key column. *)
Theorem safe_left_join_well_formed (L R : DataFrame) on v sfx chk out :
  well_formed L →
  safe_left_join L R on v sfx chk = Ok out →
  well_formed out ∧
  length (columns out) = length (columns L) + length (filter (λ c, c ∉ on) (columns R)).
Proof.
  intros HL H. apply safe_left_join_Ok_inv in H as [Hm _].
  apply merge_Ok_inv in Hm as (_ & _ & _ & ll & rl & Hlab & ->).
  apply items_overlap_lengths in Hlab as [Hll Hrl].
  unfold well_formed. cbn [columns rows]. rewrite length_app, Hll, Hrl. split; [|done].
  apply Forall_forall. intros o Ho. unfold left_join_rows in Ho.
  apply elem_of_concat in Ho as (b & Ho & Hb).
  apply list_elem_of_fmap in Hb as (l & -> & Hl).
  apply join_row_lengths in Ho. rewrite Ho, positions_not_in_length.
  unfold well_formed in HL. rewrite Forall_forall in HL. by rewrite (HL l Hl).
Qed.

Lemma safe_left_join_well_formed_witness :
  ∃ out,
    safe_left_join ex_orders ex_users_dup ["user_id"] many_to_many default_suffixes false
      = Ok out ∧
    well_formed out ∧ length (columns out) = 3 + 1.
Proof.
  destruct (safe_left_join ex_orders ex_users_dup ["user_id"] many_to_many
              default_suffixes false) as [out|e] eqn:H.
  - exists out. split; [reflexivity|].
    apply (safe_left_join_well_formed
             ex_orders ex_users_dup ["user_id"] many_to_many default_suffixes false out);
      [repeat constructor|exact H].
  - exfalso. vm_compute in H. discriminate.
Defined.

(** ** The tables of [transform] *)

Lemma get_loc_lookup c cols i : get_loc c cols = Some i → cols !! i = Some c.
Proof.
  revert i. induction cols as [|c' cs IH]; intros i; [done|]. simpl.
  destruct (decide (c = c')) as [->|Hne]; [by intros [= <-]|].
  destruct (get_loc c cs) as [j|]; [|done]. simpl. intros [= <-]. by apply IH.
Qed.

Lemma cell_insert_ne (r : row) i j v : i ≠ j → cell (<[i := v]> r) j = cell r j.
Proof. intros Hne. unfold cell. by rewrite list_lookup_insert_ne. Qed.

(** Setting a column that is there leaves the labels and every other
    column as they are. *)
Lemma set_column_present_columns d c s :
  c ∈ columns d → columns (set_column d c s) = columns d.
Proof.
  intros Hc. unfold set_column. by destruct (get_loc_is_Some _ _ Hc) as [i ->].
Qed.

Lemma set_column_getitem_ne d c s c' :
  c ∈ columns d → c' ≠ c → getitem (set_column d c s) c' = getitem d c'.
Proof.
  intros Hc Hne. unfold getitem. rewrite set_column_present_columns by done.
  destruct (get_loc c' (columns d)) as [j|] eqn:Hj; [|done]. f_equal.
  unfold set_column. destruct (get_loc_is_Some _ _ Hc) as [i Hi]. rewrite Hi. simpl.
  assert (i ≠ j) as Hij.
  { intros ->. apply get_loc_lookup in Hi, Hj. congruence. }
  apply list_eq. intros k. rewrite !list_lookup_fmap, list_lookup_imap.
  destruct (rows d !! k) as [r|]; [|done]. simpl. by rewrite cell_insert_ne.
Qed.

Lemma set_column_has d c s : c ∈ columns (set_column d c s).
Proof.
  unfold set_column. destruct (get_loc c (columns d)) as [i|] eqn:Hi; simpl.
  - apply get_loc_lookup in Hi. by eapply list_elem_of_lookup_2.
  - apply elem_of_app. right. left.
Qed.

Lemma positions_not_in_lookup cs c cols i j :
  get_loc c (drop_labels cs cols) = Some j →
  ∃ k, get_loc c cols = Some k ∧ positions_not_in cs i cols !! j = Some (i + k).
Proof.
  revert i j. induction cols as [|c' cols IH]; intros i j; [done|].
  unfold drop_labels. rewrite filter_cons. simpl.
  destruct (decide (c' ∈ cs)) as [Hin|Hin].
  - rewrite decide_False by tauto. intros Hj.
    assert (c ≠ c') as Hne.
    { intros ->. assert (c' ∈ filter (λ c, c ∉ cs) cols) as Hc.
      { destruct (decide (c' ∈ filter (λ c, c ∉ cs) cols)) as [|Hn]; [done|].
        by rewrite (get_loc_None _ _ Hn) in Hj. }
      by apply list_elem_of_filter in Hc as [? _]. }
    destruct (IH (S i) j Hj) as (k & Hk & Hp).
    exists (S k). rewrite decide_False by done. rewrite Hk. split; [done|].
    rewrite Hp. f_equal. lia.
  - rewrite decide_True by done. simpl.
    destruct (decide (c = c')) as [->|Hne].
    + intros [= <-]. exists 0. split; [done|]. simpl. f_equal. lia.
    + destruct (get_loc c (filter (λ c, c ∉ cs) cols)) as [j'|] eqn:Hj'; [|done].
      simpl. intros [= <-]. destruct (IH (S i) j' Hj') as (k & Hk & Hp).
      exists (S k). rewrite Hk. split; [done|]. simpl. rewrite Hp. f_equal. lia.
Qed.

(** A column that is not dropped holds the cells it held. *)
Lemma drop_columns_getitem d cs c :
  c ∉ cs → getitem (drop_columns d cs) c = getitem d c.
Proof.
  intros Hc. unfold getitem, drop_columns. simpl.
  destruct (get_loc c (drop_labels cs (columns d))) as [j|] eqn:Hj.
  - destruct (positions_not_in_lookup cs c (columns d) 0 j Hj) as (k & -> & Hp).
    f_equal. rewrite <- list_fmap_compose. apply list_fmap_ext. intros i r _. simpl.
    unfold cell at 1, take_cells. by rewrite list_lookup_fmap, Hp.
  - destruct (decide (c ∈ columns d)) as [Hin|Hin]; [|by rewrite get_loc_None].
    assert (c ∈ drop_labels cs (columns d)) as Hin' by (by apply list_elem_of_filter).
    apply get_loc_is_Some in Hin' as [? ?]. congruence.
Qed.

Lemma drop_columns_len d cs : len (drop_columns d cs) = len d.
Proof. unfold len, drop_columns. simpl. by rewrite length_map. Qed.

Lemma filter_ext_elem {A} (P Q : A → Prop) `{!∀ x, Decision (P x)} `{!∀ x, Decision (Q x)}
    (l : list A) :
  (∀ x, x ∈ l → P x ↔ Q x) → filter P l = filter Q l.
Proof.
  induction l as [|x l IH]; intros Hext; [done|]. rewrite !filter_cons.
  rewrite IH by (intros y Hy; apply Hext; by right).
  destruct (decide (P x)) as [HP|HP], (decide (Q x)) as [HQ|HQ]; try done.
  - destruct HQ. apply Hext; [left|done].
  - destruct HP. apply Hext; [left|done].
Qed.

Lemma assert_unique_key_Ok d key :
  assert_unique_key d key = Ok () → ∃ s, getitem d key = Ok s ∧ NoDup s.
Proof.
  unfold assert_unique_key. intros H. apply rbind_Ok_inv in H as (s & Hs & H).
  exists s. split; [done|]. destruct (decide (NoDup s)) as [|Hn]; [done|].
  by rewrite (bool_decide_eq_false_2 _ Hn) in H.
Qed.

Lemma key_values_single key d s :
  getitem d key = Ok s → key_values [key] d = map (λ v, [v]) s.
Proof.
  unfold getitem, key_values, row_key, key_locs. simpl.
  destruct (get_loc key (columns d)) as [i|]; [|done]. intros [= <-]. simpl.
  rewrite <- list_fmap_compose. by apply list_fmap_ext.
Qed.

Section objects.
Context `{T : Transforms}.

Local Opaque require_columns assert_non_empty assert_unique_key safe_left_join
  run_stats set_column drop_columns getitem.

(** The references that [transform] returns, in a run followed step by
    step: the users object is the first object the call creates, the
    analytics table and the orders view are the last two. *)
Lemma transform_run_locs o u w O U oc us an st w' :
  heap w !! o = Some O → heap w !! u = Some U →
  transform o u (ext w []) = (Ok (oc, us, an, st), w') →
  ∃ news, w' = ext w news ∧ us = length (heap w) ∧
          S an = oc ∧ S oc = length (heap w) + length news ∧ us < an.
Proof.
  intros Ho Hu. unfold transform.
  run_check Ho.
  destruct (require_columns O _) as [[]|e] eqn:E1; [|done].
  run_check Hu.
  destruct (require_columns U _) as [[]|e] eqn:E2; [|done].
  run_check Ho.
  destruct (assert_non_empty O _) as [[]|e] eqn:E3; [|done].
  run_check Hu.
  destruct (assert_non_empty U _) as [[]|e] eqn:E4; [|done].
  run_check Hu.
  destruct (assert_unique_key U _) as [[]|e] eqn:E5; [|done].
  cbv beta iota.
  run_with copy_old. run_with deref_new.
  destruct (decide ("country" ∈ columns U)) as [Hc|Hc];
    [ run_assoc;
      destruct (getitem U "country") as [s|e] eqn:E6; run_pure; [|done];
      run_assoc;
      destruct (normalize_text s) as [s'|e] eqn:E7; run_pure; [|done];
      run_with setitem_new; simpl (<[_:=_]> _)
    | rewrite bind_ret ].
  all: run_with copy_old.
  all: destruct (enforce_schema O) as [o1|e] eqn:E8;
    [run_ok pipe_new_Ok E8 | run_raise pipe_new_Raise E8; done].
  all: destruct (getitem o1 "status" ≫= λ s, normalize_text s ≫= λ s', apply_mapping s' status_map)
    as [sc|e] eqn:E9;
    [run_ok assign_new_Ok E9 | run_raise assign_new_Raise E9; done].
  all: destruct (add_missing_flags (set_column o1 "status_clean" sc)
                   ["amount"; "quantity"; "created_at"; "status"]) as [o3|e] eqn:E10;
    [run_ok pipe_new_Ok E10 | run_raise pipe_new_Raise E10; done].
  all: destruct (parse_datetime o3 "created_at" true) as [o4|e] eqn:E11;
    [run_ok pipe_new_Ok E11 | run_raise pipe_new_Raise E11; done].
  all: destruct (add_time_parts o4 "created_at") as [o5|e] eqn:E12;
    [run_ok pipe_new_Ok E12 | run_raise pipe_new_Raise E12; done].
  all: run_with deref_new.
  all: destruct (decide ("amount" ∈ columns o5)) as [Ha|Ha];
    [ run_assoc;
      destruct (getitem o5 "amount" ≫= λ s, winsorize s) as [sw|e] eqn:E13;
        [run_ok assign_new_Ok E13 | run_raise assign_new_Raise E13; done];
      destruct (add_outlier_flag (set_column o5 "amount_winsor" sw) "amount")
        as [o7|e] eqn:E14;
        [run_ok pipe_new_Ok E14 | run_raise pipe_new_Raise E14; done]
    | rewrite bind_ret ].
  all: run_with deref_new.
  all: run_with deref_new.
  all: match goal with
       | |- context [ safe_left_join ?l ?r ?on ?v ?sfx ?chk ] =>
           destruct (safe_left_join l r on v sfx chk) as [an'|e] eqn:E15; run_pure; [|done]
       end.
  all: run_with alloc_ext.
  all: run_with deref_new.
  all: run_with deref_new.
  all: run_with alloc_ext.
  all: run_with deref_new.
  all: run_with deref_old.
  all: run_with deref_old.
  all: match goal with
       | |- context [ run_stats ?a ?b ?c ] =>
           destruct (run_stats a b c) as [st'|e] eqn:E16; run_pure; [|done]
       end.
  all: cbn [mret M_ret]; intros [= <- <- <- <- <-].
  all: eexists; split; [reflexivity|]; simpl; lia.
Qed.

End objects.

Section tables_of_transform.
Context `{T : Transforms}.

Lemma clean_users_keeps U US :
  clean_users U = Ok US →
  columns US = columns U ∧ len US = len U ∧
  ∀ c, c ≠ "country" → getitem US c = getitem U c.
Proof.
  unfold clean_users. destruct (decide ("country" ∈ columns U)) as [Hc|Hc];
    [|by intros [= <-]].
  intros H. apply rbind_Ok_inv in H as (s & _ & H).
  apply rbind_Ok_inv in H as (s' & _ & [= <-]).
  split; [by apply set_column_present_columns|]. split; [apply set_column_len|].
  intros c Hne. by apply set_column_getitem_ne.
Qed.

Lemma transform_tables_Ok_inv O U OC US AN st :
  transform_tables O U = Ok (OC, US, AN, st) →
  quality_gate O U = Ok () ∧ clean_users U = Ok US ∧
  ∃ orders, clean_orders O = Ok orders ∧
    safe_left_join orders US ["user_id"] many_to_one default_suffixes true = Ok AN ∧
    OC = drop_columns AN
           (filter (λ c, c ∈ columns AN) (filter (λ c, c ≠ "user_id") (columns US))) ∧
    run_stats O U AN = Ok st.
Proof.
  unfold transform_tables. intros H.
  apply rbind_Ok_inv in H as ([] & Hq & H).
  apply rbind_Ok_inv in H as (US' & Hu & H).
  apply rbind_Ok_inv in H as (O' & Ho & H).
  apply rbind_Ok_inv in H as (AN' & Hj & H). cbv zeta in H.
  apply rbind_Ok_inv in H as (st' & Hst & H). injection H as <- <- <- <-.
  eauto 10.
Qed.

(** What a call of [transform] that returned left behind. *)
Lemma transform_Ok_inv o u w O U oc us an st w' :
  heap w !! o = Some O → heap w !! u = Some U →
  transform o u w = (Ok (oc, us, an, st), w') →
  ∃ news OC US AN,
    w' = ext w news ∧
    heap w' !! oc = Some OC ∧ heap w' !! us = Some US ∧ heap w' !! an = Some AN ∧
    transform_tables O U = Ok (OC, US, AN, st).
Proof.
  intros Ho Hu Ht. destruct (transform_run o u w O U Ho Hu) as (news & Hw & Hpost).
  rewrite Ht in Hw, Hpost. simpl in Hw, Hpost.
  destruct Hpost as (OC & US & AN & ? & ? & ? & ?). eauto 10.
Qed.

(** X7: the three tables that [transform] returns are objects of their
    own: three different objects, none of which existed before the call,
    so that no result is an alias of an argument or of another result.
    The call touches no file and makes no file-system call. *)
Theorem transform_returns_new_objects o u w O U oc us an st w' :
  heap w !! o = Some O → heap w !! u = Some U →
  transform o u w = (Ok (oc, us, an, st), w') →
  NoDup [oc; us; an] ∧
  Forall (λ l, heap w !! l = None ∧ is_Some (heap w' !! l)) [oc; us; an] ∧
  files w' = files w ∧ trace w' = trace w.
Proof.
  intros Ho Hu Ht. rewrite <- (ext_nil w) in Ht.
  destruct (transform_run_locs _ _ _ _ _ _ _ _ _ _ Ho Hu Ht)
    as (news & -> & -> & <- & Hoc & Hlt).
  split; [|split; [|done]].
  - repeat constructor; rewrite ?elem_of_cons, ?elem_of_nil; lia.
  - rewrite !Forall_cons, Forall_nil, ext_heap.
    repeat split; try (apply lookup_ge_None_2; lia);
      apply lookup_lt_is_Some_2; rewrite length_app; lia.
Qed.

(** X8: the users table that [transform] returns is the raw users table
    with its [country] column normalized and nothing else changed: the
    same columns, the same number of rows, and the same cells in every
    column but [country]. *)
Theorem transform_users_only_country_changes o u w O U oc us an st w' :
  heap w !! o = Some O → heap w !! u = Some U →
  transform o u w = (Ok (oc, us, an, st), w') →
  ∃ US, heap w' !! us = Some US ∧
        columns US = columns U ∧ len US = len U ∧
        ∀ c, c ≠ "country" → getitem US c = getitem U c.
Proof.
  intros Ho Hu Ht.
  destruct (transform_Ok_inv _ _ _ _ _ _ _ _ _ _ Ho Hu Ht)
    as (news & OC & US & AN & _ & _ & Hus & _ & Htab).
  apply transform_tables_Ok_inv in Htab as (_ & Hcu & _).
  exists US. split; [done|]. by apply clean_users_keeps.
Qed.

(** X9: the orders view that [transform] returns is the analytics table
    without the columns that carry the label of a users column other
    than [user_id]: it has the rows of the analytics table, its columns
    are the remaining columns of the analytics table in their order, and
    each of them holds the cells it holds in the analytics table. *)
Theorem transform_orders_clean_view o u w O U oc us an st w' :
  heap w !! o = Some O → heap w !! u = Some U →
  transform o u w = (Ok (oc, us, an, st), w') →
  ∃ OC US AN,
    heap w' !! oc = Some OC ∧ heap w' !! us = Some US ∧ heap w' !! an = Some AN ∧
    len OC = len AN ∧
    columns OC = filter (λ c, c = "user_id" ∨ c ∉ columns US) (columns AN) ∧
    ∀ c, c = "user_id" ∨ c ∉ columns US → getitem OC c = getitem AN c.
Proof.
  intros Ho Hu Ht.
  destruct (transform_Ok_inv _ _ _ _ _ _ _ _ _ _ Ho Hu Ht)
    as (news & OC & US & AN & _ & Hoc & Hus & Han & Htab).
  apply transform_tables_Ok_inv in Htab as (_ & _ & orders & _ & _ & -> & _).
  eexists _, US, AN. split; [done|]. split; [done|]. split; [done|].
  split; [apply drop_columns_len|]. split.
  - simpl. unfold drop_labels. apply filter_ext_elem. intros c Hc.
    rewrite !list_elem_of_filter. split.
    + intros Hn. destruct (decide (c = "user_id")) as [|Hne]; [by left|right].
      intros Hin. apply Hn. done.
    + intros [->|Hn] (_ & Hne & Hin); done.
  - intros c Hc. apply drop_columns_getitem. rewrite !list_elem_of_filter.
    intros (_ & Hne & Hin). by destruct Hc.
Qed.

(** X10: the quality gate makes the join of [transform] safe.  Once the
    checks passed, the uniqueness of [user_id] among them, and the users
    were cleaned, the join cannot fail on the cardinality contract nor on
    the row count, whatever the orders table it is given: it fails only
    when that table has no [user_id] column, with [KeyError], or when the
    suffix produces a label twice.  The labels of the users table are all
    different, and so are those of the orders table; when the orders
    table has a [user_id] column, its cells and those of the users are
    key cells of the same kind, as the scope of the model of the merge
    asks. *)
Theorem gate_makes_join_cardinality_safe O U US orders e :
  NoDup (columns U) → NoDup (columns orders) →
  ("user_id" ∈ columns orders → same_key_kinds ["user_id"] orders US) →
  quality_gate O U = Ok () → clean_users U = Ok US →
  safe_left_join orders US ["user_id"] many_to_one default_suffixes true = Raise e →
  (e = KeyError "user_id" ∧ "user_id" ∉ columns orders) ∨
  ∃ labels, e = MergeError (SuffixDuplicates labels).
Proof.
  intros _ _ _ Hq Hcu Hj.
  assert (∃ ids, getitem US "user_id" = Ok ids ∧ NoDup ids) as (ids & Hids & Hnd).
  { unfold quality_gate in Hq. do 4 (apply rbind_Ok_inv in Hq as ([] & _ & Hq)).
    apply assert_unique_key_Ok in Hq as (ids & Hids & Hnd). exists ids. split; [|done].
    apply clean_users_keeps in Hcu as (_ & _ & Hsame). by rewrite Hsame. }
  assert ("user_id" ∈ columns US) as HR.
  { destruct (decide ("user_id" ∈ columns US)) as [|Hn]; [done|].
    unfold getitem in Hids. by rewrite (get_loc_None _ _ Hn) in Hids. }
  destruct (decide ("user_id" ∈ columns orders)) as [HL|HL].
  2:{ left. split; [|done]. unfold safe_left_join, merge in Hj. simpl in Hj.
      destruct (get_loc_is_Some _ _ HR) as [j Hjj]. rewrite Hjj in Hj.
      rewrite (get_loc_None _ _ HL) in Hj. simpl in Hj. congruence. }
  right.
  assert (NoDup (key_values ["user_id"] US)) as Hkeys.
  { rewrite (key_values_single _ _ _ Hids). apply NoDup_fmap_2; [|done]. by intros ?? [=]. }
  assert (validate_validate_kwd many_to_one ["user_id"]
            (key_values ["user_id"] orders) (key_values ["user_id"] US) = Ok ()) as Hval.
  { unfold validate_validate_kwd, is_unique. rewrite decide_False by done.
    by rewrite bool_decide_eq_true_2. }
  destruct (items_overlap_with_suffix (columns orders)
              (drop_labels ["user_id"] (columns US)) default_suffixes) as [[ll rl]|e'] eqn:Hlab.
  - exfalso. unfold safe_left_join in Hj.
    rewrite (merge_Ok orders US ["user_id"] many_to_one default_suffixes ll rl) in Hj;
      [|by repeat constructor|by repeat constructor|done|done].
    pose proof (left_join_rows_augmented ["user_id"] orders US (rows orders) Hkeys) as Haug.
    apply Forall2_length in Haug.
    cbn [mbind result_bind] in Hj. unfold len in Hj. cbn [rows] in Hj.
    by rewrite decide_True in Hj.
  - assert (merge orders US ["user_id"] many_to_one default_suffixes = Raise e') as Hm.
    { unfold merge. rewrite (get_merge_keys_has_keys ["user_id"]);
        [|by repeat constructor|by repeat constructor].
      cbn [mbind result_bind]. unfold key_values, row_key in Hval. rewrite Hval.
      cbn [mbind result_bind]. by rewrite Hlab. }
    unfold safe_left_join in Hj. rewrite Hm in Hj. simpl in Hj. injection Hj as <-.
    unfold items_overlap_with_suffix, default_suffixes in Hlab.
    destruct (decide (filter _ _ = [])); [done|].
    rewrite decide_False in Hlab by (by intros [_ ?]).
    destruct (_ ++ _) as [|x xs]; [done|]. injection Hlab as <-. by eexists.
Qed.

End tables_of_transform.

Section shapes_of_transform.
Context `{T : Transforms} `{!TransformsContract T}.

Lemma clean_orders_columns O O' :
  (∀ c, c ∈ orders_columns → c ∈ columns O) →
  clean_orders O = Ok O' →
  ∀ c, c ∈ orders_columns ++ ["status_clean"; "amount_winsor"] → c ∈ columns O'.
Proof.
  intros HO H. unfold clean_orders in H.
  apply rbind_Ok_inv in H as (o1 & H1 & H). apply enforce_schema_shape in H1 as [_ C1].
  apply rbind_Ok_inv in H as (sc & _ & H).
  apply rbind_Ok_inv in H as (o3 & H3 & H). apply add_missing_flags_shape in H3 as [_ C3].
  apply rbind_Ok_inv in H as (o4 & H4 & H). apply parse_datetime_shape in H4 as [_ C4].
  apply rbind_Ok_inv in H as (o5 & H5 & H). apply add_time_parts_shape in H5 as [_ C5].
  assert (∀ c, c ∈ orders_columns ++ ["status_clean"] → c ∈ columns o5) as C.
  { intros c Hc. apply C5, C4, C3. apply elem_of_app in Hc as [Hc|Hc].
    - apply set_column_columns, C1; [done|by apply HO].
    - apply list_elem_of_singleton in Hc as ->. apply set_column_has. }
  rewrite decide_True in H.
  2:{ apply C, elem_of_app. left. unfold orders_columns. by repeat constructor. }
  apply rbind_Ok_inv in H as (sw & _ & H). apply add_outlier_flag_shape in H as [_ C7].
  intros c Hc. apply C7.
  rewrite elem_of_app, !elem_of_cons, elem_of_nil in Hc.
  destruct Hc as [Hc|[->|[->|[]]]].
  - apply set_column_columns, C, elem_of_app. by left.
  - apply set_column_columns, C, elem_of_app. right. by left.
  - apply set_column_has.
Qed.

(** X11: [transform] neither drops nor duplicates a row.  When the table
    helpers return one row per row, as the specification describes them,
    the analytics table and the orders view have exactly the row count
    of the raw orders table, and the users table that of the raw users
    table. *)
Theorem transform_keeps_row_counts o u w O U oc us an st w' :
  heap w !! o = Some O → heap w !! u = Some U →
  transform o u w = (Ok (oc, us, an, st), w') →
  ∃ OC US AN,
    heap w' !! oc = Some OC ∧ heap w' !! us = Some US ∧ heap w' !! an = Some AN ∧
    len AN = len O ∧ len OC = len O ∧ len US = len U.
Proof.
  intros Ho Hu Ht.
  destruct (transform_Ok_inv _ _ _ _ _ _ _ _ _ _ Ho Hu Ht)
    as (news & OC & US & AN & _ & Hoc & Hus & Han & Htab).
  exists OC, US, AN. split; [done|]. split; [done|]. split; [done|].
  apply transform_tables_Ok_inv in Htab as (_ & Hcu & orders & Hco & Hj & -> & _).
  apply clean_users_shape in Hcu as [HlU _].
  apply clean_orders_shape in Hco as [HlO _].
  apply safe_left_join_checked_len in Hj.
  split; [congruence|]. split; [|done]. rewrite drop_columns_len. congruence.
Qed.

(** X12: the schema of the analytics table.  When the table helpers keep
    the columns they are given, as the specification describes them, the
    analytics table of a call that returned has the six columns required
    of the orders, [status_clean], [amount_winsor] (the test on [amount]
    always holds there), and [country] and [signup_date]. *)
Theorem transform_analytics_schema o u w O U oc us an st w' :
  heap w !! o = Some O → heap w !! u = Some U →
  transform o u w = (Ok (oc, us, an, st), w') →
  ∃ AN, heap w' !! an = Some AN ∧
    ∀ c, c ∈ orders_columns ++ ["status_clean"; "amount_winsor"; "country"; "signup_date"] →
         c ∈ columns AN.
Proof.
  intros Ho Hu Ht.
  destruct (transform_Ok_inv _ _ _ _ _ _ _ _ _ _ Ho Hu Ht)
    as (news & OC & US & AN & _ & _ & _ & Han & Htab).
  exists AN. split; [done|].
  apply transform_tables_Ok_inv in Htab as (Hq & Hcu & orders & Hco & Hj & _ & _).
  apply quality_gate_Ok in Hq as (HO & HU & _ & _).
  apply clean_users_shape in Hcu as [_ HcU].
  pose proof (clean_orders_columns _ _ HO Hco) as HcO.
  apply safe_left_join_default_columns in Hj as [HcL HcR].
  intros c Hc. rewrite elem_of_app, !elem_of_cons, elem_of_nil in Hc.
  destruct Hc as [Hc|[->|[->|[->|[->|[]]]]]].
  - apply HcL, HcO, elem_of_app. by left.
  - apply HcL, HcO, elem_of_app. right. by left.
  - apply HcL, HcO, elem_of_app. right. right. by left.
  - apply HcR; [apply HcU, HU; by repeat constructor|].
    intros Hin. apply list_elem_of_singleton in Hin. discriminate.
  - apply HcR; [apply HcU, HU; by repeat constructor|].
    intros Hin. apply list_elem_of_singleton in Hin. discriminate.
Qed.

End shapes_of_transform.

Lemma notna_sum_all (s : Series) :
  notna_sum s = length s ↔ Forall (λ v, isna v = false) s.
Proof.
  unfold notna_sum. induction s as [|v s IH]; [by split; [constructor|]|].
  rewrite filter_cons. pose proof (length_filter (λ v, isna v = false) s) as Hle.
  destruct (decide (isna v = false)) as [Hv|Hv]; simpl.
  - rewrite Forall_cons. split.
    + intros [= H]. split; [done|]. by apply IH.
    + intros [_ H]. f_equal. by apply IH.
  - split; [lia|]. intros H. by apply Forall_cons in H as [? _].
Qed.

Lemma fraction_bounds k n :
  n ≠ 0 → k ≤ n →
  (0 ≤ fraction k n)%Qc ∧ (fraction k n ≤ 1)%Qc ∧ (fraction k n = 1%Qc ↔ k = n).
Proof.
  intros Hn Hk. unfold fraction.
  assert (Z.pos (Pos.of_nat n) = Z.of_nat n) as Hp by lia.
  split; [|split].
  - unfold Qcle, Q2Qc. cbn [this]. rewrite !Qred_correct.
    unfold Qle. cbn [Qnum Qden]. lia.
  - unfold Qcle, Q2Qc. cbn [this]. rewrite !Qred_correct.
    unfold Qle. cbn [Qnum Qden]. lia.
  - split.
    + intros H. apply (f_equal this) in H. unfold Q2Qc in H. cbn [this] in H.
      assert ((Z.of_nat k # Pos.of_nat n) == 1)%Q as Heq.
      { rewrite <- (Qred_correct (Z.of_nat k # Pos.of_nat n)). by rewrite H. }
      unfold Qeq in Heq. cbn [Qnum Qden] in Heq. lia.
    + intros ->. apply Qc_is_canon. unfold Q2Qc. cbn [this]. rewrite !Qred_correct.
      unfold Qeq. cbn [Qnum Qden]. lia.
Qed.

(** X13: on an analytics table whose labels are all different, the
    statistics of [transform] never raise, and their [country_match_rate]
    has three cases: it is [None] when the table has no [country] column;
    it is not a number when the table has that column and no row;
    otherwise it is a number between 0 and 1, which is 1 exactly when no
    cell of the column is missing. *)
Theorem run_stats_country_match_rate (O U AN : DataFrame) :
  NoDup (columns AN) →
  ∃ st r,
    run_stats O U AN = Ok st ∧
    dict_get "country_match_rate" st = Some r ∧
    ("country" ∉ columns AN → r = PNone) ∧
    (∀ cs, getitem AN "country" = Ok cs →
       (len AN = 0 → r = PFloat NaN) ∧
       (len AN ≠ 0 →
          ∃ q, r = PFloat (Float q) ∧ (0 ≤ q)%Qc ∧ (q ≤ 1)%Qc ∧
               (q = 1%Qc ↔ Forall (λ v, isna v = false) cs))).
Proof.
  intros _. unfold run_stats.
  assert (∃ m, (if decide ("created_at" ∈ columns AN)
                then getitem AN "created_at" ≫= λ s, Ok (PInt (Z.of_nat (isna_sum s)))
                else Ok PNone) = Ok m) as [m ->].
  { destruct (decide ("created_at" ∈ columns AN)) as [Hin|]; [|by eexists].
    destruct (getitem_Ok _ _ Hin) as (s & -> & _). by eexists. }
  cbn [mbind result_bind].
  destruct (decide ("country" ∈ columns AN)) as [Hin|Hin].
  - destruct (getitem_Ok _ _ Hin) as (cs & Hcs & Hlen). rewrite Hcs.
    cbn [mbind result_bind]. eexists _, _. split; [reflexivity|]. split; [reflexivity|].
    split; [done|]. intros cs' [= <-]. split.
    + intros Hz. rewrite Hz in Hlen. by destruct cs.
    + intros Hnz. rewrite one_minus_isna_mean by (intros ->; simpl in Hlen; lia).
      eexists. split; [reflexivity|].
      pose proof (isna_notna_sum cs) as Hsum.
      destruct (fraction_bounds (notna_sum cs) (length cs)) as (H0 & H1 & Heq); [lia|lia|].
      split; [done|]. split; [done|]. rewrite Heq. apply notna_sum_all.
  - eexists _, _. split; [reflexivity|]. split; [reflexivity|]. split; [done|].
    intros cs Hcs. unfold getitem in Hcs. by rewrite (get_loc_None _ _ Hin) in Hcs.
Qed.

Lemma run_stats_country_match_rate_witness :
  ∃ st r,
    run_stats raw_orders_table raw_users_table ex_users = Ok st ∧
    dict_get "country_match_rate" st = Some r ∧
    ("country" ∉ columns ex_users → r = PNone) ∧
    (∀ cs, getitem ex_users "country" = Ok cs →
       (len ex_users = 0 → r = PFloat NaN) ∧
       (len ex_users ≠ 0 →
          ∃ q, r = PFloat (Float q) ∧ (0 ≤ q)%Qc ∧ (q ≤ 1)%Qc ∧
               (q = 1%Qc ↔ Forall (λ v, isna v = false) cs))).
Proof.
  apply (run_stats_country_match_rate raw_orders_table raw_users_table ex_users).
  apply (bool_decide_unpack _). vm_compute. exact I.
Defined.

Lemma transform_returns_new_objects_witness :
  let w := ex_objects raw_orders_table raw_users_table in
  ∃ oc us an st w',
    transform (T := spec_transforms) 0 1 w = (Ok (oc, us, an, st), w') ∧
    NoDup [oc; us; an] ∧
    Forall (λ l, heap w !! l = None ∧ is_Some (heap w' !! l)) [oc; us; an] ∧
    files w' = files w ∧ trace w' = trace w.
Proof.
  intros w.
  destruct (transform (T := spec_transforms) 0 1 w) as [[[[[oc us] an] st]|e] w'] eqn:Ht.
  - exists oc, us, an, st, w'. split; [reflexivity|].
    apply (transform_returns_new_objects (T := spec_transforms) 0 1 w
             raw_orders_table raw_users_table oc us an st w');
      [reflexivity|reflexivity|exact Ht].
  - exfalso. vm_compute in Ht. discriminate.
Defined.

Lemma transform_users_only_country_changes_witness :
  let w := ex_objects raw_orders_table raw_users_table in
  ∃ oc us an st w' US,
    transform (T := spec_transforms) 0 1 w = (Ok (oc, us, an, st), w') ∧
    heap w' !! us = Some US ∧
    columns US = columns raw_users_table ∧ len US = len raw_users_table ∧
    ∀ c, c ≠ "country" → getitem US c = getitem raw_users_table c.
Proof.
  intros w.
  destruct (transform (T := spec_transforms) 0 1 w) as [[[[[oc us] an] st]|e] w'] eqn:Ht.
  - destruct (transform_users_only_country_changes (T := spec_transforms) 0 1 w
                raw_orders_table raw_users_table oc us an st w') as (US & HUS);
      [reflexivity|reflexivity|exact Ht|].
    exists oc, us, an, st, w', US. split; [reflexivity|exact HUS].
  - exfalso. vm_compute in Ht. discriminate.
Defined.

Lemma transform_orders_clean_view_witness :
  let w := ex_objects raw_orders_table raw_users_table in
  ∃ oc us an st w' OC US AN,
    transform (T := spec_transforms) 0 1 w = (Ok (oc, us, an, st), w') ∧
    heap w' !! oc = Some OC ∧ heap w' !! us = Some US ∧ heap w' !! an = Some AN ∧
    len OC = len AN ∧
    columns OC = filter (λ c, c = "user_id" ∨ c ∉ columns US) (columns AN) ∧
    ∀ c, c = "user_id" ∨ c ∉ columns US → getitem OC c = getitem AN c.
Proof.
  intros w.
  destruct (transform (T := spec_transforms) 0 1 w) as [[[[[oc us] an] st]|e] w'] eqn:Ht.
  - destruct (transform_orders_clean_view (T := spec_transforms) 0 1 w
                raw_orders_table raw_users_table oc us an st w') as (OC & US & AN & H);
      [reflexivity|reflexivity|exact Ht|].
    exists oc, us, an, st, w', OC, US, AN. split; [reflexivity|exact H].
  - exfalso. vm_compute in Ht. discriminate.
Defined.

Lemma gate_makes_join_cardinality_safe_witness :
  ∃ e,
    safe_left_join ex_orders_no_key clean_users_table ["user_id"] many_to_one
      default_suffixes true = Raise e ∧
    ((e = KeyError "user_id" ∧ "user_id" ∉ columns ex_orders_no_key) ∨
     ∃ labels, e = MergeError (SuffixDuplicates labels)).
Proof.
  exists (KeyError "user_id"). split; [vm_compute; reflexivity|].
  apply (gate_makes_join_cardinality_safe (T := spec_transforms)
           raw_orders_table raw_users_table clean_users_table ex_orders_no_key
           (KeyError "user_id")).
  - apply (bool_decide_unpack _). vm_compute. exact I.
  - apply (bool_decide_unpack _). vm_compute. exact I.
  - intros Hin. exfalso. apply list_elem_of_singleton in Hin. discriminate.
  - vm_compute. reflexivity.
  - vm_compute. reflexivity.
  - vm_compute. reflexivity.
Defined.

Lemma transform_keeps_row_counts_witness :
  let w := ex_objects raw_orders_table raw_users_table in
  ∃ oc us an st w' OC US AN,
    transform (T := spec_transforms) 0 1 w = (Ok (oc, us, an, st), w') ∧
    heap w' !! oc = Some OC ∧ heap w' !! us = Some US ∧ heap w' !! an = Some AN ∧
    len AN = len raw_orders_table ∧ len OC = len raw_orders_table ∧
    len US = len raw_users_table.
Proof.
  intros w.
  destruct (transform (T := spec_transforms) 0 1 w) as [[[[[oc us] an] st]|e] w'] eqn:Ht.
  - destruct (transform_keeps_row_counts (T := spec_transforms)
                (TransformsContract0 := spec_transforms_contract) 0 1 w
                raw_orders_table raw_users_table oc us an st w') as (OC & US & AN & H);
      [reflexivity|reflexivity|exact Ht|].
    exists oc, us, an, st, w', OC, US, AN. split; [reflexivity|exact H].
  - exfalso. vm_compute in Ht. discriminate.
Defined.

Lemma transform_analytics_schema_witness :
  let w := ex_objects raw_orders_table raw_users_table in
  ∃ oc us an st w' AN,
    transform (T := spec_transforms) 0 1 w = (Ok (oc, us, an, st), w') ∧
    heap w' !! an = Some AN ∧
    ∀ c, c ∈ orders_columns ++ ["status_clean"; "amount_winsor"; "country"; "signup_date"] →
         c ∈ columns AN.
Proof.
  intros w.
  destruct (transform (T := spec_transforms) 0 1 w) as [[[[[oc us] an] st]|e] w'] eqn:Ht.
  - destruct (transform_analytics_schema (T := spec_transforms)
                (TransformsContract0 := spec_transforms_contract) 0 1 w
                raw_orders_table raw_users_table oc us an st w') as (AN & H);
      [reflexivity|reflexivity|exact Ht|].
    exists oc, us, an, st, w', AN. split; [reflexivity|exact H].
  - exfalso. vm_compute in Ht. discriminate.
Defined.

(** ** The files of a run *)

Lemma lookup_write_all p fs m :
  write_all fs m !! p = match last_write p fs with Some v => Some v | None => m !! p end.
Proof.
  revert m. induction fs as [|kv fs IH]; intros m; [done|].
  unfold write_all in *. simpl. rewrite IH.
  destruct (last_write p fs); [done|].
  destruct (decide (kv.1 = p)) as [<-|Hne]; [apply lookup_insert_eq|by apply lookup_insert_ne].
Qed.

(** Writing the same files again changes nothing. *)
Lemma write_all_idemp fs m : write_all fs (write_all fs m) = write_all fs m.
Proof.
  apply map_eq. intros p. rewrite !lookup_write_all. by destruct (last_write p fs).
Qed.

Lemma last_write_None p fs : p ∉ fs.*1 → last_write p fs = None.
Proof.
  induction fs as [|kv fs IH]; [done|]. simpl. rewrite not_elem_of_cons. intros [Hne Hin].
  rewrite (IH Hin). by rewrite decide_False.
Qed.

Lemma lookup_write_all_ne p fs m : p ∉ fs.*1 → write_all fs m !! p = m !! p.
Proof. intros H. by rewrite lookup_write_all, last_write_None. Qed.

Lemma artifacts_paths cfg OC US AN st : (artifacts cfg OC US AN st).*1 = outputs cfg.
Proof. done. Qed.

Lemma dict_get_set_eq k v d : dict_get k (dict_set k v d) = Some v.
Proof.
  induction d as [|[k' v'] d IH]; simpl; [by rewrite decide_True|].
  destruct (decide (k = k')) as [->|Hne]; simpl; [by rewrite decide_True|].
  by rewrite decide_False.
Qed.

Lemma dict_get_set_ne k k' v d : k ≠ k' → dict_get k' (dict_set k v d) = dict_get k' d.
Proof.
  intros Hne. induction d as [|[k0 v0] d IH]; simpl.
  { rewrite decide_False; [done|]. by intros ->. }
  destruct (decide (k = k0)) as [->|Hne0]; simpl.
  - by rewrite !decide_False by (by intros ->).
  - destruct (decide (k' = k0)); [done|apply IH].
Qed.

Section files_of_a_run.
Context `{T : Transforms}.

(** A run that loaded its inputs and whose [transform] returned: the
    tables are there, nothing was written yet, and what is left of the run
    is the writing. *)
Lemma run_etl_after_transform cfg w o u w1 oc us an st w2 :
  load_inputs cfg w = (Ok (o, u), w1) →
  transform o u w1 = (Ok (oc, us, an, st), w2) →
  ∃ OC US AN,
    heap w2 !! oc = Some OC ∧ heap w2 !! us = Some US ∧ heap w2 !! an = Some AN ∧
    files w2 = files w ∧ locked w2 = locked w ∧
    trace w2 = trace w ++ [EvRead (raw_orders cfg); EvRead (raw_users cfg)] ∧
    run_etl cfg w = (load_outputs oc us an cfg ≫= λ _, write_run_meta cfg st) w2.
Proof.
  intros Hl Ht.
  apply load_inputs_Ok_inv in Hl as Hl'. destruct Hl' as (O & U & HO & HU & -> & -> & ->).
  destruct (transform_after_load cfg w O U) as (news & Hw & Hpost).
  rewrite Ht in Hw, Hpost. simpl in Hw, Hpost.
  destruct Hpost as (OC & US & AN & Hoc & Hus & Han & _).
  exists OC, US, AN. subst w2. repeat split; try done.
  unfold run_etl. rewrite (bind_Ok _ _ _ _ _ Hl). by rewrite (bind_Ok _ _ _ _ _ Ht).
Qed.

(** The end of a run whose tables are there, when no output path refuses
    a write. *)
Lemma write_phase_Ok cfg oc us an st W OC US AN :
  heap W !! oc = Some OC → heap W !! us = Some US → heap W !! an = Some AN →
  Forall (λ p, p ∉ locked W) (outputs cfg) →
  ∃ W', (load_outputs oc us an cfg ≫= λ _, write_run_meta cfg st) W = (Ok (), W') ∧
        files W' = write_all (artifacts cfg OC US AN st) (files W) ∧
        locked W' = locked W ∧
        trace W' = trace W ++ [ EvMkdir (parent (out_orders_clean cfg));
                                EvWriteTable (out_orders_clean cfg);
                                EvWriteTable (out_users cfg);
                                EvWriteTable (out_analytics cfg);
                                EvMkdir (parent (run_meta cfg));
                                EvWriteText (run_meta cfg) ].
Proof.
  intros Hoc Hus Han Hfree. unfold outputs in Hfree.
  apply Forall_cons in Hfree as [F1 Hfree]. apply Forall_cons in Hfree as [F2 Hfree].
  apply Forall_cons in Hfree as [F3 Hfree]. apply Forall_cons in Hfree as [F4 _].
  unfold mbind, M_bind.
  rewrite (load_outputs_run _ _ _ _ _ _ _ _ Hoc Hus Han). cbv zeta.
  rewrite !decide_False by done.
  rewrite write_run_meta_run. cbv zeta.
  rewrite decide_False by done.
  eexists. split; [done|]. split; [done|]. split; [done|].
  simpl. by rewrite <- !app_assoc.
Qed.

(** The end of a run that returned: no output path refused a write. *)
Lemma write_phase_Ok_inv cfg oc us an st W W' OC US AN :
  heap W !! oc = Some OC → heap W !! us = Some US → heap W !! an = Some AN →
  (load_outputs oc us an cfg ≫= λ _, write_run_meta cfg st) W = (Ok (), W') →
  Forall (λ p, p ∉ locked W) (outputs cfg).
Proof.
  intros Hoc Hus Han. unfold mbind, M_bind.
  rewrite (load_outputs_run _ _ _ _ _ _ _ _ Hoc Hus Han). cbv zeta.
  destruct (decide (out_orders_clean cfg ∈ _)); [done|].
  destruct (decide (out_users cfg ∈ _)); [done|].
  destruct (decide (out_analytics cfg ∈ _)); [done|].
  rewrite write_run_meta_run. cbv zeta.
  destruct (decide (run_meta cfg ∈ _)) as [|F4]; [done|]. intros _.
  simpl in F4. unfold outputs. by repeat constructor.
Qed.

(** X14: a run whose input cannot be read stops at once.  When the
    orders file is missing or is no table, [run_etl] raises the reader's
    error for that path and nothing at all has happened: the users file
    was not even read.  When only the users file cannot be read, the run
    raises the error for that path after the one read, and no file was
    written. *)
Theorem run_etl_unreadable_input cfg w :
  ((∀ O, files w !! raw_orders cfg ≠ Some (CsvFile O)) →
     run_etl cfg w = (Raise (InputError (raw_orders cfg)), w)) ∧
  (∀ O, files w !! raw_orders cfg = Some (CsvFile O) →
     (∀ U, files w !! raw_users cfg ≠ Some (CsvFile U)) →
     (run_etl cfg w).1 = Raise (InputError (raw_users cfg)) ∧
     files (run_etl cfg w).2 = files w ∧
     trace (run_etl cfg w).2 = trace w ++ [EvRead (raw_orders cfg)]).
Proof.
  split.
  - intros HO. unfold run_etl, load_inputs, read_orders_csv, mbind, M_bind.
    destruct (files w !! raw_orders cfg) as [[O| |]|] eqn:E; try done.
    by destruct (HO O).
  - intros O HO HU. unfold run_etl, load_inputs, read_orders_csv, read_users_csv, mbind, M_bind.
    rewrite HO. simpl.
    destruct (files w !! raw_users cfg) as [[U| |]|] eqn:E; try done.
    by destruct (HU U).
Qed.

(** X15: a run that can read, transform and write returns.  When the
    inputs were loaded, [transform] returned and none of the four output
    paths refuses a write, [run_etl] returns; the files are then those of
    the start with the three tables and the metadata document written
    over them, and the file-system calls are those of a complete run. *)
Theorem run_etl_succeeds cfg w o u w1 oc us an st w2 :
  load_inputs cfg w = (Ok (o, u), w1) →
  transform o u w1 = (Ok (oc, us, an, st), w2) →
  Forall (λ p, p ∉ locked w) (outputs cfg) →
  ∃ OC US AN w',
    heap w2 !! oc = Some OC ∧ heap w2 !! us = Some US ∧ heap w2 !! an = Some AN ∧
    run_etl cfg w = (Ok (), w') ∧
    files w' = write_all (artifacts cfg OC US AN st) (files w) ∧
    trace w' = trace w ++ complete_run cfg.
Proof.
  intros Hl Ht Hfree.
  destruct (run_etl_after_transform _ _ _ _ _ _ _ _ _ _ Hl Ht)
    as (OC & US & AN & Hoc & Hus & Han & Hf & Hlk & Htr & Hrun).
  rewrite <- Hlk in Hfree.
  destruct (write_phase_Ok cfg oc us an st w2 OC US AN Hoc Hus Han Hfree)
    as (w' & Hw' & Hfiles & _ & Htrace).
  exists OC, US, AN, w'. rewrite Hrun.
  split; [done|]. split; [done|]. split; [done|]. split; [done|]. split.
  - by rewrite Hfiles, Hf.
  - rewrite Htrace, Htr. by rewrite <- app_assoc.
Qed.

(** X16: a refused write stops the run at that file, and nothing is
    rolled back.  When the inputs were loaded and [transform] returned,
    and the output paths up to some path [p] accept a write while [p]
    refuses it, [run_etl] raises the error of [p]; the artifacts that come
    before [p] have been written and stay, [p] and the ones after it are
    not written. *)
Theorem run_etl_refused_write cfg w o u w1 oc us an st w2 written p rest :
  load_inputs cfg w = (Ok (o, u), w1) →
  transform o u w1 = (Ok (oc, us, an, st), w2) →
  outputs cfg = written ++ p :: rest →
  Forall (λ q, q ∉ locked w) written → p ∈ locked w →
  ∃ OC US AN,
    heap w2 !! oc = Some OC ∧ heap w2 !! us = Some US ∧ heap w2 !! an = Some AN ∧
    (run_etl cfg w).1 = Raise (OSError p) ∧
    files (run_etl cfg w).2
      = write_all (take (length written) (artifacts cfg OC US AN st)) (files w).
Proof.
  intros Hl Ht Hout Hfree Hp.
  destruct (run_etl_after_transform _ _ _ _ _ _ _ _ _ _ Hl Ht)
    as (OC & US & AN & Hoc & Hus & Han & Hf & Hlk & Htr & Hrun).
  exists OC, US, AN. rewrite Hrun. rewrite <- Hlk in Hfree, Hp.
  split; [done|]. split; [done|]. split; [done|].
  unfold mbind, M_bind.
  rewrite (load_outputs_run _ _ _ _ _ _ _ _ Hoc Hus Han). cbv zeta.
  unfold outputs in Hout.
  destruct written as [|q1 [|q2 [|q3 [|q4 more]]]]; simplify_eq/=.
  - rewrite decide_True by done. simpl. by rewrite Hf.
  - apply Forall_cons in Hfree as [F1 _].
    rewrite decide_False by done. rewrite decide_True by done. simpl. by rewrite Hf.
  - apply Forall_cons in Hfree as [F1 Hfree]. apply Forall_cons in Hfree as [F2 _].
    rewrite !decide_False by done. rewrite decide_True by done. simpl. by rewrite Hf.
  - apply Forall_cons in Hfree as [F1 Hfree]. apply Forall_cons in Hfree as [F2 Hfree].
    apply Forall_cons in Hfree as [F3 _].
    rewrite !decide_False by done.
    rewrite write_run_meta_run. cbv zeta.
    rewrite decide_True by done. simpl. by rewrite Hf.
  - by destruct more.
Qed.

(** X17: a run writes to its four output paths only.  Whatever the run
    does, returning or raising at any point, every file at another path
    is after the run what it was before; the raw inputs are read, never
    written, unless the configuration makes an input path an output
    path. *)
Theorem run_etl_writes_only_outputs cfg w p :
  p ∉ outputs cfg → files (run_etl cfg w).2 !! p = files w !! p.
Proof.
  intros Hp.
  destruct (load_inputs cfg w) as [[[o u]|e] w1] eqn:Hl.
  2:{ apply load_inputs_Raise in Hl as Hl'. destruct Hl' as (Hf & _).
      unfold run_etl. rewrite (bind_Raise _ _ _ _ _ Hl). simpl. by rewrite Hf. }
  destruct (transform o u w1) as [[[[[oc us] an] st]|e] w2] eqn:Ht.
  2:{ rewrite (run_etl_transform_Raise _ _ _ _ _ _ _ Hl Ht). simpl.
      apply load_inputs_Ok_inv in Hl as (O & U & HO & HU & -> & -> & ->).
      destruct (transform_after_load cfg w O U) as (news & Hw & _).
      rewrite Ht in Hw. simpl in Hw. by subst w2. }
  destruct (run_etl_after_transform _ _ _ _ _ _ _ _ _ _ Hl Ht)
    as (OC & US & AN & Hoc & Hus & Han & Hf & Hlk & _ & Hrun).
  rewrite Hrun. unfold outputs in Hp.
  rewrite !not_elem_of_cons in Hp. destruct Hp as (P1 & P2 & P3 & P4 & _).
  unfold mbind, M_bind.
  rewrite (load_outputs_run _ _ _ _ _ _ _ _ Hoc Hus Han). cbv zeta.
  destruct (decide (out_orders_clean cfg ∈ _)); [simpl; by rewrite Hf|].
  destruct (decide (out_users cfg ∈ _)).
  { simpl. rewrite lookup_insert_ne by done. by rewrite Hf. }
  destruct (decide (out_analytics cfg ∈ _)).
  { simpl. rewrite !lookup_insert_ne by done. by rewrite Hf. }
  rewrite write_run_meta_run. cbv zeta.
  destruct (decide (run_meta cfg ∈ _)); simpl; rewrite !lookup_insert_ne by done; by rewrite Hf.
Qed.

(** X18: the run is an idempotent overwrite.  When no input path is an
    output path, running [run_etl] again after a run that returned
    returns again and leaves every file as the first run left it. *)
Theorem run_etl_idempotent cfg w w1 :
  raw_orders cfg ∉ outputs cfg → raw_users cfg ∉ outputs cfg →
  run_etl cfg w = (Ok (), w1) →
  ∃ w2, run_etl cfg w1 = (Ok (), w2) ∧ files w2 = files w1.
Proof.
  intros Hro Hru Hrun.
  (* the first run *)
  assert (Hrun' := Hrun). unfold run_etl in Hrun'.
  apply bind_Ok_inv in Hrun' as ([o u] & wl & Hl & Hrun').
  apply bind_Ok_inv in Hrun' as ([[[oc us] an] st] & wt & Ht & _).
  destruct (run_etl_after_transform _ _ _ _ _ _ _ _ _ _ Hl Ht)
    as (OC & US & AN & Hoc & Hus & Han & Hf & Hlk & _ & Hrun1).
  rewrite Hrun1 in Hrun.
  pose proof (write_phase_Ok_inv _ _ _ _ _ _ _ _ _ _ Hoc Hus Han Hrun) as Hfree.
  destruct (write_phase_Ok cfg oc us an st wt OC US AN Hoc Hus Han Hfree)
    as (W' & HW' & Hfiles & Hlocked & _).
  rewrite Hrun in HW'. injection HW' as <-.
  rewrite Hf in Hfiles. rewrite Hlk in Hlocked.
  apply load_inputs_Ok_inv in Hl as (O & U & HO & HU & -> & -> & ->).
  destruct (transform_after_load cfg w O U) as (news & _ & Hpost).
  rewrite Ht in Hpost. simpl in Hpost.
  destruct Hpost as (OC' & US' & AN' & Hoc' & Hus' & Han' & Htab).
  assert (OC' = OC) as -> by congruence. assert (US' = US) as -> by congruence.
  assert (AN' = AN) as -> by congruence.
  (* the second run *)
  assert (files w1 !! raw_orders cfg = Some (CsvFile O)) as HO1.
  { rewrite Hfiles, lookup_write_all_ne; [done|by rewrite artifacts_paths]. }
  assert (files w1 !! raw_users cfg = Some (CsvFile U)) as HU1.
  { rewrite Hfiles, lookup_write_all_ne; [done|by rewrite artifacts_paths]. }
  pose proof (load_inputs_Ok cfg w1 O U HO1 HU1) as Hl2.
  destruct (transform_after_load cfg w1 O U) as (news2 & _ & Hpost2).
  destruct (transform _ _ (loaded cfg O U w1)) as [[[[[oc2 us2] an2] st2]|e] wt2] eqn:Ht2;
    simpl in Hpost2; [|congruence].
  destruct Hpost2 as (OC2 & US2 & AN2 & Hoc2 & Hus2 & Han2 & Htab2).
  rewrite Htab in Htab2. injection Htab2 as <- <- <- <-.
  destruct (run_etl_after_transform _ _ _ _ _ _ _ _ _ _ Hl2 Ht2)
    as (OC3 & US3 & AN3 & Hoc3 & Hus3 & Han3 & Hf2 & Hlk2 & _ & Hrun2).
  assert (OC3 = OC) as -> by congruence. assert (US3 = US) as -> by congruence.
  assert (AN3 = AN) as -> by congruence.
  assert (Forall (λ p, p ∉ locked wt2) (outputs cfg)) as Hfree2.
  { rewrite Hlk2, Hlocked. by rewrite Hlk in Hfree. }
  destruct (write_phase_Ok cfg oc2 us2 an2 st wt2 OC US AN Hoc3 Hus3 Han3 Hfree2)
    as (W2 & HW2 & Hfiles2 & _).
  exists W2. rewrite Hrun2. split; [done|].
  rewrite Hfiles2, Hf2, Hfiles. apply write_all_idemp.
Qed.

End files_of_a_run.

(** X19: the metadata document.  When its path accepts the write,
    [write_run_meta] returns and leaves at that path, and nowhere else, a
    document that holds every entry of the statistics under its key, but
    for the keys [inputs], [outputs] and [config]: under these it holds
    the paths of the configuration, also when the statistics had an entry
    of that name. *)
Theorem write_run_meta_document cfg stats w :
  run_meta cfg ∉ locked w →
  ∃ doc w',
    write_run_meta cfg stats w = (Ok (), w') ∧
    files w' = <[run_meta cfg := JsonFile (PDict doc)]> (files w) ∧
    (∀ k, k ∉ meta_sections → dict_get k doc = dict_get k stats) ∧
    dict_get "inputs" doc
      = Some (PDict [ ("orders_raw", PStr (path_str (raw_orders cfg)));
                      ("users_raw", PStr (path_str (raw_users cfg))) ]) ∧
    dict_get "outputs" doc
      = Some (PDict [ ("orders_clean", PStr (path_str (out_orders_clean cfg)));
                      ("users", PStr (path_str (out_users cfg)));
                      ("analytics_table", PStr (path_str (out_analytics cfg)));
                      ("run_meta", PStr (path_str (run_meta cfg))) ]) ∧
    dict_get "config" doc = Some (PDict [ ("root", PStr (path_str (root cfg))) ]).
Proof.
  intros Hfree. exists (run_meta_doc cfg stats).
  rewrite write_run_meta_run. cbv zeta. rewrite decide_False by done.
  eexists. split; [done|]. split; [done|].
  unfold run_meta_doc, dict_display. cbn [foldl fst snd].
  split; [|split; [|split]].
  - intros k Hk. unfold meta_sections in Hk. rewrite !not_elem_of_cons in Hk.
    destruct Hk as (H1 & H2 & H3 & _).
    by rewrite !dict_get_set_ne by done.
  - rewrite !dict_get_set_ne by done. apply dict_get_set_eq.
  - rewrite dict_get_set_ne by done. apply dict_get_set_eq.
  - apply dict_get_set_eq.
Qed.

Lemma run_etl_succeeds_witness :
  let w := ex_world raw_orders_table raw_users_table in
  ∃ OC US AN st w',
    run_etl (T := spec_transforms) ex_cfg w = (Ok (), w') ∧
    files w' = write_all (artifacts ex_cfg OC US AN st) (files w) ∧
    trace w' = trace w ++ complete_run ex_cfg.
Proof.
  intros w.
  destruct (transform (T := spec_transforms) 0 1
              (loaded ex_cfg raw_orders_table raw_users_table w))
    as [[[[[oc us] an] st]|e] w2] eqn:Ht.
  - destruct (run_etl_succeeds (T := spec_transforms) ex_cfg w 0 1
                (loaded ex_cfg raw_orders_table raw_users_table w) oc us an st w2)
      as (OC & US & AN & w' & _ & _ & _ & Hrun & Hfiles & Htrace).
    + vm_compute. reflexivity.
    + exact Ht.
    + repeat constructor; apply not_elem_of_empty.
    + exists OC, US, AN, st, w'. split; [exact Hrun|]. split; [exact Hfiles|exact Htrace].
  - exfalso. vm_compute in Ht. discriminate.
Defined.

Lemma run_etl_refused_write_witness :
  let w := ex_world_locked raw_orders_table raw_users_table (out_users ex_cfg) in
  ∃ OC US AN st,
    (run_etl (T := spec_transforms) ex_cfg w).1 = Raise (OSError (out_users ex_cfg)) ∧
    files (run_etl (T := spec_transforms) ex_cfg w).2
      = write_all (take 1 (artifacts ex_cfg OC US AN st)) (files w).
Proof.
  intros w.
  destruct (transform (T := spec_transforms) 0 1
              (loaded ex_cfg raw_orders_table raw_users_table w))
    as [[[[[oc us] an] st]|e] w2] eqn:Ht.
  - destruct (run_etl_refused_write (T := spec_transforms) ex_cfg w 0 1
                (loaded ex_cfg raw_orders_table raw_users_table w) oc us an st w2
                [out_orders_clean ex_cfg] (out_users ex_cfg)
                [out_analytics ex_cfg; run_meta ex_cfg])
      as (OC & US & AN & _ & _ & _ & Hraise & Hfiles).
    + vm_compute. reflexivity.
    + exact Ht.
    + reflexivity.
    + repeat constructor. unfold w, ex_world_locked. cbn [locked].
      intros Hin. apply elem_of_singleton in Hin. vm_compute in Hin. discriminate.
    + unfold w, ex_world_locked. cbn [locked]. apply elem_of_singleton. reflexivity.
    + exists OC, US, AN, st. split; [exact Hraise|exact Hfiles].
  - exfalso. vm_compute in Ht. discriminate.
Defined.

Lemma run_etl_writes_only_outputs_witness :
  let w := ex_world raw_orders_table raw_users_table in
  files (run_etl (T := spec_transforms) ex_cfg w).2 !! raw_orders ex_cfg
  = files w !! raw_orders ex_cfg.
Proof.
  intros w.
  apply (run_etl_writes_only_outputs (T := spec_transforms) ex_cfg w (raw_orders ex_cfg)).
  apply (bool_decide_unpack _). vm_compute. exact I.
Defined.

Lemma run_etl_idempotent_witness :
  let w := ex_world raw_orders_table raw_users_table in
  let w1 := (run_etl (T := spec_transforms) ex_cfg w).2 in
  ∃ w2, run_etl (T := spec_transforms) ex_cfg w1 = (Ok (), w2) ∧ files w2 = files w1.
Proof.
  intros w w1.
  apply (run_etl_idempotent (T := spec_transforms) ex_cfg w w1).
  - apply (bool_decide_unpack _). vm_compute. exact I.
  - apply (bool_decide_unpack _). vm_compute. exact I.
  - vm_compute. reflexivity.
Defined.

Lemma write_run_meta_document_witness :
  let w := ex_world raw_orders_table raw_users_table in
  let stats := [("rows_out_analytics", PInt 2); ("inputs", PStr "none")] in
  ∃ doc w',
    write_run_meta ex_cfg stats w = (Ok (), w') ∧
    files w' = <[run_meta ex_cfg := JsonFile (PDict doc)]> (files w) ∧
    (∀ k, k ∉ meta_sections → dict_get k doc = dict_get k stats) ∧
    dict_get "inputs" doc
      = Some (PDict [ ("orders_raw", PStr (path_str (raw_orders ex_cfg)));
                      ("users_raw", PStr (path_str (raw_users ex_cfg))) ]) ∧
    dict_get "outputs" doc
      = Some (PDict [ ("orders_clean", PStr (path_str (out_orders_clean ex_cfg)));
                      ("users", PStr (path_str (out_users ex_cfg)));
                      ("analytics_table", PStr (path_str (out_analytics ex_cfg)));
                      ("run_meta", PStr (path_str (run_meta ex_cfg))) ]) ∧
    dict_get "config" doc = Some (PDict [ ("root", PStr (path_str (root ex_cfg))) ]).
Proof.
  intros w stats.
  apply (write_run_meta_document ex_cfg stats w).
  apply not_elem_of_empty.
Defined.

(** ** Paths and the conversion script *)

Lemma parent_joinpath p name : parent (joinpath p name) = p.
Proof.
  unfold parent, joinpath. rewrite length_app. simpl.
  replace (length p + 1 - 1) with (length p) by lia. by rewrite take_app_length.
Qed.

Lemma joinpath_inj p name name' : joinpath p name = joinpath p name' → name = name'.
Proof. unfold joinpath. intros H. apply app_inv_head in H. by injection H. Qed.

Lemma joinpath_ne p name : joinpath p name ≠ p.
Proof.
  unfold joinpath. intros H. apply (f_equal length) in H. rewrite length_app in H.
  simpl in H. lia.
Qed.

Lemma joinpath2_ne p a b : joinpath (joinpath p a) b ≠ p.
Proof.
  unfold joinpath. intros H. apply (f_equal length) in H. rewrite !length_app in H.
  simpl in H. lia.
Qed.

(** X20: the layout that [make_paths] gives.  The data directory lies
    directly under the root, the raw, cache, processed and external
    directories lie directly under the data directory, and the six
    directories are six different paths, whatever the root. *)
Theorem make_paths_layout (root : Path) :
  let p := make_paths root in
  paths_root p = root ∧
  parent (paths_data p) = root ∧
  Forall (λ d, parent d = paths_data p)
    [paths_raw p; paths_cache p; paths_processed p; paths_external p] ∧
  NoDup [paths_root p; paths_data p; paths_raw p; paths_cache p;
         paths_processed p; paths_external p].
Proof.
  intros p. subst p. unfold make_paths. cbn [paths_root paths_data paths_raw paths_cache
    paths_processed paths_external].
  split; [done|]. split; [apply parent_joinpath|]. split.
  - repeat constructor; apply parent_joinpath.
  - repeat (apply NoDup_cons; split); try apply NoDup_nil_2;
      rewrite ?not_elem_of_cons; repeat split; try apply not_elem_of_nil;
      try (intros H; symmetry in H; revert H; first [apply joinpath_ne|apply joinpath2_ne]);
      try (intros H; revert H; first [apply joinpath_ne|apply joinpath2_ne]);
      try (intros H%joinpath_inj; discriminate).
Qed.

Lemma raw_ne_processed ROOT a b :
  joinpath (paths_raw (make_paths ROOT)) a ≠ joinpath (paths_processed (make_paths ROOT)) b.
Proof.
  unfold make_paths, joinpath. simpl. rewrite <- !app_assoc. simpl.
  intros H. apply app_inv_head in H. discriminate.
Qed.

Lemma read_orders_csv_Ok p w d :
  files w !! p = Some (CsvFile d) →
  read_orders_csv p w = (Ok (length (heap w)), emit (EvRead p) (set_heap (heap w ++ [d]) w)).
Proof. intros H. unfold read_orders_csv. by rewrite H. Qed.

Lemma read_users_csv_Ok p w d :
  files w !! p = Some (CsvFile d) →
  read_users_csv p w = (Ok (length (heap w)), emit (EvRead p) (set_heap (heap w ++ [d]) w)).
Proof. intros H. unfold read_users_csv. by rewrite H. Qed.

Lemma read_orders_csv_Raise p w :
  (∀ d, files w !! p ≠ Some (CsvFile d)) → read_orders_csv p w = (Raise (InputError p), w).
Proof.
  intros H. unfold read_orders_csv. destruct (files w !! p) as [[d| |]|] eqn:E; try done.
  by destruct (H d).
Qed.

Lemma read_users_csv_Raise p w :
  (∀ d, files w !! p ≠ Some (CsvFile d)) → read_users_csv p w = (Raise (InputError p), w).
Proof.
  intros H. unfold read_users_csv. destruct (files w !! p) as [[d| |]|] eqn:E; try done.
  by destruct (H d).
Qed.

(** X21: the conversion script.  When the two raw files under
    [data/raw] hold tables and the two paths under [data/processed]
    accept a write, [main] returns; [orders.parquet] then holds the table
    of [orders.csv] and [users.parquet] that of [users.csv], the raw
    files are as they were, and the calls are the two reads followed by
    the two writes. *)
Theorem main_converts_raw_files ROOT w O U :
  let paths := make_paths ROOT in
  files w !! joinpath (paths_raw paths) "orders.csv" = Some (CsvFile O) →
  files w !! joinpath (paths_raw paths) "users.csv" = Some (CsvFile U) →
  joinpath (paths_processed paths) "orders.parquet" ∉ locked w →
  joinpath (paths_processed paths) "users.parquet" ∉ locked w →
  ∃ w', main ROOT w = (Ok (), w') ∧
    files w' = <[joinpath (paths_processed paths) "users.parquet" := ParquetFile U]>
                (<[joinpath (paths_processed paths) "orders.parquet" := ParquetFile O]>
                   (files w)) ∧
    files w' !! joinpath (paths_raw paths) "orders.csv" = Some (CsvFile O) ∧
    files w' !! joinpath (paths_raw paths) "users.csv" = Some (CsvFile U) ∧
    trace w' = trace w ++
      [ EvRead (joinpath (paths_raw paths) "orders.csv");
        EvRead (joinpath (paths_raw paths) "users.csv");
        EvWriteTable (joinpath (paths_processed paths) "orders.parquet");
        EvWriteTable (joinpath (paths_processed paths) "users.parquet") ].
Proof.
  intros paths HO HU F1 F2.
  unfold main. fold paths.
  rewrite (bind_Ok _ _ _ _ _ (read_orders_csv_Ok _ _ _ HO)).
  erewrite bind_Ok by (apply read_users_csv_Ok; exact HU).
  unfold mbind, M_bind.
  rewrite (write_parquet_run _ _ _ O).
  2:{ cbn [heap emit set_heap]. rewrite <- app_assoc. simpl. by apply list_lookup_middle. }
  cbn [locked emit set_heap]. rewrite decide_False by done.
  rewrite (write_parquet_run _ _ _ U).
  2:{ cbn [heap emit set_heap set_files]. by apply list_lookup_middle. }
  cbn [locked emit set_heap set_files]. rewrite decide_False by done.
  eexists. split; [reflexivity|]. cbn [files trace heap locked emit set_files set_heap].
  split; [done|]. split; [|split].
  - rewrite !lookup_insert_ne by (intros ?; by eapply raw_ne_processed). done.
  - rewrite !lookup_insert_ne by (intros ?; by eapply raw_ne_processed). done.
  - by rewrite <- !app_assoc.
Qed.

Lemma main_converts_raw_files_witness :
  let w := ex_world raw_orders_table raw_users_table in
  let paths := make_paths ["project"] in
  ∃ w', main ["project"] w = (Ok (), w') ∧
    files w' = <[joinpath (paths_processed paths) "users.parquet" := ParquetFile raw_users_table]>
                (<[joinpath (paths_processed paths) "orders.parquet"
                     := ParquetFile raw_orders_table]> (files w)) ∧
    files w' !! joinpath (paths_raw paths) "orders.csv" = Some (CsvFile raw_orders_table) ∧
    files w' !! joinpath (paths_raw paths) "users.csv" = Some (CsvFile raw_users_table) ∧
    trace w' = trace w ++
      [ EvRead (joinpath (paths_raw paths) "orders.csv");
        EvRead (joinpath (paths_raw paths) "users.csv");
        EvWriteTable (joinpath (paths_processed paths) "orders.parquet");
        EvWriteTable (joinpath (paths_processed paths) "users.parquet") ].
Proof.
  intros w paths.
  apply (main_converts_raw_files ["project"] w raw_orders_table raw_users_table).
  - vm_compute. reflexivity.
  - vm_compute. reflexivity.
  - apply not_elem_of_empty.
  - apply not_elem_of_empty.
Defined.

(** X22: the conversion script reads both files before it writes.  When
    the orders file cannot be read, [main] raises the reader's error for
    it and nothing has happened; when only the users file cannot be read,
    [main] raises the error for that file after the one read, and no file
    was written: the orders table that was read is not converted. *)
Theorem main_unreadable_input ROOT w :
  let paths := make_paths ROOT in
  ((∀ O, files w !! joinpath (paths_raw paths) "orders.csv" ≠ Some (CsvFile O)) →
     main ROOT w = (Raise (InputError (joinpath (paths_raw paths) "orders.csv")), w)) ∧
  (∀ O, files w !! joinpath (paths_raw paths) "orders.csv" = Some (CsvFile O) →
     (∀ U, files w !! joinpath (paths_raw paths) "users.csv" ≠ Some (CsvFile U)) →
     (main ROOT w).1 = Raise (InputError (joinpath (paths_raw paths) "users.csv")) ∧
     files (main ROOT w).2 = files w ∧
     trace (main ROOT w).2 = trace w ++ [EvRead (joinpath (paths_raw paths) "orders.csv")]).
Proof.
  intros paths. split.
  - intros HO. unfold main. fold paths.
    by rewrite (bind_Raise _ _ _ _ _ (read_orders_csv_Raise _ _ HO)).
  - intros O HO HU. unfold main. fold paths.
    rewrite (bind_Ok _ _ _ _ _ (read_orders_csv_Ok _ _ _ HO)).
    by erewrite bind_Raise by (apply read_users_csv_Raise; exact HU).
Qed.
